(** * DeviceReactor: a shallow embedding of the peripheral state machines

    The development follows [src/DeviceReactor.h]: the interval scheduler
    ([Interval]), the analog stabilisation pipeline ([AnalogSensor]), the
    debounced button ([Button]), the LED animation engine ([LED]), the
    rotary encoder ([RotaryEncoder]) and the arrays, handles and timer
    functions of the device ([Device]).

    Conventions of the embedding.
    - [byte], [unsigned int] and [unsigned long] values are integers of [Z]
      with the wrap-around of their width written out ([wrap]); an
      [unsigned long] has 32 bits, the width of [unsigned int] is the
      parameter [UINT_BITS] of the LED engine (16 on AVR boards, 32 on ARM
      and ESP boards).
    - [int] values are integers of [Z]: overflow of [int] arithmetic is
      undefined in C++, and the functions are read on the executions that do
      not overflow. A conversion to [int] and the [long] arithmetic of
      [map] are written out with their wrap-around; the width of [int] and
      the format of [double] belong to the board ([Board]).
    - [float] values are binary32 numbers, with the operations of
      [SpecFloat]; the one place that uses them is the quantization of the
      analog sensor.
    - Every object is threaded explicitly: a member function takes the
      object and returns the updated object.
    - The hardware collaborators are arguments and results: the value that
      [digitalRead], [analogRead] or [millis] returns at a call site is an
      argument, the calls of [analogWrite] and [digitalWrite] are appended
      to a list in the object, a user callback that is invoked is an event
      in the returned list, a line printed on [Serial] is in the outcome.
    - [while(1);] ends the run: the outcome is [Halted]. *)

From Stdlib Require Import ZArith List Bool String Lia.
From Stdlib Require Import Floats.SpecFloat.
From stdpp Require Import base list.
Import ListNotations.

Local Open Scope Z_scope.

(** ** Arduino primitives *)

Definition HIGH : Z := 1.
Definition LOW : Z := 0.
Definition INVALID_HANDLE : Z := 255.

Definition BUTTON_PRESS_HIGH : Z := 0.
Definition BUTTON_PRESS_LOW : Z := 1.
Definition BUTTON_INPUT_PULLUP : Z := 2.

(** Reduction of an integer to an unsigned type of [bits] bits. *)
Definition wrap (bits : Z) (x : Z) : Z := x mod 2 ^ bits.

Definition to_byte (x : Z) : Z := wrap 8 x.
Definition to_ulong (x : Z) : Z := wrap 32 x.

(** Conversion of an integer to a signed type of [bits] bits: the value
    modulo [2^bits] that lies in the range of the type. *)
Definition to_signed (bits : Z) (x : Z) : Z :=
  let r := wrap bits x in
  if r <? 2 ^ (bits - 1) then r else r - 2 ^ bits.

(** [long] has 32 bits on the boards of the Arduino cores. *)
Definition to_long (x : Z) : Z := to_signed 32 x.

(** [millis() - last] in [unsigned long] arithmetic. *)
Definition elapsed (now last : Z) : Z := to_ulong (now - last).

Arguments wrap : simpl never.
Arguments to_byte : simpl never.
Arguments to_ulong : simpl never.
Arguments elapsed : simpl never.
Arguments to_signed : simpl never.
Arguments to_long : simpl never.

(** A binary floating-point format: the number of bits of the significand
    and the exponent bound. *)
Record float_format : Type := Build_float_format {
  precision : Z;
  exponent_max : Z
}.

Definition binary32 : float_format := Build_float_format 24 128.
Definition binary64 : float_format := Build_float_format 53 1024.

(** What the compiled program takes from its board: the width of [int]
    and the format of [double] ([float] is binary32 everywhere). *)
Record Board : Type := Build_Board {
  INT_BITS : Z;
  double : float_format
}.

(** The 8-bit AVR boards: [int] has 16 bits and [double] is binary32. The
    32-bit ARM boards: [int] has 32 bits and [double] is binary64. *)
Definition avr : Board := Build_Board 16 binary32.
Definition arm32 : Board := Build_Board 32 binary64.

(** How a member function that may print on [Serial] and may halt ends. *)
Inductive outcome (A : Type) : Type :=
| Continue (result : A) (serial : list string)
| Halted (serial : list string).
Arguments Continue {A} result serial.
Arguments Halted {A} serial.

(** *** Floating point

    [float] values are numbers of binary32, as [SpecFloat] of the Standard
    Library defines them and their operations (round to nearest, ties to
    even). *)

(** [(float)n] for an integer [n]. *)
Definition f32_of_int (n : Z) : spec_float := binary_normalize 24 128 n 0 false.

(** [x / y] on [float]. *)
Definition f32_div : spec_float -> spec_float -> spec_float := SFdiv 24 128.

(** The constant [0.5], a [double]. *)
Definition one_half (fmt : float_format) : spec_float :=
  binary_normalize (precision fmt) (exponent_max fmt) 1 (-1) false.

(** [(long)x]: truncation toward zero of a finite number. *)
Definition truncate (x : spec_float) : Z :=
  match x with
  | S754_finite s m e =>
      let mag := if 0 <=? e then Z.pos m * 2 ^ e else Z.pos m / 2 ^ (- e) in
      if s then - mag else mag
  | _ => 0
  end.

(** [round(x)] for a [float] [x], where [round] is the macro of Arduino.h,
    [((x)>=0 ? (long)((x)+0.5) : (long)((x)-0.5))]: [x] is converted to
    [double], which keeps its value, and the sum is a [double] of the format
    [fmt]. *)
Definition arduino_round (fmt : float_format) (x : spec_float) : Z :=
  if SFleb (S754_zero false) x
  then truncate (SFadd (precision fmt) (exponent_max fmt) x (one_half fmt))
  else truncate (SFsub (precision fmt) (exponent_max fmt) x (one_half fmt)).

(** [map] of Arduino (WMath.cpp),
    [(x - in_min) * (out_max - out_min) / (in_max - in_min) + out_min] on
    [long] operands; [/] truncates. An overflow of [long], undefined in C++,
    wraps around as the processors do. So is the division by zero of an
    input range of which both ends are equal undefined: the model takes the
    quotient as 0 there. *)
Definition arduino_map (x in_min in_max out_min out_max : Z) : Z :=
  let product := to_long (to_long (x - in_min) * to_long (out_max - out_min)) in
  to_long (to_long (Z.quot product (to_long (in_max - in_min))) + out_min).

Arguments arduino_round : simpl never.
Arguments arduino_map : simpl never.

(** ** Analog sensor *)

Module AnalogSensor.

Inductive Preset : Type :=
| RAW_DATA | POT_FOR_LED | POT_FOR_SERVO | POT_FOR_PERCENTAGE | SWITCH_5_POSITION.

Record PresetConfig : Type := Build_PresetConfig {
  smoothing_samples : Z;
  output_min : Z;
  output_max : Z;
  quantize_step : Z;
  cfg_hysteresis_amount : Z;
  change_threshold : Z
}.

Record Zone : Type := Build_Zone {
  id : Z;
  min_val : Z;
  max_val : Z
}.

(** The callbacks a sensor invokes, with their argument. *)
Inductive event : Type :=
| Changed (value : Z)
| ZoneChanged (zone : Z).

(** The object. [defined_zones] holds the entries of the array of the
    source that are in use, the first [zone_count] ones, so [zone_count],
    a [byte], is its length. The two function pointers are not stored: an
    invocation is an [event]. *)
Record AnalogSensor : Type := Build_AnalogSensor {
  pin : Z;
  initialized : bool;
  hasInitialRead : bool;
  inputMin : Z;
  inputMax : Z;
  outputMin : Z;
  outputMax : Z;
  inverted : bool;
  quantizeStep : Z;
  delta : Z;
  currentValue : Z;
  previousValue : Z;
  avgSamples : Z;
  avgCount : Z;
  accumulatedSum : Z;
  hasChangeFunc : bool;
  hiResValue : Z;
  currentReportedValue : Z;
  hysteresis_amount : Z;
  defined_zones : list Zone;
  currentZoneID : Z;
  previousZoneID : Z;
  hasZoneChangeFunc : bool
}.

Definition zone_count (s : AnalogSensor) : Z := Z.of_nat (length (defined_zones s)).

(** The member initialisers of the class. *)
Definition fresh : AnalogSensor :=
  Build_AnalogSensor 0 false false 0 1023 0 1023 false 0 1 0 0 1 0 0 false 0 0 0
    [] INVALID_HANDLE INVALID_HANDLE false.

(** Assignment to one member. *)
Definition set_pin (v : _) (x : AnalogSensor) : AnalogSensor :=
  Build_AnalogSensor v (initialized x) (hasInitialRead x) (inputMin x) (inputMax x) (outputMin x) (outputMax x) (inverted x) (quantizeStep x) (delta x) (currentValue x) (previousValue x) (avgSamples x) (avgCount x) (accumulatedSum x) (hasChangeFunc x) (hiResValue x) (currentReportedValue x) (hysteresis_amount x) (defined_zones x) (currentZoneID x) (previousZoneID x) (hasZoneChangeFunc x).
Definition set_initialized (v : _) (x : AnalogSensor) : AnalogSensor :=
  Build_AnalogSensor (pin x) v (hasInitialRead x) (inputMin x) (inputMax x) (outputMin x) (outputMax x) (inverted x) (quantizeStep x) (delta x) (currentValue x) (previousValue x) (avgSamples x) (avgCount x) (accumulatedSum x) (hasChangeFunc x) (hiResValue x) (currentReportedValue x) (hysteresis_amount x) (defined_zones x) (currentZoneID x) (previousZoneID x) (hasZoneChangeFunc x).
Definition set_hasInitialRead (v : _) (x : AnalogSensor) : AnalogSensor :=
  Build_AnalogSensor (pin x) (initialized x) v (inputMin x) (inputMax x) (outputMin x) (outputMax x) (inverted x) (quantizeStep x) (delta x) (currentValue x) (previousValue x) (avgSamples x) (avgCount x) (accumulatedSum x) (hasChangeFunc x) (hiResValue x) (currentReportedValue x) (hysteresis_amount x) (defined_zones x) (currentZoneID x) (previousZoneID x) (hasZoneChangeFunc x).
Definition set_inputMin (v : _) (x : AnalogSensor) : AnalogSensor :=
  Build_AnalogSensor (pin x) (initialized x) (hasInitialRead x) v (inputMax x) (outputMin x) (outputMax x) (inverted x) (quantizeStep x) (delta x) (currentValue x) (previousValue x) (avgSamples x) (avgCount x) (accumulatedSum x) (hasChangeFunc x) (hiResValue x) (currentReportedValue x) (hysteresis_amount x) (defined_zones x) (currentZoneID x) (previousZoneID x) (hasZoneChangeFunc x).
Definition set_inputMax (v : _) (x : AnalogSensor) : AnalogSensor :=
  Build_AnalogSensor (pin x) (initialized x) (hasInitialRead x) (inputMin x) v (outputMin x) (outputMax x) (inverted x) (quantizeStep x) (delta x) (currentValue x) (previousValue x) (avgSamples x) (avgCount x) (accumulatedSum x) (hasChangeFunc x) (hiResValue x) (currentReportedValue x) (hysteresis_amount x) (defined_zones x) (currentZoneID x) (previousZoneID x) (hasZoneChangeFunc x).
Definition set_outputMin (v : _) (x : AnalogSensor) : AnalogSensor :=
  Build_AnalogSensor (pin x) (initialized x) (hasInitialRead x) (inputMin x) (inputMax x) v (outputMax x) (inverted x) (quantizeStep x) (delta x) (currentValue x) (previousValue x) (avgSamples x) (avgCount x) (accumulatedSum x) (hasChangeFunc x) (hiResValue x) (currentReportedValue x) (hysteresis_amount x) (defined_zones x) (currentZoneID x) (previousZoneID x) (hasZoneChangeFunc x).
Definition set_outputMax (v : _) (x : AnalogSensor) : AnalogSensor :=
  Build_AnalogSensor (pin x) (initialized x) (hasInitialRead x) (inputMin x) (inputMax x) (outputMin x) v (inverted x) (quantizeStep x) (delta x) (currentValue x) (previousValue x) (avgSamples x) (avgCount x) (accumulatedSum x) (hasChangeFunc x) (hiResValue x) (currentReportedValue x) (hysteresis_amount x) (defined_zones x) (currentZoneID x) (previousZoneID x) (hasZoneChangeFunc x).
Definition set_inverted (v : _) (x : AnalogSensor) : AnalogSensor :=
  Build_AnalogSensor (pin x) (initialized x) (hasInitialRead x) (inputMin x) (inputMax x) (outputMin x) (outputMax x) v (quantizeStep x) (delta x) (currentValue x) (previousValue x) (avgSamples x) (avgCount x) (accumulatedSum x) (hasChangeFunc x) (hiResValue x) (currentReportedValue x) (hysteresis_amount x) (defined_zones x) (currentZoneID x) (previousZoneID x) (hasZoneChangeFunc x).
Definition set_quantizeStep (v : _) (x : AnalogSensor) : AnalogSensor :=
  Build_AnalogSensor (pin x) (initialized x) (hasInitialRead x) (inputMin x) (inputMax x) (outputMin x) (outputMax x) (inverted x) v (delta x) (currentValue x) (previousValue x) (avgSamples x) (avgCount x) (accumulatedSum x) (hasChangeFunc x) (hiResValue x) (currentReportedValue x) (hysteresis_amount x) (defined_zones x) (currentZoneID x) (previousZoneID x) (hasZoneChangeFunc x).
Definition set_delta (v : _) (x : AnalogSensor) : AnalogSensor :=
  Build_AnalogSensor (pin x) (initialized x) (hasInitialRead x) (inputMin x) (inputMax x) (outputMin x) (outputMax x) (inverted x) (quantizeStep x) v (currentValue x) (previousValue x) (avgSamples x) (avgCount x) (accumulatedSum x) (hasChangeFunc x) (hiResValue x) (currentReportedValue x) (hysteresis_amount x) (defined_zones x) (currentZoneID x) (previousZoneID x) (hasZoneChangeFunc x).
Definition set_currentValue (v : _) (x : AnalogSensor) : AnalogSensor :=
  Build_AnalogSensor (pin x) (initialized x) (hasInitialRead x) (inputMin x) (inputMax x) (outputMin x) (outputMax x) (inverted x) (quantizeStep x) (delta x) v (previousValue x) (avgSamples x) (avgCount x) (accumulatedSum x) (hasChangeFunc x) (hiResValue x) (currentReportedValue x) (hysteresis_amount x) (defined_zones x) (currentZoneID x) (previousZoneID x) (hasZoneChangeFunc x).
Definition set_previousValue (v : _) (x : AnalogSensor) : AnalogSensor :=
  Build_AnalogSensor (pin x) (initialized x) (hasInitialRead x) (inputMin x) (inputMax x) (outputMin x) (outputMax x) (inverted x) (quantizeStep x) (delta x) (currentValue x) v (avgSamples x) (avgCount x) (accumulatedSum x) (hasChangeFunc x) (hiResValue x) (currentReportedValue x) (hysteresis_amount x) (defined_zones x) (currentZoneID x) (previousZoneID x) (hasZoneChangeFunc x).
Definition set_avgSamples (v : _) (x : AnalogSensor) : AnalogSensor :=
  Build_AnalogSensor (pin x) (initialized x) (hasInitialRead x) (inputMin x) (inputMax x) (outputMin x) (outputMax x) (inverted x) (quantizeStep x) (delta x) (currentValue x) (previousValue x) v (avgCount x) (accumulatedSum x) (hasChangeFunc x) (hiResValue x) (currentReportedValue x) (hysteresis_amount x) (defined_zones x) (currentZoneID x) (previousZoneID x) (hasZoneChangeFunc x).
Definition set_avgCount (v : _) (x : AnalogSensor) : AnalogSensor :=
  Build_AnalogSensor (pin x) (initialized x) (hasInitialRead x) (inputMin x) (inputMax x) (outputMin x) (outputMax x) (inverted x) (quantizeStep x) (delta x) (currentValue x) (previousValue x) (avgSamples x) v (accumulatedSum x) (hasChangeFunc x) (hiResValue x) (currentReportedValue x) (hysteresis_amount x) (defined_zones x) (currentZoneID x) (previousZoneID x) (hasZoneChangeFunc x).
Definition set_accumulatedSum (v : _) (x : AnalogSensor) : AnalogSensor :=
  Build_AnalogSensor (pin x) (initialized x) (hasInitialRead x) (inputMin x) (inputMax x) (outputMin x) (outputMax x) (inverted x) (quantizeStep x) (delta x) (currentValue x) (previousValue x) (avgSamples x) (avgCount x) v (hasChangeFunc x) (hiResValue x) (currentReportedValue x) (hysteresis_amount x) (defined_zones x) (currentZoneID x) (previousZoneID x) (hasZoneChangeFunc x).
Definition set_hasChangeFunc (v : _) (x : AnalogSensor) : AnalogSensor :=
  Build_AnalogSensor (pin x) (initialized x) (hasInitialRead x) (inputMin x) (inputMax x) (outputMin x) (outputMax x) (inverted x) (quantizeStep x) (delta x) (currentValue x) (previousValue x) (avgSamples x) (avgCount x) (accumulatedSum x) v (hiResValue x) (currentReportedValue x) (hysteresis_amount x) (defined_zones x) (currentZoneID x) (previousZoneID x) (hasZoneChangeFunc x).
Definition set_hiResValue (v : _) (x : AnalogSensor) : AnalogSensor :=
  Build_AnalogSensor (pin x) (initialized x) (hasInitialRead x) (inputMin x) (inputMax x) (outputMin x) (outputMax x) (inverted x) (quantizeStep x) (delta x) (currentValue x) (previousValue x) (avgSamples x) (avgCount x) (accumulatedSum x) (hasChangeFunc x) v (currentReportedValue x) (hysteresis_amount x) (defined_zones x) (currentZoneID x) (previousZoneID x) (hasZoneChangeFunc x).
Definition set_currentReportedValue (v : _) (x : AnalogSensor) : AnalogSensor :=
  Build_AnalogSensor (pin x) (initialized x) (hasInitialRead x) (inputMin x) (inputMax x) (outputMin x) (outputMax x) (inverted x) (quantizeStep x) (delta x) (currentValue x) (previousValue x) (avgSamples x) (avgCount x) (accumulatedSum x) (hasChangeFunc x) (hiResValue x) v (hysteresis_amount x) (defined_zones x) (currentZoneID x) (previousZoneID x) (hasZoneChangeFunc x).
Definition set_hysteresis_amount (v : _) (x : AnalogSensor) : AnalogSensor :=
  Build_AnalogSensor (pin x) (initialized x) (hasInitialRead x) (inputMin x) (inputMax x) (outputMin x) (outputMax x) (inverted x) (quantizeStep x) (delta x) (currentValue x) (previousValue x) (avgSamples x) (avgCount x) (accumulatedSum x) (hasChangeFunc x) (hiResValue x) (currentReportedValue x) v (defined_zones x) (currentZoneID x) (previousZoneID x) (hasZoneChangeFunc x).
Definition set_defined_zones (v : _) (x : AnalogSensor) : AnalogSensor :=
  Build_AnalogSensor (pin x) (initialized x) (hasInitialRead x) (inputMin x) (inputMax x) (outputMin x) (outputMax x) (inverted x) (quantizeStep x) (delta x) (currentValue x) (previousValue x) (avgSamples x) (avgCount x) (accumulatedSum x) (hasChangeFunc x) (hiResValue x) (currentReportedValue x) (hysteresis_amount x) v (currentZoneID x) (previousZoneID x) (hasZoneChangeFunc x).
Definition set_currentZoneID (v : _) (x : AnalogSensor) : AnalogSensor :=
  Build_AnalogSensor (pin x) (initialized x) (hasInitialRead x) (inputMin x) (inputMax x) (outputMin x) (outputMax x) (inverted x) (quantizeStep x) (delta x) (currentValue x) (previousValue x) (avgSamples x) (avgCount x) (accumulatedSum x) (hasChangeFunc x) (hiResValue x) (currentReportedValue x) (hysteresis_amount x) (defined_zones x) v (previousZoneID x) (hasZoneChangeFunc x).
Definition set_previousZoneID (v : _) (x : AnalogSensor) : AnalogSensor :=
  Build_AnalogSensor (pin x) (initialized x) (hasInitialRead x) (inputMin x) (inputMax x) (outputMin x) (outputMax x) (inverted x) (quantizeStep x) (delta x) (currentValue x) (previousValue x) (avgSamples x) (avgCount x) (accumulatedSum x) (hasChangeFunc x) (hiResValue x) (currentReportedValue x) (hysteresis_amount x) (defined_zones x) (currentZoneID x) v (hasZoneChangeFunc x).
Definition set_hasZoneChangeFunc (v : _) (x : AnalogSensor) : AnalogSensor :=
  Build_AnalogSensor (pin x) (initialized x) (hasInitialRead x) (inputMin x) (inputMax x) (outputMin x) (outputMax x) (inverted x) (quantizeStep x) (delta x) (currentValue x) (previousValue x) (avgSamples x) (avgCount x) (accumulatedSum x) (hasChangeFunc x) (hiResValue x) (currentReportedValue x) (hysteresis_amount x) (defined_zones x) (currentZoneID x) (previousZoneID x) v.

Definition init (newPin : Z) (s : AnalogSensor) : outcome AnalogSensor :=
  if initialized s then
    Continue s ["WARNING: AnalogSensor already initialized. Ignoring."%string]
  else
    Continue (set_initialized true (set_pin newPin s)) [].

Definition inputRange (newMin newMax : Z) (s : AnalogSensor) : AnalogSensor :=
  set_inputMax newMax (set_inputMin newMin s).

Definition outputRange (newMin newMax : Z) (s : AnalogSensor) : AnalogSensor :=
  set_outputMax newMax (set_outputMin newMin s).

Definition invert (s : AnalogSensor) : AnalogSensor := set_inverted true s.

Definition quantize1 (step : Z) (s : AnalogSensor) : AnalogSensor :=
  set_hysteresis_amount (Z.quot step 4) (set_quantizeStep step s).

Definition quantize (step hysteresis : Z) (s : AnalogSensor) : AnalogSensor :=
  set_hysteresis_amount hysteresis (set_quantizeStep step s).

Definition changeThreshold (threshold : Z) (s : AnalogSensor) : AnalogSensor :=
  set_delta threshold s.

Definition smoothing (samples : Z) (s : AnalogSensor) : AnalogSensor :=
  set_avgSamples (if samples <? 1 then 1 else samples) s.

Definition onChange (s : AnalogSensor) : AnalogSensor := set_hasChangeFunc true s.

Definition onZoneChange (s : AnalogSensor) : AnalogSensor :=
  set_hasZoneChangeFunc true s.

Section Zones.
Variable MAX_ZONES_PER_SENSOR : Z.

(** The entry is stored at index [zone_count], and [zone_count++] is a
    [byte] increment: when it wraps around to 0 (an array of more than 255
    entries), no entry is in use any more. *)
Definition addZone (zid min_value max_value : Z) (s : AnalogSensor) : AnalogSensor :=
  if MAX_ZONES_PER_SENSOR <=? zone_count s then s
  else if max_value <? min_value then s
  else
    let stored := defined_zones s ++ [Build_Zone zid min_value max_value] in
    set_defined_zones (take (Z.to_nat (to_byte (zone_count s + 1))) stored) s.

End Zones.

Definition clearZones (s : AnalogSensor) : AnalogSensor :=
  set_previousZoneID INVALID_HANDLE
    (set_currentZoneID INVALID_HANDLE (set_defined_zones [] s)).

Definition preset_configs (p : Preset) : PresetConfig :=
  match p with
  | RAW_DATA => Build_PresetConfig 1 0 1023 0 0 1
  | POT_FOR_LED => Build_PresetConfig 8 0 255 0 0 2
  | POT_FOR_SERVO => Build_PresetConfig 8 0 180 0 0 2
  | POT_FOR_PERCENTAGE => Build_PresetConfig 10 0 100 5 1 1
  | SWITCH_5_POSITION => Build_PresetConfig 12 0 4 1 1 1
  end.

Definition configure (preset : Preset) (s : AnalogSensor) : AnalogSensor :=
  let config := preset_configs preset in
  let s := smoothing (smoothing_samples config) s in
  let s := outputRange (output_min config) (output_max config) s in
  if 0 <? quantize_step config then
    let h := if 0 <? cfg_hysteresis_amount config
             then cfg_hysteresis_amount config
             else Z.quot (quantize_step config) 4 in
    quantize (quantize_step config) h s
  else changeThreshold (change_threshold config) s.

Definition average (newReading : Z) (s : AnalogSensor) : AnalogSensor :=
  set_avgCount (to_byte (avgCount s + 1))
    (set_accumulatedSum (to_ulong (accumulatedSum s + newReading)) s).

Fixpoint findZoneForValue_in (zones : list Zone) (val : Z) : Z :=
  match zones with
  | [] => INVALID_HANDLE
  | z :: rest =>
      if (min_val z <=? val) && (val <=? max_val z) then id z
      else findZoneForValue_in rest val
  end.

Definition findZoneForValue (s : AnalogSensor) (val : Z) : Z :=
  findZoneForValue_in (defined_zones s) val.

(** [if (v < lo) v = lo; if (v > hi) v = hi;] *)
Definition clamp (lo hi v : Z) : Z :=
  let v := if v <? lo then lo else v in
  if hi <? v then hi else v.

Section OnBoard.

Variable board : Board.

(** From the quotient [accumulatedSum / avgSamples] to the hi-res value:
    [int avgValue = accumulatedSum / avgSamples;] converts the quotient, an
    [unsigned long], to [int]; then clamp to the input range, map (the
    [long] result is stored in an [int]), clamp to the output range,
    invert. The source has this block twice, in [update] and in
    [performInitialRead]. *)
Definition computeHiRes (quotient : Z) (s : AnalogSensor) : Z :=
  let avgValue := to_signed (INT_BITS board) quotient in
  let avgValue := clamp (inputMin s) (inputMax s) avgValue in
  let hiRes :=
    to_signed (INT_BITS board)
      (arduino_map avgValue (inputMin s) (inputMax s) (outputMin s) (outputMax s)) in
  let hiRes := clamp (outputMin s) (outputMax s) hiRes in
  if inverted s then outputMax s + outputMin s - hiRes else hiRes.

(** [round((float)hiResValue / quantizeStep) * quantizeStep] stored in an
    [int]: the quotient is a [float], [round] gives a [long], the product
    is a [long]. *)
Definition quantized (hiResValue quantizeStep : Z) : Z :=
  let quotient := f32_div (f32_of_int hiResValue) (f32_of_int quantizeStep) in
  to_signed (INT_BITS board)
    (to_long (arduino_round (double board) quotient * quantizeStep)).

(** The quantized value, clamped to the output range. *)
Definition V_potential (s : AnalogSensor) : Z :=
  clamp (outputMin s) (outputMax s) (quantized (hiResValue s) (quantizeStep s)).

Definition performInitialRead (rawValue : Z) (s : AnalogSensor) : AnalogSensor :=
  let s :=
    if 1 <? avgSamples s
    then set_avgCount (avgSamples s)
           (set_accumulatedSum (to_ulong (rawValue * avgSamples s)) s)
    else set_avgCount 1 (set_accumulatedSum (to_ulong rawValue) s) in
  let s := set_hiResValue (computeHiRes (accumulatedSum s / avgSamples s) s) s in
  let s :=
    if 0 <? quantizeStep s
    then set_currentReportedValue (V_potential s) s
    else set_currentReportedValue (hiResValue s) s in
  let s := set_currentValue (currentReportedValue s) s in
  let s := set_previousValue (currentReportedValue s) s in
  let s :=
    if 0 <? zone_count s then
      let initialZone := findZoneForValue s (currentReportedValue s) in
      set_previousZoneID initialZone (set_currentZoneID initialZone s)
    else s in
  let s := set_avgCount 0 (set_accumulatedSum 0 s) in
  set_hasInitialRead true s.

(** The mode selection of [update]: the value to report and whether it is a
    change. *)
Definition stabilize (s : AnalogSensor) : Z * bool :=
  if 0 <? quantizeStep s then
    let V := V_potential s in
    if negb (V =? currentReportedValue s) then
      if currentReportedValue s <? V then
        let trigger_up :=
          (currentReportedValue s + Z.quot (quantizeStep s) 2) + hysteresis_amount s in
        if trigger_up <=? hiResValue s then (V, true) else (hiResValue s, false)
      else
        let trigger_down :=
          (currentReportedValue s - Z.quot (quantizeStep s) 2) - hysteresis_amount s in
        if hiResValue s <=? trigger_down then (V, true) else (hiResValue s, false)
    else (hiResValue s, false)
  else if 1 <? delta s then
    if delta s <=? Z.abs (hiResValue s - currentReportedValue s)
    then (hiResValue s, true) else (hiResValue s, false)
  else
    if negb (hiResValue s =? currentReportedValue s)
    then (hiResValue s, true) else (hiResValue s, false).

(** "Apply smoothing". *)
Definition accumulate (rawValue : Z) (s : AnalogSensor) : AnalogSensor :=
  if 1 <? avgSamples s then average rawValue s
  else set_avgCount 1 (set_accumulatedSum (to_ulong rawValue) s).

(** "Update state and fire onChange if value changed". *)
Definition commit (s : AnalogSensor) : AnalogSensor * list event :=
  let '(newValue, valueChanged) := stabilize s in
  if valueChanged then
    let s := set_previousValue newValue
               (set_currentValue newValue
                  (set_currentReportedValue newValue s)) in
    (s, if hasChangeFunc s then [Changed (currentReportedValue s)] else [])
  else (s, []).

(** "Zone detection and event firing". *)
Definition classify (s : AnalogSensor) : AnalogSensor * list event :=
  if 0 <? zone_count s then
    let detectedZoneID := findZoneForValue s (currentReportedValue s) in
    let s := set_currentZoneID detectedZoneID s in
    if negb (currentZoneID s =? previousZoneID s) then
      let s := set_previousZoneID (currentZoneID s) s in
      (s, if hasZoneChangeFunc s then [ZoneChanged (currentZoneID s)] else [])
    else (s, [])
  else (s, []).

(** [rawValue] is the value [analogRead(pin)] returns. *)
Definition update (rawValue : Z) (s : AnalogSensor) : AnalogSensor * list event :=
  if negb (hasInitialRead s) then (performInitialRead rawValue s, [])
  else
    let s := accumulate rawValue s in
    if avgSamples s <=? avgCount s then
      let s := set_hiResValue (computeHiRes (accumulatedSum s / avgSamples s) s) s in
      let '(s, ev1) := commit s in
      let '(s, ev2) := classify s in
      (set_avgCount 0 (set_accumulatedSum 0 s), ev1 ++ ev2)
    else (s, []).

(** The value that [value()] returns. *)
Definition value (rawValue : Z) (s : AnalogSensor) : Z * AnalogSensor :=
  let s := if negb (hasInitialRead s) then performInitialRead rawValue s else s in
  (currentValue s, s).

End OnBoard.

Arguments quantized : simpl never.

(** The poll completes a smoothing window: the test [avgCount >= avgSamples]
    of [update] succeeds after the sample is taken in. *)
Definition completes_window (rawValue : Z) (s : AnalogSensor) : bool :=
  let s := accumulate rawValue s in
  avgSamples s <=? avgCount s.

Definition changes (ev : list event) : list Z :=
  flat_map (fun e => match e with Changed v => [v] | _ => [] end) ev.

Definition zone_changes (ev : list event) : list Z :=
  flat_map (fun e => match e with ZoneChanged z => [z] | _ => [] end) ev.

End AnalogSensor.

(** ** Button *)

Module Button.

(** The callbacks a button invokes. *)
Inductive event : Type :=
| Pressed
| Released.

(** [state] is the last raw level read, [oldState] the committed level. *)
Record Button : Type := Build_Button {
  pin : Z;
  pressMode : Z;
  initialized : bool;
  state : Z;
  oldState : Z;
  hasPressFunc : bool;
  hasReleaseFunc : bool;
  lastDebounceTime : Z
}.

Definition fresh : Button :=
  Build_Button 0 BUTTON_INPUT_PULLUP false HIGH HIGH false false 0.

Definition set_pin (v : _) (x : Button) : Button :=
  Build_Button v (pressMode x) (initialized x) (state x) (oldState x) (hasPressFunc x) (hasReleaseFunc x) (lastDebounceTime x).
Definition set_pressMode (v : _) (x : Button) : Button :=
  Build_Button (pin x) v (initialized x) (state x) (oldState x) (hasPressFunc x) (hasReleaseFunc x) (lastDebounceTime x).
Definition set_initialized (v : _) (x : Button) : Button :=
  Build_Button (pin x) (pressMode x) v (state x) (oldState x) (hasPressFunc x) (hasReleaseFunc x) (lastDebounceTime x).
Definition set_state (v : _) (x : Button) : Button :=
  Build_Button (pin x) (pressMode x) (initialized x) v (oldState x) (hasPressFunc x) (hasReleaseFunc x) (lastDebounceTime x).
Definition set_oldState (v : _) (x : Button) : Button :=
  Build_Button (pin x) (pressMode x) (initialized x) (state x) v (hasPressFunc x) (hasReleaseFunc x) (lastDebounceTime x).
Definition set_hasPressFunc (v : _) (x : Button) : Button :=
  Build_Button (pin x) (pressMode x) (initialized x) (state x) (oldState x) v (hasReleaseFunc x) (lastDebounceTime x).
Definition set_hasReleaseFunc (v : _) (x : Button) : Button :=
  Build_Button (pin x) (pressMode x) (initialized x) (state x) (oldState x) (hasPressFunc x) v (lastDebounceTime x).
Definition set_lastDebounceTime (v : _) (x : Button) : Button :=
  Build_Button (pin x) (pressMode x) (initialized x) (state x) (oldState x) (hasPressFunc x) (hasReleaseFunc x) v.

(** [reading] is the level [digitalRead(pin)] returns after [pinMode]. *)
Definition init (newPin newMode : Z) (reading : Z) (b : Button) : outcome Button :=
  if initialized b then
    Continue b ["WARNING: Button already initialized. Ignoring."%string]
  else
    let b := set_pressMode newMode (set_pin newPin b) in
    let b := set_state reading b in
    let b := set_oldState (state b) b in
    Continue (set_initialized true b) [].

Definition onPress (b : Button) : Button := set_hasPressFunc true b.
Definition onRelease (b : Button) : Button := set_hasReleaseFunc true b.

Section Debounce.
Variable DEBOUNCE_DELAY : Z.

(** [reading] is the level [digitalRead(pin)] returns; [t_check] and
    [t_stamp] are the two readings of [millis()], in the test and in the
    assignment to [lastDebounceTime]. *)
Definition checkForPress (reading t_check t_stamp : Z) (b : Button)
  : Button * list event :=
  let b := set_state reading b in
  if negb (state b =? oldState b) then
    if DEBOUNCE_DELAY <=? elapsed t_check (lastDebounceTime b) then
      let b := set_oldState (state b) b in
      let b := set_lastDebounceTime t_stamp b in
      let isPressed :=
        if pressMode b =? BUTTON_PRESS_HIGH then state b =? HIGH
        else state b =? LOW in
      if isPressed && hasPressFunc b then (b, [Pressed])
      else if negb isPressed && hasReleaseFunc b then (b, [Released])
      else (b, [])
    else (b, [])
  else (b, []).

Definition update (reading t_check t_stamp : Z) (b : Button) : Button * list event :=
  checkForPress reading t_check t_stamp b.

(** One poll: the raw level and the two clock readings. *)
Record sample : Type := Build_sample {
  raw : Z;
  t_check : Z;
  t_stamp : Z
}.

Definition poll (p : sample) (b : Button) : Button :=
  fst (update (raw p) (t_check p) (t_stamp p) b).

(** The poll changes the committed level. *)
Definition commits (p : sample) (b : Button) : bool :=
  negb (oldState (poll p b) =? oldState b).

Definition run (ps : list sample) (b : Button) : Button :=
  fold_left (fun b p => poll p b) ps b.

End Debounce.

End Button.

(** ** Interval scheduler *)

Module Interval.

Section Scheduler.

(** The functions a [byteParamCallback] may point to; [None] is [nullptr]. *)
Context {callback : Type}.

(** Slot [i] packs the entries [i] of the six arrays of the class. *)
Record slot : Type := Build_slot {
  callbacks : option callback;
  counts : Z;
  waits : Z;
  lastRuns : Z;
  msgs : Z;
  paused : bool
}.

Definition set_callbacks (v : _) (x : slot) : slot :=
  Build_slot v (counts x) (waits x) (lastRuns x) (msgs x) (paused x).
Definition set_counts (v : _) (x : slot) : slot :=
  Build_slot (callbacks x) v (waits x) (lastRuns x) (msgs x) (paused x).
Definition set_waits (v : _) (x : slot) : slot :=
  Build_slot (callbacks x) (counts x) v (lastRuns x) (msgs x) (paused x).
Definition set_lastRuns (v : _) (x : slot) : slot :=
  Build_slot (callbacks x) (counts x) (waits x) v (msgs x) (paused x).
Definition set_msgs (v : _) (x : slot) : slot :=
  Build_slot (callbacks x) (counts x) (waits x) (lastRuns x) v (paused x).
Definition set_paused (v : _) (x : slot) : slot :=
  Build_slot (callbacks x) (counts x) (waits x) (lastRuns x) (msgs x) v.

(** A callback that was invoked: the slot, the function and its argument. *)
Definition call : Type := nat * callback * Z.

Definition no_slot : nat := Z.to_nat INVALID_HANDLE.

(** The constructor writes [counts] and [paused] only. *)
Definition construct (memory : list slot) : list slot :=
  map (fun s => set_paused false (set_counts (-1) s)) memory.

Fixpoint findSlot_from (i : nat) (t : list slot) : nat :=
  match t with
  | [] => no_slot
  | s :: rest => if counts s =? -1 then i else findSlot_from (S i) rest
  end.

(** [TOTAL_INTERVALS] is the length of the table. *)
Definition findSlot (t : list slot) : nat := findSlot_from 0 t.

Definition add (f : option callback) (wait count msg : Z) (now : Z) (t : list slot)
  : outcome (nat * list slot) :=
  let slot := findSlot t in
  if (length t <=? slot)%nat then
    Halted ["FATAL ERROR: All interval slots used. Increase TOTAL_INTERVALS. Halting."%string]
  else
    Continue (slot, <[slot := Build_slot f count wait now msg false]> t) [].

(** What [clear] writes into a slot. *)
Definition cleared : slot := Build_slot None (-1) 0 0 0 false.

Definition clear (index : nat) (t : list slot) : list slot :=
  if (index <? length t)%nat then <[index := cleared]> t
  else t.

Definition is_active (index : nat) (t : list slot) : bool :=
  match t !! index with
  | Some s => 0 <=? counts s
  | None => false
  end.

Definition setMessage (index : nat) (msg : Z) (t : list slot) : list slot :=
  if (length t <=? index)%nat then t
  else if is_active index t then alter (set_msgs msg) index t else t.

Definition pause (index : nat) (t : list slot) : list slot :=
  if (length t <=? index)%nat then t
  else if is_active index t then alter (set_paused true) index t else t.

Definition resume (index : nat) (now : Z) (t : list slot) : list slot :=
  if (length t <=? index)%nat then t
  else if is_active index t
       then alter (fun s => set_lastRuns now (set_paused false s)) index t
       else t.

(** What running a callback with its argument does to the table: a
    callback may call [add], [clear], [pause] and [resume] itself. *)
Variable run : callback -> Z -> list slot -> list slot.

(** The callback of slot [j] changes slot [j] by [effect j] and nothing else
    in the table. *)
Definition behaves (effect : nat -> slot -> slot) (j : nat) (s : slot) : Prop :=
  forall g t', callbacks s = Some g -> run g (msgs s) t' = alter (effect j) j t'.

(** The count of a slot after a run: [counts[i]--] and the test for 0. *)
Definition countdown (s : slot) : slot :=
  if (0 <? counts s) && bool_decide (callbacks s <> None) then
    let s := set_counts (counts s - 1) s in
    if counts s =? 0 then set_counts (-1) s else s
  else s.

(** The body of the loop of [update] for slot [i]; [t_check] and [t_stamp]
    are the readings of [millis()] in the test and after the callback. *)
Definition service (i : nat) (t_check t_stamp : Z) (st : list slot * list call)
  : list slot * list call :=
  let '(t, log) := st in
  match t !! i with
  | None => st
  | Some s =>
      match callbacks s with
      | Some localCallback =>
          if (0 <=? counts s) && negb (paused s) then
            if waits s <=? elapsed t_check (lastRuns s) then
              let localMsg := msgs s in
              let t := run localCallback localMsg t in
              let t := alter (set_lastRuns t_stamp) i t in
              let t := alter countdown i t in
              (t, log ++ [(i, localCallback, localMsg)])
            else st
          else st
      | None => st
      end
  end.

(** The readings of [millis()] while slot [i] is served. *)
Definition clock : Type := nat -> Z * Z.

Definition scan (c : clock) (indices : list nat) (st : list slot * list call)
  : list slot * list call :=
  fold_left (fun st i => service i (fst (c i)) (snd (c i)) st) indices st.

Definition update (c : clock) (t : list slot) : list slot * list call :=
  scan c (seq 0 (length t)) (t, []).

(** A sequence of polls; the calls of all polls are collected. *)
Definition updates (cs : list clock) (t : list slot) : list slot * list call :=
  fold_left (fun st c => let '(t', log') := update c (fst st) in (t', snd st ++ log'))
    cs (t, []).

(** The calls made for slot [i]. *)
Definition calls_of (i : nat) (log : list call) : list call :=
  List.filter (fun c => Nat.eqb (fst (fst c)) i) log.

(** Slot [s] is served at the reading [t_check]: the test of [update]. *)
Definition due (t_check : Z) (s : slot) : bool :=
  (0 <=? counts s) && negb (paused s) && bool_decide (callbacks s <> None)
  && (waits s <=? elapsed t_check (lastRuns s)).

(** The slot after the body of the loop, when the callback changes its own
    slot by [effect] and no other slot: the stamp and the count-down come
    after the callback. *)
Definition served_by (effect : slot -> slot) (t_check t_stamp : Z) (s : slot) : slot :=
  if due t_check s then countdown (set_lastRuns t_stamp (effect s)) else s.

(** A served slot whose callback leaves the table alone. *)
Definition served (t_check t_stamp : Z) (s : slot) : slot :=
  served_by (fun s => s) t_check t_stamp s.

(** The call made for slot [i] at the reading [t_check]. *)
Definition call_of (i : nat) (t_check : Z) (s : slot) : list call :=
  if due t_check s then
    match callbacks s with
    | Some f => [(i, f, msgs s)]
    | None => []
    end
  else [].

(** [k] is the lowest index of a slot whose count is -1. *)
Definition lowest_free (t : list slot) (k : nat) : Prop :=
  (exists s, t !! k = Some s /\ counts s = -1)
  /\ forall j s, (j < k)%nat -> t !! j = Some s -> counts s <> -1.

End Scheduler.

Arguments slot callback : clear implicits.
Arguments call callback : clear implicits.
Arguments cleared {callback}.

End Interval.

(** ** LED *)

Module LED.

(** The calls of the output primitives. *)
Inductive write : Type :=
| AnalogWrite (pin value : Z)
| DigitalWrite (pin value : Z).

Record LED : Type := Build_LED {
  pin : Z;
  pinG : Z;
  pinB : Z;
  R : Z;
  G : Z;
  B : Z;
  isRGB : bool;
  isDimmable : bool;
  commonAnode : bool;
  initialized : bool;
  state : Z;
  level : Z;
  blinkCount : Z;
  blinkMax : Z;
  lastBlinkTime : Z;
  blinkDelay : Z;
  blinking : bool;
  pulseCount : Z;
  pulseMax : Z;
  pulseLow : Z;
  pulseHigh : Z;
  pulseDuration : Z;
  pulseUp : bool;
  lastPulseTime : Z;
  pulsing : bool;
  writes : list write
}.

Definition fresh : LED :=
  Build_LED 0 0 0 0 0 0 false false true false LOW 255
    0 0 0 0 false 0 0 0 255 0 true 0 false [].

Definition set_isDimmable (v : _) (x : LED) : LED :=
  Build_LED (pin x) (pinG x) (pinB x) (R x) (G x) (B x) (isRGB x) v (commonAnode x) (initialized x) (state x) (level x) (blinkCount x) (blinkMax x) (lastBlinkTime x) (blinkDelay x) (blinking x) (pulseCount x) (pulseMax x) (pulseLow x) (pulseHigh x) (pulseDuration x) (pulseUp x) (lastPulseTime x) (pulsing x) (writes x).
Definition set_state (v : _) (x : LED) : LED :=
  Build_LED (pin x) (pinG x) (pinB x) (R x) (G x) (B x) (isRGB x) (isDimmable x) (commonAnode x) (initialized x) v (level x) (blinkCount x) (blinkMax x) (lastBlinkTime x) (blinkDelay x) (blinking x) (pulseCount x) (pulseMax x) (pulseLow x) (pulseHigh x) (pulseDuration x) (pulseUp x) (lastPulseTime x) (pulsing x) (writes x).
Definition set_level (v : _) (x : LED) : LED :=
  Build_LED (pin x) (pinG x) (pinB x) (R x) (G x) (B x) (isRGB x) (isDimmable x) (commonAnode x) (initialized x) (state x) v (blinkCount x) (blinkMax x) (lastBlinkTime x) (blinkDelay x) (blinking x) (pulseCount x) (pulseMax x) (pulseLow x) (pulseHigh x) (pulseDuration x) (pulseUp x) (lastPulseTime x) (pulsing x) (writes x).
Definition set_blinkCount (v : _) (x : LED) : LED :=
  Build_LED (pin x) (pinG x) (pinB x) (R x) (G x) (B x) (isRGB x) (isDimmable x) (commonAnode x) (initialized x) (state x) (level x) v (blinkMax x) (lastBlinkTime x) (blinkDelay x) (blinking x) (pulseCount x) (pulseMax x) (pulseLow x) (pulseHigh x) (pulseDuration x) (pulseUp x) (lastPulseTime x) (pulsing x) (writes x).
Definition set_blinkMax (v : _) (x : LED) : LED :=
  Build_LED (pin x) (pinG x) (pinB x) (R x) (G x) (B x) (isRGB x) (isDimmable x) (commonAnode x) (initialized x) (state x) (level x) (blinkCount x) v (lastBlinkTime x) (blinkDelay x) (blinking x) (pulseCount x) (pulseMax x) (pulseLow x) (pulseHigh x) (pulseDuration x) (pulseUp x) (lastPulseTime x) (pulsing x) (writes x).
Definition set_lastBlinkTime (v : _) (x : LED) : LED :=
  Build_LED (pin x) (pinG x) (pinB x) (R x) (G x) (B x) (isRGB x) (isDimmable x) (commonAnode x) (initialized x) (state x) (level x) (blinkCount x) (blinkMax x) v (blinkDelay x) (blinking x) (pulseCount x) (pulseMax x) (pulseLow x) (pulseHigh x) (pulseDuration x) (pulseUp x) (lastPulseTime x) (pulsing x) (writes x).
Definition set_blinkDelay (v : _) (x : LED) : LED :=
  Build_LED (pin x) (pinG x) (pinB x) (R x) (G x) (B x) (isRGB x) (isDimmable x) (commonAnode x) (initialized x) (state x) (level x) (blinkCount x) (blinkMax x) (lastBlinkTime x) v (blinking x) (pulseCount x) (pulseMax x) (pulseLow x) (pulseHigh x) (pulseDuration x) (pulseUp x) (lastPulseTime x) (pulsing x) (writes x).
Definition set_blinking (v : _) (x : LED) : LED :=
  Build_LED (pin x) (pinG x) (pinB x) (R x) (G x) (B x) (isRGB x) (isDimmable x) (commonAnode x) (initialized x) (state x) (level x) (blinkCount x) (blinkMax x) (lastBlinkTime x) (blinkDelay x) v (pulseCount x) (pulseMax x) (pulseLow x) (pulseHigh x) (pulseDuration x) (pulseUp x) (lastPulseTime x) (pulsing x) (writes x).
Definition set_pulseCount (v : _) (x : LED) : LED :=
  Build_LED (pin x) (pinG x) (pinB x) (R x) (G x) (B x) (isRGB x) (isDimmable x) (commonAnode x) (initialized x) (state x) (level x) (blinkCount x) (blinkMax x) (lastBlinkTime x) (blinkDelay x) (blinking x) v (pulseMax x) (pulseLow x) (pulseHigh x) (pulseDuration x) (pulseUp x) (lastPulseTime x) (pulsing x) (writes x).
Definition set_pulseMax (v : _) (x : LED) : LED :=
  Build_LED (pin x) (pinG x) (pinB x) (R x) (G x) (B x) (isRGB x) (isDimmable x) (commonAnode x) (initialized x) (state x) (level x) (blinkCount x) (blinkMax x) (lastBlinkTime x) (blinkDelay x) (blinking x) (pulseCount x) v (pulseLow x) (pulseHigh x) (pulseDuration x) (pulseUp x) (lastPulseTime x) (pulsing x) (writes x).
Definition set_pulseLow (v : _) (x : LED) : LED :=
  Build_LED (pin x) (pinG x) (pinB x) (R x) (G x) (B x) (isRGB x) (isDimmable x) (commonAnode x) (initialized x) (state x) (level x) (blinkCount x) (blinkMax x) (lastBlinkTime x) (blinkDelay x) (blinking x) (pulseCount x) (pulseMax x) v (pulseHigh x) (pulseDuration x) (pulseUp x) (lastPulseTime x) (pulsing x) (writes x).
Definition set_pulseHigh (v : _) (x : LED) : LED :=
  Build_LED (pin x) (pinG x) (pinB x) (R x) (G x) (B x) (isRGB x) (isDimmable x) (commonAnode x) (initialized x) (state x) (level x) (blinkCount x) (blinkMax x) (lastBlinkTime x) (blinkDelay x) (blinking x) (pulseCount x) (pulseMax x) (pulseLow x) v (pulseDuration x) (pulseUp x) (lastPulseTime x) (pulsing x) (writes x).
Definition set_pulseDuration (v : _) (x : LED) : LED :=
  Build_LED (pin x) (pinG x) (pinB x) (R x) (G x) (B x) (isRGB x) (isDimmable x) (commonAnode x) (initialized x) (state x) (level x) (blinkCount x) (blinkMax x) (lastBlinkTime x) (blinkDelay x) (blinking x) (pulseCount x) (pulseMax x) (pulseLow x) (pulseHigh x) v (pulseUp x) (lastPulseTime x) (pulsing x) (writes x).
Definition set_pulseUp (v : _) (x : LED) : LED :=
  Build_LED (pin x) (pinG x) (pinB x) (R x) (G x) (B x) (isRGB x) (isDimmable x) (commonAnode x) (initialized x) (state x) (level x) (blinkCount x) (blinkMax x) (lastBlinkTime x) (blinkDelay x) (blinking x) (pulseCount x) (pulseMax x) (pulseLow x) (pulseHigh x) (pulseDuration x) v (lastPulseTime x) (pulsing x) (writes x).
Definition set_lastPulseTime (v : _) (x : LED) : LED :=
  Build_LED (pin x) (pinG x) (pinB x) (R x) (G x) (B x) (isRGB x) (isDimmable x) (commonAnode x) (initialized x) (state x) (level x) (blinkCount x) (blinkMax x) (lastBlinkTime x) (blinkDelay x) (blinking x) (pulseCount x) (pulseMax x) (pulseLow x) (pulseHigh x) (pulseDuration x) (pulseUp x) v (pulsing x) (writes x).
Definition set_pulsing (v : _) (x : LED) : LED :=
  Build_LED (pin x) (pinG x) (pinB x) (R x) (G x) (B x) (isRGB x) (isDimmable x) (commonAnode x) (initialized x) (state x) (level x) (blinkCount x) (blinkMax x) (lastBlinkTime x) (blinkDelay x) (blinking x) (pulseCount x) (pulseMax x) (pulseLow x) (pulseHigh x) (pulseDuration x) (pulseUp x) (lastPulseTime x) v (writes x).
Definition set_writes (v : _) (x : LED) : LED :=
  Build_LED (pin x) (pinG x) (pinB x) (R x) (G x) (B x) (isRGB x) (isDimmable x) (commonAnode x) (initialized x) (state x) (level x) (blinkCount x) (blinkMax x) (lastBlinkTime x) (blinkDelay x) (blinking x) (pulseCount x) (pulseMax x) (pulseLow x) (pulseHigh x) (pulseDuration x) (pulseUp x) (lastPulseTime x) (pulsing x) v.

Definition emit (ws : list write) (l : LED) : LED := set_writes (writes l ++ ws) l.

Definition setState (newState : Z) (l : LED) : LED :=
  let l := set_state newState l in
  if isRGB l then
    if state l =? LOW then
      let val := if commonAnode l then 255 else 0 in
      emit [AnalogWrite (pin l) val; AnalogWrite (pinG l) val; AnalogWrite (pinB l) val] l
    else
      emit [AnalogWrite (pin l) (R l); AnalogWrite (pinG l) (G l); AnalogWrite (pinB l) (B l)] l
  else if isDimmable l then
    emit [AnalogWrite (pin l) (if state l =? HIGH then level l else LOW)] l
  else
    emit [DigitalWrite (pin l) (state l)] l.

Definition clearPulse (l : LED) : LED :=
  set_pulsing false
    (set_pulseUp true
       (set_pulseDuration 0
          (set_pulseHigh 0 (set_pulseLow 0 (set_pulseMax 0 (set_pulseCount 0 l)))))).

Definition clearBlink (l : LED) : LED :=
  set_blinking false
    (set_blinkDelay 0 (set_lastBlinkTime 0 (set_blinkMax 0 (set_blinkCount 0 l)))).

Definition turnOn (l : LED) : LED := setState HIGH l.

Definition turnOff (l : LED) : LED := setState LOW (clearPulse (clearBlink l)).

Definition flip (l : LED) : LED :=
  if state l =? HIGH then setState LOW l else setState HIGH l.

Definition setLevel (newLevel : Z) (l : LED) : LED :=
  let l := set_level newLevel (set_isDimmable true l) in
  if state l =? HIGH then setState HIGH l else l.

(** Assignment to the members that the set-up functions write. *)
Definition set_pin (v : _) (x : LED) : LED :=
  Build_LED v (pinG x) (pinB x) (R x) (G x) (B x) (isRGB x) (isDimmable x) (commonAnode x) (initialized x) (state x) (level x) (blinkCount x) (blinkMax x) (lastBlinkTime x) (blinkDelay x) (blinking x) (pulseCount x) (pulseMax x) (pulseLow x) (pulseHigh x) (pulseDuration x) (pulseUp x) (lastPulseTime x) (pulsing x) (writes x).
Definition set_pinG (v : _) (x : LED) : LED :=
  Build_LED (pin x) v (pinB x) (R x) (G x) (B x) (isRGB x) (isDimmable x) (commonAnode x) (initialized x) (state x) (level x) (blinkCount x) (blinkMax x) (lastBlinkTime x) (blinkDelay x) (blinking x) (pulseCount x) (pulseMax x) (pulseLow x) (pulseHigh x) (pulseDuration x) (pulseUp x) (lastPulseTime x) (pulsing x) (writes x).
Definition set_pinB (v : _) (x : LED) : LED :=
  Build_LED (pin x) (pinG x) v (R x) (G x) (B x) (isRGB x) (isDimmable x) (commonAnode x) (initialized x) (state x) (level x) (blinkCount x) (blinkMax x) (lastBlinkTime x) (blinkDelay x) (blinking x) (pulseCount x) (pulseMax x) (pulseLow x) (pulseHigh x) (pulseDuration x) (pulseUp x) (lastPulseTime x) (pulsing x) (writes x).
Definition set_R (v : _) (x : LED) : LED :=
  Build_LED (pin x) (pinG x) (pinB x) v (G x) (B x) (isRGB x) (isDimmable x) (commonAnode x) (initialized x) (state x) (level x) (blinkCount x) (blinkMax x) (lastBlinkTime x) (blinkDelay x) (blinking x) (pulseCount x) (pulseMax x) (pulseLow x) (pulseHigh x) (pulseDuration x) (pulseUp x) (lastPulseTime x) (pulsing x) (writes x).
Definition set_G (v : _) (x : LED) : LED :=
  Build_LED (pin x) (pinG x) (pinB x) (R x) v (B x) (isRGB x) (isDimmable x) (commonAnode x) (initialized x) (state x) (level x) (blinkCount x) (blinkMax x) (lastBlinkTime x) (blinkDelay x) (blinking x) (pulseCount x) (pulseMax x) (pulseLow x) (pulseHigh x) (pulseDuration x) (pulseUp x) (lastPulseTime x) (pulsing x) (writes x).
Definition set_B (v : _) (x : LED) : LED :=
  Build_LED (pin x) (pinG x) (pinB x) (R x) (G x) v (isRGB x) (isDimmable x) (commonAnode x) (initialized x) (state x) (level x) (blinkCount x) (blinkMax x) (lastBlinkTime x) (blinkDelay x) (blinking x) (pulseCount x) (pulseMax x) (pulseLow x) (pulseHigh x) (pulseDuration x) (pulseUp x) (lastPulseTime x) (pulsing x) (writes x).
Definition set_isRGB (v : _) (x : LED) : LED :=
  Build_LED (pin x) (pinG x) (pinB x) (R x) (G x) (B x) v (isDimmable x) (commonAnode x) (initialized x) (state x) (level x) (blinkCount x) (blinkMax x) (lastBlinkTime x) (blinkDelay x) (blinking x) (pulseCount x) (pulseMax x) (pulseLow x) (pulseHigh x) (pulseDuration x) (pulseUp x) (lastPulseTime x) (pulsing x) (writes x).
Definition set_commonAnode (v : _) (x : LED) : LED :=
  Build_LED (pin x) (pinG x) (pinB x) (R x) (G x) (B x) (isRGB x) (isDimmable x) v (initialized x) (state x) (level x) (blinkCount x) (blinkMax x) (lastBlinkTime x) (blinkDelay x) (blinking x) (pulseCount x) (pulseMax x) (pulseLow x) (pulseHigh x) (pulseDuration x) (pulseUp x) (lastPulseTime x) (pulsing x) (writes x).
Definition set_initialized (v : _) (x : LED) : LED :=
  Build_LED (pin x) (pinG x) (pinB x) (R x) (G x) (B x) (isRGB x) (isDimmable x) (commonAnode x) v (state x) (level x) (blinkCount x) (blinkMax x) (lastBlinkTime x) (blinkDelay x) (blinking x) (pulseCount x) (pulseMax x) (pulseLow x) (pulseHigh x) (pulseDuration x) (pulseUp x) (lastPulseTime x) (pulsing x) (writes x).

(** [init(byte newPin)]: a plain LED. *)
Definition init (newPin : Z) (l : LED) : outcome LED :=
  if initialized l then
    Continue l ["WARNING: LED already initialized. Ignoring."%string]
  else
    let l := set_pin newPin l in
    let l := setState LOW l in
    Continue (set_initialized true l) [].

(** [init(byte newPinR, byte newPinG, byte newPinB)]: an RGB LED. *)
Definition init_rgb (newPinR newPinG newPinB : Z) (l : LED) : outcome LED :=
  if initialized l then
    Continue l ["WARNING: LED already initialized. Ignoring."%string]
  else
    let l := set_pin newPinR l in
    let l := set_pinG newPinG l in
    let l := set_pinB newPinB l in
    let l := set_isRGB true l in
    let l := setState LOW l in
    Continue (set_initialized true l) [].

Definition setColor (newR newG newB : Z) (l : LED) : LED :=
  let l :=
    if commonAnode l
    then set_B (to_byte (255 - newB)) (set_G (to_byte (255 - newG))
           (set_R (to_byte (255 - newR)) l))
    else set_B newB (set_G newG (set_R newR l)) in
  if state l =? HIGH then setState HIGH l else l.

Definition setCommonAnode (isCommonAnode : bool) (l : LED) : LED :=
  set_commonAnode isCommonAnode l.

Section Engine.

(** The number of bits of [unsigned int]. *)
Variable UINT_BITS : Z.

Definition to_uint (x : Z) : Z := wrap UINT_BITS x.
Arguments to_uint : simpl never.

Definition initPulse (pDelay count low high : Z) (now : Z) (l : LED) : LED :=
  let l := clearPulse (clearBlink l) in
  let l := set_pulseMax count (set_pulseHigh high (set_pulseLow low l)) in
  let safePDelay := if pDelay <? 2 then 2 else pDelay in
  let l := set_pulseDuration (safePDelay / 2) l in
  let l := set_pulsing true (set_lastPulseTime now l) in
  setState HIGH (setLevel (pulseLow l) l).

Definition initFade (duration start end_ : Z) (now : Z) (l : LED) : LED :=
  let l := clearPulse (clearBlink l) in
  let l := set_pulseMax 0 (set_pulseHigh end_ (set_pulseLow start l)) in
  let l := set_pulseDuration (if duration <? 1 then 1 else duration) l in
  let l := set_pulsing true (set_lastPulseTime now l) in
  let l := set_pulseUp (start <? end_) l in
  setState HIGH (setLevel start l).

(** The test that closes [runPulse]: "we've pulsed enough". *)
Definition pulsedEnough (l : LED) : LED :=
  if (pulseMax l <=? pulseCount l) && (0 <? pulseMax l)
  then setState LOW (clearPulse l) else l.

(** [t_start] is the reading of [millis()] that opens the function,
    [t_stamp] the one assigned to [lastPulseTime]. *)
Definition runPulse (t_start t_stamp : Z) (l : LED) : LED :=
  if pulsing l then
    let elapsed := elapsed t_start (lastPulseTime l) in
    if pulseUp l then
      if pulseDuration l <=? elapsed then
        let l := setState HIGH (set_level (pulseHigh l) l) in
        if pulseMax l =? 0 then clearPulse l
        else pulsedEnough (set_lastPulseTime t_stamp (set_pulseUp false l))
      else
        let range := to_uint (pulseHigh l - pulseLow l) in
        let desiredLevel :=
          to_byte (pulseLow l + to_ulong (range * elapsed) / pulseDuration l) in
        pulsedEnough
          (if negb (level l =? desiredLevel)
           then setState HIGH (set_level desiredLevel l) else l)
    else
      if pulseDuration l <=? elapsed then
        if pulseMax l =? 0 then
          setState LOW (clearPulse (setState HIGH (set_level (pulseLow l) l)))
        else
          pulsedEnough
            (set_pulseCount (to_uint (pulseCount l + 1))
               (set_pulseUp true (set_lastPulseTime t_stamp l)))
      else
        let range := to_uint (pulseHigh l - pulseLow l) in
        let desiredLevel :=
          to_byte (pulseHigh l - to_ulong (range * elapsed) / pulseDuration l) in
        pulsedEnough
          (if negb (level l =? desiredLevel)
           then setState HIGH (set_level desiredLevel l) else l)
  else l.

Definition initBlink (bDelay count : Z) (now : Z) (l : LED) : LED :=
  let l := clearPulse l in
  let l := set_blinkCount 0 l in
  let l :=
    if 0 <? count then
      set_blinkMax (if state l =? HIGH then to_uint (count * 2 - 1)
                    else to_uint (count * 2)) l
    else set_blinkMax 0 l in
  let safeBDelay := if bDelay <? 1 then 1 else bDelay in
  let l := set_blinkDelay (safeBDelay / 2) l in
  set_blinking true (set_lastBlinkTime now l).

(** [t_check] is the reading of [millis()] in the test, [t_stamp] the one
    assigned to [lastBlinkTime]. *)
Definition runBlink (t_check t_stamp : Z) (l : LED) : LED :=
  if blinking l then
    if blinkDelay l <=? elapsed t_check (lastBlinkTime l) then
      let l := set_lastBlinkTime t_stamp l in
      let l := set_blinkCount (to_uint (blinkCount l + 1)) l in
      let l := flip l in
      if (blinkMax l <=? blinkCount l) && (0 <? blinkMax l)
      then set_blinking false (turnOff l) else l
    else l
  else l.

Definition pulse (pDelay count low high : Z) (now : Z) (l : LED) : LED :=
  initPulse pDelay count low high now l.

Definition fadeIn (duration targetLevel : Z) (now : Z) (l : LED) : LED :=
  initFade duration 0 targetLevel now l.

Definition fadeOut (duration : Z) (now : Z) (l : LED) : LED :=
  if state l =? LOW then l
  else
    let startLevel := if isDimmable l && (0 <? level l) then level l else 255 in
    initFade duration startLevel 0 now l.

Definition blink (delay count : Z) (now : Z) (l : LED) : LED :=
  initBlink delay count now l.

(** The four readings of [millis()] of one poll. *)
Record ticks : Type := Build_ticks {
  blink_check : Z;
  blink_stamp : Z;
  pulse_start : Z;
  pulse_stamp : Z
}.

Definition update (k : ticks) (l : LED) : LED :=
  runPulse (pulse_start k) (pulse_stamp k)
    (runBlink (blink_check k) (blink_stamp k) l).

Definition run (ks : list ticks) (l : LED) : LED :=
  fold_left (fun l k => update k l) ks l.

(** The polls of [ks] after which the output state differs from the state
    before the poll. *)
Fixpoint toggles (ks : list ticks) (l : LED) : nat :=
  match ks with
  | [] => 0%nat
  | k :: rest =>
      let l' := update k l in
      if state l' =? state l then toggles rest l' else S (toggles rest l')
  end.

End Engine.

End LED.

(** ** Notions used by the statements *)

(** [m] is the multiple of [q] nearest to [x], the one farther from zero
    when [x] is half-way between two multiples. *)
Definition rounds_half_away (q x m : Z) : Prop :=
  (exists k, m = k * q) /\
  2 * Z.abs (x - m) <= q /\
  (2 * Z.abs (x - m) = q -> Z.abs x < Z.abs m).

(** The quotient of [a] by [q], for [0 < q], rounded to the nearest
    integer, half away from zero, in exact arithmetic. *)
Definition round_half_away_div (a q : Z) : Z :=
  if 0 <=? a then Z.quot (2 * a + q) (2 * q) else Z.quot (2 * a - q) (2 * q).

(** [v] is the value of the range from [lo] to [hi] nearest to [m]. *)
Definition nearest_in_range (lo hi m v : Z) : Prop :=
  lo <= v <= hi /\ forall w, lo <= w <= hi -> Z.abs (m - v) <= Z.abs (m - w).

Definition in_zone (z : AnalogSensor.Zone) (v : Z) : Prop :=
  AnalogSensor.min_val z <= v <= AnalogSensor.max_val z.

(** [zid] is the id of the first zone of [zones], in definition order, whose
    inclusive range contains [v], or the sentinel when there is none. *)
Definition first_match (zones : list AnalogSensor.Zone) (v zid : Z) : Prop :=
  (exists i z, zones !! i = Some z /\ in_zone z v /\ zid = AnalogSensor.id z /\
     forall j zj, (j < i)%nat -> zones !! j = Some zj -> ~ in_zone zj v)
  \/ ((forall j zj, zones !! j = Some zj -> ~ in_zone zj v) /\ zid = INVALID_HANDLE).

(** The events of a sequence of polls of a sensor. *)
Fixpoint sensor_events (board : Board) (raws : list Z)
  (s : AnalogSensor.AnalogSensor) : list AnalogSensor.event :=
  match raws with
  | [] => []
  | r :: rest =>
      snd (AnalogSensor.update board r s)
      ++ sensor_events board rest (fst (AnalogSensor.update board r s))
  end.

(** Every poll of the sequence leaves the reported value at [v]. *)
Fixpoint steady (board : Board) (v : Z) (raws : list Z)
  (s : AnalogSensor.AnalogSensor) : Prop :=
  match raws with
  | [] => True
  | r :: rest =>
      AnalogSensor.currentReportedValue (fst (AnalogSensor.update board r s)) = v
      /\ steady board v rest (fst (AnalogSensor.update board r s))
  end.

(** The zone state of a sensor is in step with its reported value. *)
Definition zone_settled (s : AnalogSensor.AnalogSensor) : Prop :=
  AnalogSensor.hasInitialRead s = true /\ AnalogSensor.defined_zones s <> []
  /\ AnalogSensor.previousZoneID s
     = AnalogSensor.findZoneForValue s (AnalogSensor.currentReportedValue s).

(** No poll of the sequence changes the committed level of the button. *)
Fixpoint quiet (D : Z) (ps : list Button.sample) (b : Button.Button) : Prop :=
  match ps with
  | [] => True
  | p :: rest => Button.commits D p b = false /\ quiet D rest (Button.poll D p b)
  end.

(** The polls [ks] are at least [d] apart: the reading [check] of each is
    [d] or more after the reading [stamp] of the one before, and the first
    is [d] or more after [last]. *)
Fixpoint paced (check stamp : LED.ticks -> Z) (d last : Z) (ks : list LED.ticks) : Prop :=
  match ks with
  | [] => True
  | k :: rest => d <= elapsed (check k) last /\ paced check stamp d (stamp k) rest
  end.

(** Where a blink of [need] toggles stands after [c] of them; [p0] tells
    whether the output was on when the blink was started. *)
Definition blink_progress (p0 : bool) (need : Z) (l : LED.LED) (c : Z) : Prop :=
  LED.pulsing l = false
  /\ if LED.blinking l
     then LED.blinkMax l = need /\ LED.blinkCount l = c /\ 0 <= c < need
          /\ (LED.state l =? HIGH) = xorb p0 (Z.odd c)
     else c = need /\ LED.state l = LOW.

(** The writes that switch an LED off. *)
Definition off_writes (l : LED.LED) : list LED.write :=
  if LED.isRGB l then
    let val := if LED.commonAnode l then 255 else 0 in
    [LED.AnalogWrite (LED.pin l) val; LED.AnalogWrite (LED.pinG l) val;
     LED.AnalogWrite (LED.pinB l) val]
  else if LED.isDimmable l then [LED.AnalogWrite (LED.pin l) LOW]
  else [LED.DigitalWrite (LED.pin l) LOW].

(** The writes that switch an LED on at its level. *)
Definition on_writes (l : LED.LED) : list LED.write :=
  if LED.isRGB l then
    [LED.AnalogWrite (LED.pin l) (LED.R l); LED.AnalogWrite (LED.pinG l) (LED.G l);
     LED.AnalogWrite (LED.pinB l) (LED.B l)]
  else if LED.isDimmable l then [LED.AnalogWrite (LED.pin l) (LED.level l)]
  else [LED.DigitalWrite (LED.pin l) HIGH].

(** The legs a pulse of [N] cycles still has to run: two for each cycle
    left, one less on the falling leg; one rising leg when [N = 0]. *)
Definition legs_left (N : Z) (l : LED.LED) : Z :=
  if LED.pulsing l then
    if 0 <? N
    then 2 * (N - LED.pulseCount l) - (if LED.pulseUp l then 0 else 1)
    else 1
  else 0.

(** Where a pulse of [N] cycles up to [high] stands, while it runs and after
    it has stopped; with [N = 0] the pulse is one rising ramp. *)
Definition pulse_progress (N high : Z) (l : LED.LED) : Prop :=
  LED.blinking l = false
  /\ if LED.pulsing l
     then LED.pulseMax l = N /\ LED.pulseHigh l = high /\ LED.state l = HIGH
          /\ (if 0 <? N then 0 <= LED.pulseCount l < N else LED.pulseUp l = true)
     else if 0 <? N
          then LED.state l = LOW
               /\ exists ws, LED.writes l = ws ++ off_writes l
          else LED.state l = HIGH /\ LED.level l = high
               /\ exists ws, LED.writes l = ws ++ on_writes l.

(** ** Concrete instances *)

(** A sensor mapped to 0..100 and quantized by 5 with hysteresis 1, with
    two zones and both callbacks, after its initial read of 0 on an AVR
    board. *)
Definition percent_sensor : AnalogSensor.AnalogSensor :=
  AnalogSensor.performInitialRead avr 0
    (AnalogSensor.onZoneChange
       (AnalogSensor.onChange
          (AnalogSensor.addZone 8 2 51 100
             (AnalogSensor.addZone 8 1 0 50
                (AnalogSensor.quantize 5 1
                   (AnalogSensor.outputRange 0 100 AnalogSensor.fresh)))))).

(** A sensor of a board with a 32-bit [int], with the output range
    24999000..25000023, quantized by 3 without hysteresis, with a change
    callback, after its initial read of 0. *)
Definition wide_sensor : AnalogSensor.AnalogSensor :=
  AnalogSensor.performInitialRead arm32 0
    (AnalogSensor.onChange
       (AnalogSensor.quantize 3 0
          (AnalogSensor.outputRange 24999000 25000023 AnalogSensor.fresh))).

(** A sensor and a button after their first [init]. *)
Definition initialized_sensor : AnalogSensor.AnalogSensor :=
  AnalogSensor.set_initialized true (AnalogSensor.set_pin 14 AnalogSensor.fresh).

Definition initialized_button : Button.Button :=
  Button.set_initialized true (Button.set_pin 2 Button.fresh).

(** Two callbacks for the scheduler: one stops the timer of a slot, the
    other leaves the table alone. *)
Inductive demo_callback : Type :=
| StopTimer (index : nat)
| Beep.

Definition demo_run (f : demo_callback) (msg : Z)
  (t : list (Interval.slot demo_callback)) : list (Interval.slot demo_callback) :=
  match f with
  | StopTimer index => Interval.clear index t
  | Beep => t
  end.

(** Three timers: an endless one, one that stops itself, one with two runs
    left. *)
Definition demo_table : list (Interval.slot demo_callback) :=
  [ Interval.Build_slot (Some Beep) 0 100 0 7 false;
    Interval.Build_slot (Some (StopTimer 1)) 5 50 0 1 false;
    Interval.Build_slot (Some Beep) 2 10 0 9 false ].

(** A table with slots 0 and 2 in use and slot 1 free. *)
Definition sparse_table : list (Interval.slot demo_callback) :=
  [ Interval.Build_slot (Some Beep) 0 100 0 7 false;
    Interval.cleared;
    Interval.Build_slot (Some Beep) 2 10 0 9 false ].

(** Every reading of [millis()] of a poll is [now]. *)
Definition at_time (now : Z) : Interval.clock := fun _ => (now, now).

(** A plain LED on pin 9, off, and the same LED on. *)
Definition led_off : LED.LED :=
  LED.Build_LED 9 0 0 0 0 0 false false true true LOW 255
    0 0 0 0 false 0 0 0 255 0 true 0 false [LED.DigitalWrite 9 LOW].

Definition led_on : LED.LED := LED.turnOn led_off.

(** Every reading of [millis()] of a poll of an LED is [now]. *)
Definition tick_at (now : Z) : LED.ticks := LED.Build_ticks now now now now.

(** ** Rotary encoder *)

Module RotaryEncoder.

(** The callbacks an encoder invokes: those of its push button, inherited
    from [Button], and the two of the rotation. *)
Inductive event : Type :=
| Switch (e : Button.event)
| Clockwise
| CounterClockwise.

(** [class RotaryEncoder : public Button]: [base] is the [Button] part. *)
Record RotaryEncoder : Type := Build_RotaryEncoder {
  base : Button.Button;
  DT : Z;
  CLK : Z;
  currentStateCLK : Z;
  lastStateCLK : Z;
  lastRotationTime : Z;
  hasCWFunc : bool;
  hasCCWFunc : bool
}.

(** The members without an initializer are taken as 0. *)
Definition fresh : RotaryEncoder :=
  Build_RotaryEncoder Button.fresh 0 0 0 0 0 false false.

Definition set_base (v : _) (x : RotaryEncoder) : RotaryEncoder :=
  Build_RotaryEncoder v (DT x) (CLK x) (currentStateCLK x) (lastStateCLK x) (lastRotationTime x) (hasCWFunc x) (hasCCWFunc x).
Definition set_DT (v : _) (x : RotaryEncoder) : RotaryEncoder :=
  Build_RotaryEncoder (base x) v (CLK x) (currentStateCLK x) (lastStateCLK x) (lastRotationTime x) (hasCWFunc x) (hasCCWFunc x).
Definition set_CLK (v : _) (x : RotaryEncoder) : RotaryEncoder :=
  Build_RotaryEncoder (base x) (DT x) v (currentStateCLK x) (lastStateCLK x) (lastRotationTime x) (hasCWFunc x) (hasCCWFunc x).
Definition set_currentStateCLK (v : _) (x : RotaryEncoder) : RotaryEncoder :=
  Build_RotaryEncoder (base x) (DT x) (CLK x) v (lastStateCLK x) (lastRotationTime x) (hasCWFunc x) (hasCCWFunc x).
Definition set_lastStateCLK (v : _) (x : RotaryEncoder) : RotaryEncoder :=
  Build_RotaryEncoder (base x) (DT x) (CLK x) (currentStateCLK x) v (lastRotationTime x) (hasCWFunc x) (hasCCWFunc x).
Definition set_lastRotationTime (v : _) (x : RotaryEncoder) : RotaryEncoder :=
  Build_RotaryEncoder (base x) (DT x) (CLK x) (currentStateCLK x) (lastStateCLK x) v (hasCWFunc x) (hasCCWFunc x).
Definition set_hasCWFunc (v : _) (x : RotaryEncoder) : RotaryEncoder :=
  Build_RotaryEncoder (base x) (DT x) (CLK x) (currentStateCLK x) (lastStateCLK x) (lastRotationTime x) v (hasCCWFunc x).
Definition set_hasCCWFunc (v : _) (x : RotaryEncoder) : RotaryEncoder :=
  Build_RotaryEncoder (base x) (DT x) (CLK x) (currentStateCLK x) (lastStateCLK x) (lastRotationTime x) (hasCWFunc x) v.

(** [reading_sw] and [reading_clk] are the levels [digitalRead(pin)] and
    [digitalRead(CLK)] return. *)
Definition init (swPin dtPin clkPin : Z) (reading_sw reading_clk : Z)
  (e : RotaryEncoder) : outcome RotaryEncoder :=
  if Button.initialized (base e) then
    Continue e ["WARNING: RotaryEncoder already initialized. Ignoring."%string]
  else
    let e := set_base (Button.set_pin swPin (base e)) e in
    let e := set_CLK clkPin (set_DT dtPin e) in
    let e := set_base (Button.set_state reading_sw (base e)) e in
    let e := set_base (Button.set_oldState (Button.state (base e)) (base e)) e in
    let e := set_lastStateCLK reading_clk e in
    Continue (set_base (Button.set_initialized true (base e)) e) [].

Definition onClockwise (e : RotaryEncoder) : RotaryEncoder := set_hasCWFunc true e.
Definition onCounterClockwise (e : RotaryEncoder) : RotaryEncoder :=
  set_hasCCWFunc true e.

(** What one poll reads: the sample of the push button, the levels of [CLK]
    and [DT], and the two readings of [millis()] of the rotation test. *)
Record reading : Type := Build_reading {
  sw : Button.sample;
  clk : Z;
  dt : Z;
  rot_check : Z;
  rot_stamp : Z
}.

Section Rotation.
Variable DEBOUNCE_DELAY : Z.
Variable ENCODER_DEBOUNCE_DELAY : Z.

(** The rotation part of [update], after [currentStateCLK] is read. *)
Definition rotate (p : reading) (e : RotaryEncoder) : RotaryEncoder * list event :=
  if negb (currentStateCLK e =? lastStateCLK e) && (currentStateCLK e =? 1) then
    if ENCODER_DEBOUNCE_DELAY <=? elapsed (rot_check p) (lastRotationTime e) then
      let e := set_lastRotationTime (rot_stamp p) e in
      if negb (dt p =? currentStateCLK e) then
        (e, if hasCCWFunc e then [CounterClockwise] else [])
      else
        (e, if hasCWFunc e then [Clockwise] else [])
    else (e, [])
  else (e, []).

Definition update (p : reading) (e : RotaryEncoder) : RotaryEncoder * list event :=
  let '(b, ev1) :=
    Button.checkForPress DEBOUNCE_DELAY
      (Button.raw (sw p)) (Button.t_check (sw p)) (Button.t_stamp (sw p)) (base e) in
  let e := set_base b e in
  let e := set_currentStateCLK (clk p) e in
  let '(e, ev2) := rotate p e in
  (set_lastStateCLK (currentStateCLK e) e, map Switch ev1 ++ ev2).

(** An encoder over a sequence of polls, and the callbacks it invokes. *)
Fixpoint run (ps : list reading) (e : RotaryEncoder) : RotaryEncoder * list event :=
  match ps with
  | [] => (e, [])
  | p :: rest =>
      let '(e1, ev1) := update p e in
      let '(e2, ev2) := run rest e1 in
      (e2, ev1 ++ ev2)
  end.

End Rotation.

End RotaryEncoder.

(** ** Device *)

Module Device.

(** *** The arrays of peripherals

    [Device] keeps one array and one counter for each kind of peripheral,
    with the same three functions for each; [registry] is one such pair.
    The capacity ([TOTAL_LEDS], [TOTAL_BUTTONS], ...) is the length of the
    array. *)
Section Registry.
Context {A : Type}.

Record registry : Type := Build_registry {
  items : list A;
  totalSetup : Z
}.

(** [newLED], [newButton], [newAnalogSensor], [newRotaryEncoder]: the guard,
    [init] on the next element, [return totalSetup++] on a [byte]. The last
    branch is not reached: past the guard the index is inside the array. *)
Definition new_item (fatal : string) (initialise : A -> outcome A) (r : registry)
  : outcome (Z * registry) :=
  if Z.of_nat (length (items r)) <=? totalSetup r then Halted [fatal]
  else
    match items r !! Z.to_nat (totalSetup r) with
    | Some x =>
        match initialise x with
        | Continue x' serial =>
            Continue (totalSetup r,
                      Build_registry (<[Z.to_nat (totalSetup r) := x']> (items r))
                        (to_byte (totalSetup r + 1))) serial
        | Halted serial => Halted serial
        end
    | None => Halted []
    end.

(** [led], [button], [analogSensor], [rotaryEncoder]: the element a handle
    refers to. *)
Definition item (fatal : string) (handle : Z) (r : registry) : outcome A :=
  if (totalSetup r <=? handle) || (handle =? INVALID_HANDLE) then Halted [fatal]
  else
    match items r !! Z.to_nat handle with
    | Some x => Continue x []
    | None => Halted []
    end.

End Registry.

Arguments registry A : clear implicits.

Definition newLED (pin : Z) : registry LED.LED -> outcome (Z * registry LED.LED) :=
  new_item "FATAL ERROR: Too many LEDs. Increase TOTAL_LEDS. Halting." (LED.init pin).

Definition newLED_rgb (pinR pinG pinB : Z)
  : registry LED.LED -> outcome (Z * registry LED.LED) :=
  new_item "FATAL ERROR: Too many LEDs. Increase TOTAL_LEDS. Halting."
    (LED.init_rgb pinR pinG pinB).

Definition led : Z -> registry LED.LED -> outcome LED.LED :=
  item "FATAL ERROR: Invalid LED handle. Halting.".

Definition newButton (pin mode : Z) (reading : Z)
  : registry Button.Button -> outcome (Z * registry Button.Button) :=
  new_item "FATAL ERROR: Too many buttons. Increase TOTAL_BUTTONS. Halting."
    (Button.init pin mode reading).

Definition button : Z -> registry Button.Button -> outcome Button.Button :=
  item "FATAL ERROR: Invalid button handle. Halting.".

Definition newAnalogSensor (pin : Z)
  : registry AnalogSensor.AnalogSensor
    -> outcome (Z * registry AnalogSensor.AnalogSensor) :=
  new_item
    "FATAL ERROR: Too many analog sensors. Increase TOTAL_ANALOG_SENSORS. Halting."
    (AnalogSensor.init pin).

Definition analogSensor
  : Z -> registry AnalogSensor.AnalogSensor -> outcome AnalogSensor.AnalogSensor :=
  item "FATAL ERROR: Invalid analog sensor handle. Halting.".

Definition newRotaryEncoder (swPin dtPin clkPin : Z) (reading_sw reading_clk : Z)
  : registry RotaryEncoder.RotaryEncoder
    -> outcome (Z * registry RotaryEncoder.RotaryEncoder) :=
  new_item
    "FATAL ERROR: Too many rotary encoders. Increase TOTAL_ROTARY_ENCODERS. Halting."
    (RotaryEncoder.init swPin dtPin clkPin reading_sw reading_clk).

Definition rotaryEncoder
  : Z -> registry RotaryEncoder.RotaryEncoder -> outcome RotaryEncoder.RotaryEncoder :=
  item "FATAL ERROR: Invalid rotary encoder handle. Halting.".

(** *** Timers

    An [IntervalHandle] is the index of the slot; its member functions go
    through the device to the table. *)
Section Timers.
Context {callback : Type}.
Implicit Types (t : list (Interval.slot callback)).

(** The conversion of an [unsigned int] argument to the [int] parameter
    [count] of [Interval::add]: the value modulo [2^UINT_BITS] in the range
    of [int], as the compilers of the Arduino cores define it. *)
Definition to_int (UINT_BITS : Z) (x : Z) : Z :=
  if x <? 2 ^ (UINT_BITS - 1) then x else x - 2 ^ UINT_BITS.

Definition after (delayMs : Z) (f : option callback) (now : Z) t
  : outcome (nat * list (Interval.slot callback)) :=
  Interval.add f delayMs 1 0 now t.

Definition every (delayMs : Z) (f : option callback) (now : Z) t
  : outcome (nat * list (Interval.slot callback)) :=
  Interval.add f delayMs 0 0 now t.

Definition repeat (UINT_BITS : Z) (delayMs count : Z) (f : option callback) (now : Z) t
  : outcome (nat * list (Interval.slot callback)) :=
  Interval.add f delayMs (to_int UINT_BITS count) 0 now t.

Definition _setIntervalMessage (index : nat) (msg : Z) t := Interval.setMessage index msg t.
Definition _clearInterval (index : nat) t := Interval.clear index t.
Definition _pauseInterval (index : nat) t := Interval.pause index t.
Definition _resumeInterval (index : nat) (now : Z) t := Interval.resume index now t.

Definition withMessage (index : nat) (msg : Z) t := _setIntervalMessage index msg t.
Definition stop (index : nat) t := _clearInterval index t.
Definition pause (index : nat) t := _pauseInterval index t.
Definition resume (index : nat) (now : Z) t := _resumeInterval index now t.

End Timers.

End Device.

(** ** Further notions *)

(** Slot [k] after the polls [cs], when the callbacks leave the table alone,
    and the calls that are made for it. *)
Fixpoint slot_after {callback : Type} (k : nat) (cs : list Interval.clock)
  (s : Interval.slot callback) : Interval.slot callback :=
  match cs with
  | [] => s
  | c :: rest =>
      slot_after k rest (Interval.served (fst (c k)) (snd (c k)) s)
  end.

Fixpoint slot_calls {callback : Type} (k : nat) (cs : list Interval.clock)
  (s : Interval.slot callback) : list (Interval.call callback) :=
  match cs with
  | [] => []
  | c :: rest =>
      Interval.call_of k (fst (c k)) s
      ++ slot_calls k rest (Interval.served (fst (c k)) (snd (c k)) s)
  end.

(** The polls [cs] serve slot [k] at least [d] apart: each reading of the
    test is [d] or more after the stamp of the poll before, the first [d] or
    more after [last]. *)
Fixpoint clock_paced (k : nat) (d last : Z) (cs : list Interval.clock) : Prop :=
  match cs with
  | [] => True
  | c :: rest => d <= elapsed (fst (c k)) last /\ clock_paced k d (snd (c k)) rest
  end.

(** A sensor over a sequence of polls. *)
Definition sensor_run (board : Board) (raws : list Z)
  (s : AnalogSensor.AnalogSensor) : AnalogSensor.AnalogSensor :=
  fold_left (fun s r => fst (AnalogSensor.update board r s)) raws s.

(** The configuration of a sensor: the members that polls do not write. *)
Definition same_config (s s' : AnalogSensor.AnalogSensor) : Prop :=
  AnalogSensor.inputMin s' = AnalogSensor.inputMin s
  /\ AnalogSensor.inputMax s' = AnalogSensor.inputMax s
  /\ AnalogSensor.outputMin s' = AnalogSensor.outputMin s
  /\ AnalogSensor.outputMax s' = AnalogSensor.outputMax s
  /\ AnalogSensor.inverted s' = AnalogSensor.inverted s
  /\ AnalogSensor.quantizeStep s' = AnalogSensor.quantizeStep s
  /\ AnalogSensor.hysteresis_amount s' = AnalogSensor.hysteresis_amount s
  /\ AnalogSensor.delta s' = AnalogSensor.delta s
  /\ AnalogSensor.avgSamples s' = AnalogSensor.avgSamples s
  /\ AnalogSensor.defined_zones s' = AnalogSensor.defined_zones s
  /\ AnalogSensor.hasChangeFunc s' = AnalogSensor.hasChangeFunc s
  /\ AnalogSensor.hasZoneChangeFunc s' = AnalogSensor.hasZoneChangeFunc s.

(** A call of [addZone]: the id and the two bounds. *)
Definition zone_request : Type := Z * Z * Z.

Definition add_zones (MAX_ZONES_PER_SENSOR : Z) (reqs : list zone_request)
  (s : AnalogSensor.AnalogSensor) : AnalogSensor.AnalogSensor :=
  fold_left
    (fun s '(zid, lo, hi) => AnalogSensor.addZone MAX_ZONES_PER_SENSOR zid lo hi s)
    reqs s.

(** The requests that [addZone] does not refuse for their bounds. *)
Definition well_formed_requests (reqs : list zone_request) : list AnalogSensor.Zone :=
  flat_map (fun '(zid, lo, hi) =>
              if hi <? lo then [] else [AnalogSensor.Build_Zone zid lo hi]) reqs.

(** The sensor at the mode selection of a poll: the sample is taken in and
    the hi-res value is computed from the mean of the window. *)
Definition measured (board : Board) (rawValue : Z)
  (s : AnalogSensor.AnalogSensor) : AnalogSensor.AnalogSensor :=
  let s1 := AnalogSensor.accumulate rawValue s in
  AnalogSensor.set_hiResValue
    (AnalogSensor.computeHiRes board
       (AnalogSensor.accumulatedSum s1 / AnalogSensor.avgSamples s1) s1) s1.

(** The steps from 1 to [n], and the integers from [lo] to [hi]. *)
Definition steps_to (n : nat) : list Z := map (fun k => Z.of_nat k + 1) (seq 0 n).

Definition integers (lo hi : Z) : list Z :=
  map (fun k => lo + Z.of_nat k) (seq 0 (Z.to_nat (hi - lo + 1))).

(** On the board, for every value from [lo] to [hi] and every step up to
    [n], the quantized value of the code is the exact rounding of the
    quotient times the step. *)
Definition quantized_exact (board : Board) (lo hi : Z) (n : nat) : bool :=
  forallb (fun q =>
    forallb (fun a =>
      AnalogSensor.quantized board a q =? round_half_away_div a q * q)
      (integers lo hi))
    (steps_to n).

(** The value is one of [int]. *)
Definition fits_int (board : Board) (v : Z) : Prop :=
  - 2 ^ (INT_BITS board - 1) <= v < 2 ^ (INT_BITS board - 1).

(** The two ranges of the sensor are values of [int], and [map] stays
    within [long] on them: the two spans and their product, the largest
    product that [map] forms, are below [2^31]. *)
Definition ranges_fit (board : Board) (s : AnalogSensor.AnalogSensor) : Prop :=
  fits_int board (AnalogSensor.inputMin s)
  /\ fits_int board (AnalogSensor.inputMax s)
  /\ fits_int board (AnalogSensor.outputMin s)
  /\ fits_int board (AnalogSensor.outputMax s)
  /\ AnalogSensor.inputMax s - AnalogSensor.inputMin s < 2 ^ 31
  /\ AnalogSensor.outputMax s - AnalogSensor.outputMin s < 2 ^ 31
  /\ (AnalogSensor.inputMax s - AnalogSensor.inputMin s)
     * (AnalogSensor.outputMax s - AnalogSensor.outputMin s) < 2 ^ 31.

(** The value is within the output range of the sensor. *)
Definition in_output_range (s : AnalogSensor.AnalogSensor) (v : Z) : Prop :=
  AnalogSensor.outputMin s <= v <= AnalogSensor.outputMax s.

(** A reading small enough for the sum of a full window (at most 255
    samples) to fit the 32-bit accumulator. *)
Definition reading_fits (r : Z) : Prop := 0 <= r < 2 ^ 24.

Definition sum_of (raws : list Z) : Z := fold_right Z.add 0 raws.

(** The callbacks a button invokes over a sequence of polls. *)
Fixpoint button_events (DEBOUNCE_DELAY : Z) (ps : list Button.sample)
  (b : Button.Button) : list Button.event :=
  match ps with
  | [] => []
  | p :: rest =>
      snd (Button.update DEBOUNCE_DELAY
             (Button.raw p) (Button.t_check p) (Button.t_stamp p) b)
      ++ button_events DEBOUNCE_DELAY rest (Button.poll DEBOUNCE_DELAY p b)
  end.

(** A level that [digitalRead] returns. *)
Definition is_level (v : Z) : Prop := v = LOW \/ v = HIGH.

(** The level at which the button counts as pressed. *)
Definition pressed_level (b : Button.Button) : Z :=
  if Button.pressMode b =? BUTTON_PRESS_HIGH then HIGH else LOW.

Definition opposite (e : Button.event) : Button.event :=
  match e with
  | Button.Pressed => Button.Released
  | Button.Released => Button.Pressed
  end.

(** The events alternate, starting with [next]. *)
Fixpoint alternates (next : Button.event) (evs : list Button.event) : Prop :=
  match evs with
  | [] => True
  | e :: rest => e = next /\ alternates (opposite next) rest
  end.

(** The rotation callbacks and the push-button callbacks among the events
    of an encoder. *)
Definition rotations (evs : list RotaryEncoder.event) : list RotaryEncoder.event :=
  List.filter (fun e => match e with RotaryEncoder.Switch _ => false | _ => true end) evs.

Definition switch_events (evs : list RotaryEncoder.event) : list Button.event :=
  flat_map (fun e => match e with RotaryEncoder.Switch b => [b] | _ => [] end) evs.

(** The polls at which [CLK] reads 1 after another level: [last] is the
    level before the first poll. *)
Fixpoint rising_edges (last : Z) (clks : list Z) : nat :=
  match clks with
  | [] => 0%nat
  | c :: rest =>
      if negb (c =? last) && (c =? 1) then S (rising_edges c rest)
      else rising_edges c rest
  end.

(** A call of a public member function of an LED; the calls that read
    [millis()] carry the reading. *)
Inductive command : Type :=
| TurnOn
| TurnOff
| Flip
| SetLevel (newLevel : Z)
| SetColor (newR newG newB : Z)
| SetCommonAnode (isCommonAnode : bool)
| Pulse (pDelay count low high now : Z)
| FadeIn (duration targetLevel now : Z)
| FadeOut (duration now : Z)
| Blink (delay count now : Z)
| Update (k : LED.ticks).

Definition perform (UINT_BITS : Z) (c : command) (l : LED.LED) : LED.LED :=
  match c with
  | TurnOn => LED.turnOn l
  | TurnOff => LED.turnOff l
  | Flip => LED.flip l
  | SetLevel newLevel => LED.setLevel newLevel l
  | SetColor newR newG newB => LED.setColor newR newG newB l
  | SetCommonAnode isCommonAnode => LED.setCommonAnode isCommonAnode l
  | Pulse pDelay count low high now => LED.pulse pDelay count low high now l
  | FadeIn duration targetLevel now => LED.fadeIn duration targetLevel now l
  | FadeOut duration now => LED.fadeOut duration now l
  | Blink delay count now => LED.blink UINT_BITS delay count now l
  | Update k => LED.update UINT_BITS k l
  end.

Definition perform_all (UINT_BITS : Z) (cs : list command) (l : LED.LED) : LED.LED :=
  fold_left (fun l c => perform UINT_BITS c l) cs l.

(** At most one of the two animations is running. *)
Definition one_animation (l : LED.LED) : Prop :=
  LED.blinking l && LED.pulsing l = false.

(** The polls of [ks] come before the reading [last] is [d] old. *)
Definition early (check : LED.ticks -> Z) (d last : Z) (ks : list LED.ticks) : Prop :=
  Forall (fun k => elapsed (check k) last < d) ks.

(** A one-way fade from [low] to [high] (upward when [up]) that was started
    at the reading [now] and lasts [D] milliseconds is running. *)
Definition fading (up : bool) (low high D now : Z) (l : LED.LED) : Prop :=
  LED.blinking l = false /\ LED.pulsing l = true /\ LED.pulseUp l = up
  /\ LED.pulseMax l = 0 /\ LED.pulseLow l = low /\ LED.pulseHigh l = high
  /\ LED.pulseDuration l = D /\ LED.lastPulseTime l = now
  /\ LED.state l = HIGH /\ LED.isDimmable l = true.

(** The level is between the two ends of the pulse, which are those of the
    running pulse, if any. *)
Definition in_band (low high D : Z) (l : LED.LED) : Prop :=
  LED.blinking l = false /\ low <= LED.level l <= high
  /\ (LED.pulsing l = true ->
      LED.pulseLow l = low /\ LED.pulseHigh l = high /\ LED.pulseDuration l = D).

(** ** Further instances *)

(** Callbacks that leave the table of timers alone. *)
Definition quiet_run (f : demo_callback) (msg : Z)
  (t : list (Interval.slot demo_callback)) : list (Interval.slot demo_callback) := t.

(** Callbacks that chain timers: [Restart index delayMs now] stops the
    timer of slot [index] and starts a one-shot timer for [Ring] with
    [after], which reads [now] from [millis()]; [Ring] leaves the table
    alone. [after] halts on a full table, which [stop] on a slot of the
    table excludes. *)
Inductive chained_callback : Type :=
| Restart (index : nat) (delayMs now : Z)
| Ring.

Definition chained_run (f : chained_callback) (msg : Z)
  (t : list (Interval.slot chained_callback)) : list (Interval.slot chained_callback) :=
  match f with
  | Restart index delayMs now =>
      match Device.after delayMs (Some Ring) now (Device.stop index t) with
      | Continue (_, t') _ => t'
      | Halted _ => t
      end
  | Ring => t
  end.

(** A table of two timers after the constructor, and the table after
    [every(100, restart)] at the time 0, where [restart] stops the timer it
    belongs to, in slot 0, and calls [after(50, ring)] at the time 100. *)
Definition chained_table : list (Interval.slot chained_callback) :=
  Interval.construct [Interval.cleared; Interval.cleared].

Definition restarting_table : list (Interval.slot chained_callback) :=
  match Device.every 100 (Some (Restart 0 50 100)) 0 chained_table with
  | Continue (_, t) _ => t
  | Halted _ => chained_table
  end.

(** A sensor in raw mode with a change threshold of 5 and an output range
    of 0..255, after its initial read of 512. *)
Definition threshold_sensor : AnalogSensor.AnalogSensor :=
  AnalogSensor.performInitialRead avr 512
    (AnalogSensor.changeThreshold 5
       (AnalogSensor.outputRange 0 255 (AnalogSensor.onChange AnalogSensor.fresh))).

(** A sensor that smooths over four samples, after its initial read. *)
Definition smoothed_sensor : AnalogSensor.AnalogSensor :=
  AnalogSensor.performInitialRead avr 100
    (AnalogSensor.smoothing 4 AnalogSensor.fresh).

(** A quantized sensor with smoothing and a change callback, before its
    first poll. *)
Definition unread_sensor : AnalogSensor.AnalogSensor :=
  AnalogSensor.smoothing 4
    (AnalogSensor.quantize 5 1
       (AnalogSensor.outputRange 0 100 (AnalogSensor.onChange AnalogSensor.fresh))).

(** A button with both callbacks. *)
Definition listening_button : Button.Button :=
  Button.onRelease (Button.onPress initialized_button).

(** An encoder with both rotation callbacks. *)
Definition listening_encoder : RotaryEncoder.RotaryEncoder :=
  RotaryEncoder.onClockwise (RotaryEncoder.onCounterClockwise RotaryEncoder.fresh).

(** A common-anode RGB LED on pins 9, 10 and 11, off. *)
Definition rgb_led : LED.LED :=
  LED.Build_LED 9 10 11 0 0 0 true false true true LOW 255
    0 0 0 0 false 0 0 0 255 0 true 0 false [].

(** Two buttons of a device, the first one set up. *)
Definition two_buttons : Device.registry Button.Button :=
  Device.Build_registry [listening_button; Button.fresh] 1.

(** A hypothesis at a concrete input holds by evaluation. *)
Ltac by_evaluation :=
  first [ reflexivity | lia | (simpl; lia)
        | (vm_compute; first [ reflexivity | lia | (intros; discriminate) ])
        | (split; by_evaluation) ].
(** * Proofs *)

(** ** Integer types *)

Lemma to_signed_fits (bits x : Z) :
  1 <= bits -> - 2 ^ (bits - 1) <= x < 2 ^ (bits - 1) -> to_signed bits x = x.
Proof.
  intros Hb Hx. unfold to_signed, wrap.
  assert (E : 2 ^ bits = 2 * 2 ^ (bits - 1)).
  { replace bits with (Z.succ (bits - 1)) at 1 by lia. apply Z.pow_succ_r. lia. }
  destruct (Z_lt_le_dec x 0) as [Hneg | Hpos].
  - assert (Em : x mod 2 ^ bits = x + 2 ^ bits).
    { symmetry. apply (Z.mod_unique_pos _ _ (-1)); lia. }
    rewrite Em. destruct (Z.ltb_spec (x + 2 ^ bits) (2 ^ (bits - 1))); lia.
  - rewrite Z.mod_small by lia.
    destruct (Z.ltb_spec x (2 ^ (bits - 1))); lia.
Qed.

Lemma to_long_fits (x : Z) : - 2 ^ 31 <= x < 2 ^ 31 -> to_long x = x.
Proof. intros H. unfold to_long. apply to_signed_fits; [lia | exact H]. Qed.

Lemma fits_int_long (board : Board) (v : Z) :
  1 <= INT_BITS board <= 32 -> fits_int board v -> - 2 ^ 31 <= v < 2 ^ 31.
Proof.
  intros Hb Hv. unfold fits_int in Hv.
  assert (2 ^ (INT_BITS board - 1) <= 2 ^ 31) by (apply Z.pow_le_mono_r; lia).
  lia.
Qed.

(** ** Rounding *)

Lemma round_half_away_div_nonneg (a q : Z) :
  0 <= a -> 0 < q ->
  let k := round_half_away_div a q in
  2 * k * q - q <= 2 * a < 2 * k * q + q /\ 0 <= k.
Proof.
  intros Ha Hq k. subst k. unfold round_half_away_div.
  destruct (Z.leb_spec 0 a); [|lia].
  rewrite Z.quot_div_nonneg by lia.
  pose proof (Z.div_mod (2 * a + q) (2 * q) ltac:(lia)) as E.
  pose proof (Z.mod_pos_bound (2 * a + q) (2 * q) ltac:(lia)) as B.
  assert (0 <= (2 * a + q) / (2 * q)) by (apply Z.div_pos; lia).
  split; [|lia]. nia.
Qed.

Lemma round_half_away_div_neg (a q : Z) :
  a < 0 -> 0 < q ->
  let k := round_half_away_div a q in
  2 * k * q - q < 2 * a <= 2 * k * q + q /\ k <= 0.
Proof.
  intros Ha Hq k. subst k. unfold round_half_away_div.
  destruct (Z.leb_spec 0 a); [lia|].
  replace (2 * a - q) with (- (q - 2 * a)) by lia.
  rewrite Z.quot_opp_l by lia.
  rewrite Z.quot_div_nonneg by lia.
  pose proof (Z.div_mod (q - 2 * a) (2 * q) ltac:(lia)) as E.
  pose proof (Z.mod_pos_bound (q - 2 * a) (2 * q) ltac:(lia)) as B.
  assert (0 <= (q - 2 * a) / (2 * q)) by (apply Z.div_pos; lia).
  split; [|lia]. nia.
Qed.

(** The exact rounding gives the nearest multiple, half away from zero. *)
Lemma round_half_away_div_half_away (a q : Z) :
  0 < q -> rounds_half_away q a (round_half_away_div a q * q).
Proof.
  intros Hq. split; [eauto|].
  destruct (Z_lt_le_dec a 0) as [Ha|Ha].
  - destruct (round_half_away_div_neg a q Ha Hq) as [B K].
    set (k := round_half_away_div a q) in *. split; [lia|]. intros T. nia.
  - destruct (round_half_away_div_nonneg a q Ha Hq) as [B K].
    set (k := round_half_away_div a q) in *. split; [lia|]. intros T. nia.
Qed.


(** ** Analog sensor *)

Section AnalogProofs.
Import AnalogSensor.

Variable board : Board.

Local Abbreviation computeHiRes := (AnalogSensor.computeHiRes board).
Local Abbreviation V_potential := (AnalogSensor.V_potential board).
Local Abbreviation stabilize := (AnalogSensor.stabilize board).
Local Abbreviation commit := (AnalogSensor.commit board).
Local Abbreviation update := (AnalogSensor.update board).
Local Abbreviation sensor_events := (sensor_events board).
Local Abbreviation steady := (steady board).

(** The sensor at the mode selection of a poll that completes a window. *)
Lemma update_completing (rawValue : Z) (s : AnalogSensor) :
  hasInitialRead s = true -> completes_window rawValue s = true ->
  exists s2,
    update rawValue s =
      (set_avgCount 0 (set_accumulatedSum 0 (fst (classify (fst (commit s2))))),
       snd (commit s2) ++ snd (classify (fst (commit s2))))
    /\ outputMin s2 = outputMin s /\ outputMax s2 = outputMax s
    /\ quantizeStep s2 = quantizeStep s /\ hysteresis_amount s2 = hysteresis_amount s
    /\ currentReportedValue s2 = currentReportedValue s
    /\ hasChangeFunc s2 = hasChangeFunc s
    /\ defined_zones s2 = defined_zones s /\ previousZoneID s2 = previousZoneID s
    /\ hasZoneChangeFunc s2 = hasZoneChangeFunc s
    /\ hasInitialRead s2 = true.
Proof.
  intros Hi Hw. unfold update, completes_window in *. rewrite Hi, Hw. simpl.
  set (s1 := accumulate rawValue s).
  exists (set_hiResValue (computeHiRes (accumulatedSum s1 / avgSamples s1) s1) s1).
  split.
  - destruct (commit _) as [s3 ev1]. simpl. destruct (classify s3) as [s4 ev2].
    reflexivity.
  - subst s1. unfold accumulate, average.
    destruct (1 <? avgSamples s); simpl; repeat split; assumption.
Qed.

Lemma commit_frame (s : AnalogSensor) :
  hiResValue (fst (commit s)) = hiResValue s
  /\ defined_zones (fst (commit s)) = defined_zones s
  /\ previousZoneID (fst (commit s)) = previousZoneID s
  /\ hasZoneChangeFunc (fst (commit s)) = hasZoneChangeFunc s
  /\ hasInitialRead (fst (commit s)) = hasInitialRead s
  /\ zone_changes (snd (commit s)) = [].
Proof.
  unfold commit. destruct (stabilize s) as [v []]; simpl.
  - destruct (hasChangeFunc s); simpl; tauto.
  - tauto.
Qed.

Lemma classify_frame (s : AnalogSensor) :
  hiResValue (fst (classify s)) = hiResValue s
  /\ currentReportedValue (fst (classify s)) = currentReportedValue s
  /\ defined_zones (fst (classify s)) = defined_zones s
  /\ hasInitialRead (fst (classify s)) = hasInitialRead s
  /\ changes (snd (classify s)) = [].
Proof.
  unfold classify. destruct (0 <? zone_count s); simpl; [|tauto].
  destruct (findZoneForValue s (currentReportedValue s) =? previousZoneID s); simpl.
  - tauto.
  - destruct (hasZoneChangeFunc s); simpl; tauto.
Qed.

(** The quantized-hysteresis branch of the mode selection. *)
Lemma commit_quantized (s : AnalogSensor) :
  0 < quantizeStep s ->
  let V := V_potential s in
  let cur := currentReportedValue s in
  let up := cur + Z.quot (quantizeStep s) 2 + hysteresis_amount s in
  let down := cur - Z.quot (quantizeStep s) 2 - hysteresis_amount s in
  let go := ((cur <? V) && (up <=? hiResValue s))
            || ((V <? cur) && (hiResValue s <=? down)) in
  currentReportedValue (fst (commit s)) = (if go then V else cur)
  /\ changes (snd (commit s))
     = (if go then if hasChangeFunc s then [V] else [] else []).
Proof.
  intros HQ V cur up down go. subst go up down cur V.
  unfold commit, stabilize.
  destruct (Z.ltb_spec 0 (quantizeStep s)); [|lia].
  set (V := V_potential s). set (cur := currentReportedValue s).
  destruct (Z.eqb_spec V cur) as [E|E]; simpl.
  - rewrite E, Z.ltb_irrefl. simpl. auto.
  - destruct (Z.ltb_spec cur V); simpl.
    + destruct (Z.ltb_spec V cur); [lia|].
      destruct (_ <=? hiResValue s); simpl; [|auto].
      destruct (hasChangeFunc s); simpl; auto.
    + destruct (Z.ltb_spec V cur); [|lia]. simpl.
      destruct (hiResValue s <=? _); simpl; [|auto].
      destruct (hasChangeFunc s); simpl; auto.
Qed.

(** ** Zones *)

Lemma in_zone_test (z : Zone) (v : Z) :
  (min_val z <=? v) && (v <=? max_val z) = true <-> in_zone z v.
Proof.
  unfold in_zone.
  destruct (Z.leb_spec (min_val z) v); destruct (Z.leb_spec v (max_val z));
    simpl; split; intros; try lia; try discriminate; reflexivity.
Qed.

Lemma findZoneForValue_first_match (zones : list Zone) (v : Z) :
  first_match zones v (findZoneForValue_in zones v).
Proof.
  induction zones as [|z zones IH]; simpl.
  - right. split; [|reflexivity]. intros j zj Hj. discriminate.
  - destruct ((min_val z <=? v) && (v <=? max_val z)) eqn:T.
    + apply in_zone_test in T.
      left. exists 0%nat, z.
      split; [reflexivity|]. split; [exact T|]. split; [reflexivity|].
      intros j zj Hlt. lia.
    + assert (Hout : ~ in_zone z v).
      { intros Hin. apply in_zone_test in Hin. congruence. }
      destruct IH as [(i & zi & Hi & Hin & Hid & Hfirst) | [Hnone Hid]].
      * left. exists (S i), zi.
        split; [exact Hi|]. split; [exact Hin|]. split; [exact Hid|].
        intros [|j] zj Hlt Hj.
        -- cbn in Hj. injection Hj as <-. exact Hout.
        -- cbn in Hj. apply (Hfirst j zj); [lia | exact Hj].
      * right. split; [|exact Hid].
        intros [|j] zj Hj.
        -- cbn in Hj. injection Hj as <-. exact Hout.
        -- cbn in Hj. apply (Hnone j zj Hj).
Qed.

Lemma classify_zones (s : AnalogSensor) :
  defined_zones s <> [] ->
  let z := findZoneForValue s (currentReportedValue s) in
  currentZoneID (fst (classify s)) = z
  /\ previousZoneID (fst (classify s)) = z
  /\ zone_changes (snd (classify s)) =
     (if z =? previousZoneID s then []
      else if hasZoneChangeFunc s then [z] else []).
Proof.
  intros Hz z. unfold classify, zone_count.
  destruct (defined_zones s) as [|z0 zs] eqn:E; [congruence|].
  change (0 <? Z.of_nat (length (z0 :: zs))) with true. cbv iota.
  fold z. simpl.
  destruct (Z.eqb_spec z (previousZoneID s)) as [Ez|Ez]; simpl.
  - auto.
  - destruct (hasZoneChangeFunc s); simpl; auto.
Qed.

Lemma update_not_completing (rawValue : Z) (s : AnalogSensor) :
  hasInitialRead s = true -> completes_window rawValue s = false ->
  update rawValue s = (accumulate rawValue s, []).
Proof.
  intros Hi Hw. unfold update, completes_window in *. rewrite Hi. simpl.
  rewrite Hw. reflexivity.
Qed.

Lemma update_zone_settled (rawValue : Z) (s : AnalogSensor) :
  hasInitialRead s = true -> completes_window rawValue s = true ->
  defined_zones s <> [] ->
  zone_settled (fst (update rawValue s))
  /\ defined_zones (fst (update rawValue s)) = defined_zones s.
Proof.
  intros Hi Hw Hz.
  destruct (update_completing rawValue s Hi Hw)
    as (s2 & Hu & _ & _ & _ & _ & _ & _ & Hzs & _ & _ & Hi2).
  rewrite Hu. simpl.
  destruct (commit_frame s2) as (_ & Hz3 & _ & _ & Hi3 & _).
  destruct (classify_frame (fst (commit s2))) as (_ & Hr4 & Hz4 & Hi4 & _).
  assert (Hne : defined_zones (fst (commit s2)) <> []) by congruence.
  destruct (classify_zones (fst (commit s2)) Hne) as (_ & Hp & _).
  unfold zone_settled, findZoneForValue in *. simpl.
  rewrite Hp, Hr4, Hz4, Hi4, Hi3, Hz3, Hzs. repeat split; auto.
Qed.

Lemma steady_poll_silent (rawValue : Z) (s : AnalogSensor) :
  zone_settled s ->
  currentReportedValue (fst (update rawValue s)) = currentReportedValue s ->
  zone_changes (snd (update rawValue s)) = []
  /\ zone_settled (fst (update rawValue s)).
Proof.
  intros (Hi & Hz & Hp) Hsame.
  destruct (completes_window rawValue s) eqn:Hw.
  - destruct (update_zone_settled rawValue s Hi Hw Hz) as [Hset Hzs].
    split; [|exact Hset].
    destruct (update_completing rawValue s Hi Hw)
      as (s2 & Hu & _ & _ & _ & _ & _ & _ & Hzs2 & Hp2 & _ & _).
    rewrite Hu in Hsame |- *. simpl in *.
    destruct (commit_frame s2) as (_ & Hz3 & Hp3 & _ & _ & Hzc).
    destruct (classify_frame (fst (commit s2))) as (_ & Hr4 & _).
    assert (Hne : defined_zones (fst (commit s2)) <> []) by congruence.
    destruct (classify_zones (fst (commit s2)) Hne) as (_ & _ & Hev).
    unfold zone_changes in *. rewrite flat_map_app, Hzc, Hev. simpl.
    rewrite Hr4 in Hsame. rewrite Hsame, Hp3, Hp2, Hp.
    unfold findZoneForValue. rewrite Hz3, Hzs2.
    rewrite Z.eqb_refl. reflexivity.
  - rewrite (update_not_completing rawValue s Hi Hw). simpl. split; [reflexivity|].
    unfold zone_settled, findZoneForValue, accumulate, average in *.
    destruct (1 <? avgSamples s); simpl; auto.
Qed.

Lemma steady_silent (raws : list Z) (s : AnalogSensor) :
  zone_settled s -> steady (currentReportedValue s) raws s ->
  zone_changes (sensor_events raws s) = [].
Proof.
  revert s. induction raws as [|r raws IH]; intros s Hs Hst; simpl in *.
  - reflexivity.
  - destruct Hst as [Hsame Hrest].
    destruct (steady_poll_silent r s Hs Hsame) as [Hev Hs'].
    unfold zone_changes in *. rewrite flat_map_app, Hev. simpl.
    apply IH; [exact Hs'|]. rewrite Hsame. exact Hrest.
Qed.

(** C7. On a poll that completes a smoothing window of a sensor with zones,
    the classified zone is the id of the first zone, in definition order,
    whose inclusive range contains the reported value, and the sentinel when
    there is none; the zone-change callback, when one is registered, is
    invoked (once, with that zone) if and only if the result differs from
    the previously classified zone; and over any later polls that leave the
    reported value where it is the callback is not invoked again. *)
Theorem C7_zone_classification (s : AnalogSensor) (rawValue : Z) :
  hasInitialRead s = true ->
  completes_window rawValue s = true ->
  defined_zones s <> [] ->
  let s' := fst (update rawValue s) in
  let ev := snd (update rawValue s) in
  let z := currentZoneID s' in
  first_match (defined_zones s) (currentReportedValue s') z
  /\ zone_changes ev =
     (if z =? previousZoneID s then []
      else if hasZoneChangeFunc s then [z] else [])
  /\ (forall raws, steady (currentReportedValue s') raws s' ->
        zone_changes (sensor_events raws s') = []).
Proof.
  intros Hi Hw Hz s' ev z.
  destruct (update_zone_settled rawValue s Hi Hw Hz) as [Hset Hzs]. fold s' in Hset.
  destruct (update_completing rawValue s Hi Hw)
    as (s2 & Hu & _ & _ & _ & _ & _ & _ & Hzs2 & Hp2 & Hf2 & _).
  destruct (commit_frame s2) as (_ & Hz3 & Hp3 & Hf3 & _ & Hzc).
  destruct (classify_frame (fst (commit s2))) as (_ & Hr4 & _).
  assert (Hne : defined_zones (fst (commit s2)) <> []) by congruence.
  destruct (classify_zones (fst (commit s2)) Hne) as (Hc & _ & Hev).
  assert (Ez : z = findZoneForValue_in (defined_zones s) (currentReportedValue s')).
  { subst z s'. rewrite Hu. simpl. rewrite Hc, Hr4.
    unfold findZoneForValue. rewrite Hz3, Hzs2. reflexivity. }
  split; [rewrite Ez; apply findZoneForValue_first_match|].
  split.
  - subst ev. rewrite Hu. simpl. unfold zone_changes in *.
    rewrite flat_map_app, Hzc, Hev. simpl.
    assert (Ez' : findZoneForValue (fst (commit s2))
                    (currentReportedValue (fst (commit s2))) = z).
    { subst z s'. rewrite Hu. simpl. rewrite Hc. reflexivity. }
    rewrite Ez', Hp3, Hp2, Hf3, Hf2. reflexivity.
  - intros raws Hst. apply steady_silent; assumption.
Qed.

End AnalogProofs.

(** ** On the boards *)

Section AnalogInstances.
Import AnalogSensor.

(** C1. The candidate of the code is not always the multiple of [Q]
    nearest to the hi-res value. The quotient [(float)hiResValue /
    quantizeStep] is a binary32 number, and from [2^22] on these are a half
    or more apart. On a board with a 32-bit [int], take a sensor with the
    output range 24999000..25000023, step 3 and no hysteresis that reports
    24999000: a poll that reads 1000 completes a window with the hi-res
    value 25000000. The multiple of 3 nearest to it is 24999999, which is
    within the output range; 25000002 is not the nearest. The quotient is
    rounded to 8333333.5, which [round] takes to 8333334: the candidate of
    the code is 25000002, and the poll commits it and hands it to the change
    callback. *)
Theorem C1_quantized_candidate_not_nearest :
  let s := wide_sensor in
  let s' := fst (update arm32 1000 s) in
  (hasInitialRead s = true /\ quantizeStep s = 3 /\ hysteresis_amount s = 0
   /\ outputMin s = 24999000 /\ outputMax s = 25000023
   /\ currentReportedValue s = 24999000
   /\ completes_window 1000 s = true)
  /\ hiResValue s' = 25000000
  /\ rounds_half_away 3 25000000 24999999
  /\ clamp (outputMin s) (outputMax s) 24999999 = 24999999
  /\ ~ rounds_half_away 3 25000000 25000002
  /\ V_potential arm32 (measured arm32 1000 s) = 25000002
  /\ currentReportedValue s' = 25000002
  /\ snd (update arm32 1000 s) = [Changed 25000002].
Proof.
  intros s s'.
  split; [vm_compute; repeat split; reflexivity|].
  split; [vm_compute; reflexivity|].
  split.
  { split; [exists 8333333; reflexivity|].
    split; [vm_compute; discriminate | vm_compute; intros E; discriminate E]. }
  split; [vm_compute; reflexivity|].
  split.
  { intros (_ & Hfar & _). vm_compute in Hfar. apply Hfar. reflexivity. }
  split; [vm_compute; reflexivity|].
  split; vm_compute; reflexivity.
Qed.

Local Abbreviation update := (AnalogSensor.update avr).
Local Abbreviation performInitialRead := (AnalogSensor.performInitialRead avr).
Local Abbreviation sensor_events := (sensor_events avr).
Local Abbreviation steady := (steady avr).

Lemma C7_witness :
  let s := percent_sensor in
  let rawValue := 600 in
  (hasInitialRead s = true /\ completes_window rawValue s = true
   /\ defined_zones s <> [])
  /\ first_match (defined_zones s)
       (currentReportedValue (fst (update rawValue s)))
       (currentZoneID (fst (update rawValue s)))
  /\ zone_changes (snd (update rawValue s)) =
     (if currentZoneID (fst (update rawValue s)) =? previousZoneID s then []
      else if hasZoneChangeFunc s
           then [currentZoneID (fst (update rawValue s))] else [])
  /\ (forall raws,
        steady (currentReportedValue (fst (update rawValue s))) raws
          (fst (update rawValue s)) ->
        zone_changes (sensor_events raws (fst (update rawValue s))) = []).
Proof.
  intros s rawValue.
  split; [repeat split; (vm_compute; reflexivity) || (vm_compute; discriminate)|].
  apply (C7_zone_classification avr s rawValue);
    (vm_compute; reflexivity) || (vm_compute; discriminate).
Defined.

(** The run of [percent_sensor]: a raw 140 is 13 on the output range, which
    commits 15; a raw 600 is 58, which commits 60 and enters zone 2. *)
Example percent_sensor_run :
  let s1 := update 140 percent_sensor in
  let s2 := update 600 (fst s1) in
  (hiResValue (fst s1), currentReportedValue (fst s1), snd s1) = (13, 15, [Changed 15])
  /\ (hiResValue (fst s2), currentReportedValue (fst s2), snd s2)
     = (58, 60, [Changed 60; ZoneChanged 2]).
Proof. vm_compute. split; reflexivity. Qed.

(** The band around the reported value 10 with step 5 and hysteresis 1, on a
    sensor whose output range is its input range: 11 and 12 keep 10, 13
    commits 15; on the way down 14 and 13 keep 15, 12 commits 10. *)
Example hysteresis_band :
  let s0 := performInitialRead 10
              (quantize 5 1 (outputRange 0 100 (inputRange 0 100 (onChange fresh)))) in
  let reported := fun raws =>
    currentReportedValue (fold_left (fun s r => fst (update r s)) raws s0) in
  (reported [], reported [11], reported [11; 12], reported [11; 12; 13])
  = (10, 10, 10, 15)
  /\ (reported [11; 12; 13; 14], reported [11; 12; 13; 14; 13],
      reported [11; 12; 13; 14; 13; 12])
     = (15, 15, 10)
  /\ sensor_events [11; 12; 13; 14; 13; 12] s0 = [Changed 15; Changed 10].
Proof. vm_compute. repeat split; reflexivity. Qed.

(** With a 16-bit [int] the product of the rounded quotient and the step
    can leave [int]: the hi-res value 30000 with the step 20000 gives the
    [long] 40000, which an [int] holds as -25536. *)
Example quantized_leaves_int :
  quantized avr 30000 20000 = -25536 /\ quantized arm32 30000 20000 = 40000.
Proof. vm_compute. split; reflexivity. Qed.

End AnalogInstances.

(** ** Button *)

Section ButtonProofs.
Import Button.
Variable DEBOUNCE_DELAY : Z.

Local Abbreviation poll := (poll DEBOUNCE_DELAY).
Local Abbreviation commits := (commits DEBOUNCE_DELAY).
Local Abbreviation run := (run DEBOUNCE_DELAY).

(** One poll, by cases on the two tests of [checkForPress]. *)
Lemma poll_cases (p : sample) (b : Button) :
  state (poll p b) = raw p
  /\ ((raw p <> oldState b
       /\ DEBOUNCE_DELAY <= elapsed (t_check p) (lastDebounceTime b)
       /\ oldState (poll p b) = raw p
       /\ lastDebounceTime (poll p b) = t_stamp p)
      \/ ((raw p = oldState b
           \/ elapsed (t_check p) (lastDebounceTime b) < DEBOUNCE_DELAY)
          /\ oldState (poll p b) = oldState b
          /\ lastDebounceTime (poll p b) = lastDebounceTime b)).
Proof.
  unfold Button.poll, update, checkForPress. simpl.
  destruct (Z.eqb_spec (raw p) (oldState b)) as [E|E]; simpl.
  - split; [reflexivity|]. right. auto.
  - destruct (Z.leb_spec DEBOUNCE_DELAY (elapsed (t_check p) (lastDebounceTime b))).
    + simpl.
      destruct (if pressMode b =? BUTTON_PRESS_HIGH then raw p =? HIGH else raw p =? LOW);
        simpl; destruct (hasPressFunc b); destruct (hasReleaseFunc b); simpl;
        (split; [reflexivity|]; left; auto).
    + simpl. split; [reflexivity|]. right. auto.
Qed.

Lemma commits_iff (p : sample) (b : Button) :
  commits p b = true <->
  raw p <> oldState b /\ DEBOUNCE_DELAY <= elapsed (t_check p) (lastDebounceTime b).
Proof.
  unfold Button.commits.
  destruct (poll_cases p b) as [_ [(Hne & Hd & Ho & _) | (Hc & Ho & _)]]; rewrite Ho.
  - destruct (Z.eqb_spec (raw p) (oldState b)); [contradiction|]. simpl. tauto.
  - rewrite Z.eqb_refl. simpl. split; [discriminate|]. intros [? ?].
    destruct Hc; [contradiction | lia].
Qed.

Lemma quiet_keeps_stamp (ps : list sample) (b : Button) :
  quiet DEBOUNCE_DELAY ps b ->
  lastDebounceTime (run ps b) = lastDebounceTime b
  /\ oldState (run ps b) = oldState b.
Proof.
  revert b. induction ps as [|p ps IH]; intros b Hq; simpl in *.
  - auto.
  - destruct Hq as [Hc Hq]. destruct (IH _ Hq) as [-> ->].
    destruct (poll_cases p b) as [_ [(Hne & Hd & _) | (_ & Ho & Hl)]].
    + assert (commits p b = true) by (apply commits_iff; auto). congruence.
    + auto.
Qed.

(** C2, as the code has it. For every button and every sequence of raw
    samples: a poll changes the committed level if and only if its raw
    sample differs from the committed level and the debounce window has
    passed since the previous commit; the level is then the raw sample, with
    no wait for the raw level to stay put, and the commit is stamped; a
    differing sample inside the window is recorded as the raw level and not
    committed; between two successive commits at least a debounce window
    passes; and after a poll taken a window or more after the last commit
    the committed level is the raw level of that poll. *)
Theorem C2_debounce_lockout (b : Button) (p : sample) :
  (commits p b = true <->
     raw p <> oldState b
     /\ DEBOUNCE_DELAY <= elapsed (t_check p) (lastDebounceTime b))
  /\ (commits p b = true ->
        oldState (poll p b) = raw p /\ lastDebounceTime (poll p b) = t_stamp p)
  /\ (elapsed (t_check p) (lastDebounceTime b) < DEBOUNCE_DELAY ->
        state (poll p b) = raw p /\ oldState (poll p b) = oldState b)
  /\ (forall ps p2,
        commits p b = true -> quiet DEBOUNCE_DELAY ps (poll p b) ->
        commits p2 (run ps (poll p b)) = true ->
        DEBOUNCE_DELAY <= elapsed (t_check p2) (t_stamp p))
  /\ (DEBOUNCE_DELAY <= elapsed (t_check p) (lastDebounceTime b) ->
        oldState (poll p b) = raw p).
Proof.
  pose proof (commits_iff p b) as Hiff.
  destruct (poll_cases p b) as [Hs Hcases].
  split; [exact Hiff|].
  split.
  { intros Hc. apply Hiff in Hc. destruct Hc as [Hne Hd].
    destruct Hcases as [(_ & _ & Ho & Hl) | ([He | Hlt] & _)];
      [auto | contradiction | lia]. }
  split.
  { intros Hlt. split; [exact Hs|].
    destruct Hcases as [(_ & Hd & _) | (_ & Ho & _)]; [lia | exact Ho]. }
  split.
  { intros ps p2 Hc Hq Hc2.
    apply commits_iff in Hc2. destruct Hc2 as [_ Hd2].
    destruct (quiet_keeps_stamp ps _ Hq) as [Hl _]. rewrite Hl in Hd2.
    apply Hiff in Hc. destruct Hc as [Hne Hd].
    destruct Hcases as [(_ & _ & _ & Hst) | ([He | Hlt] & _)];
      [rewrite Hst in Hd2; exact Hd2 | contradiction | lia]. }
  intros Hd.
  destruct Hcases as [(_ & _ & Ho & _) | ([He | Hlt] & Ho & _)];
    [exact Ho | congruence | lia].
Qed.

End ButtonProofs.

(** C2, as worded, fails. With a window of 50 ms, a button that rests at
    [HIGH] is polled at 1000 ms with a raw [HIGH] and at 1001 ms with a raw
    [LOW]: the second poll commits [LOW], 1 ms after a raw [HIGH] was read,
    so the raw level has not been stable for the window. *)
Lemma C2_counterexample :
  let b := initialized_button in
  let q := Button.Build_sample HIGH 1000 1000 in
  let p := Button.Build_sample LOW 1001 1001 in
  Button.oldState (Button.poll 50 q b) = HIGH
  /\ Button.commits 50 p (Button.poll 50 q b) = true
  /\ Button.oldState (Button.poll 50 p (Button.poll 50 q b)) = LOW
  /\ elapsed (Button.t_check p) (Button.t_check q) = 1
  /\ Button.raw q <> Button.raw p.
Proof. repeat split; try reflexivity. discriminate. Qed.

(** ** Re-initialisation *)

(** C8, as the code has it. [init] on an initialised sensor or button prints
    a warning and returns: the object is unchanged and the run goes on. *)
Theorem C8_reinit_is_ignored
  (s : AnalogSensor.AnalogSensor) (b : Button.Button) (p1 p2 mode reading : Z) :
  AnalogSensor.initialized s = true ->
  Button.initialized b = true ->
  AnalogSensor.init p1 s
    = Continue s ["WARNING: AnalogSensor already initialized. Ignoring."%string]
  /\ Button.init p2 mode reading b
    = Continue b ["WARNING: Button already initialized. Ignoring."%string].
Proof.
  intros Hs Hb. unfold AnalogSensor.init, Button.init. rewrite Hs, Hb. auto.
Qed.

Lemma C8_witness :
  (AnalogSensor.initialized initialized_sensor = true
   /\ Button.initialized initialized_button = true)
  /\ AnalogSensor.init 15 initialized_sensor
     = Continue initialized_sensor
         ["WARNING: AnalogSensor already initialized. Ignoring."%string]
  /\ Button.init 3 BUTTON_PRESS_LOW HIGH initialized_button
     = Continue initialized_button
         ["WARNING: Button already initialized. Ignoring."%string].
Proof.
  split; [split; reflexivity|].
  apply (C8_reinit_is_ignored initialized_sensor initialized_button 15 3
           BUTTON_PRESS_LOW HIGH); reflexivity.
Defined.

(** C8, as worded, fails: the second [init] of a sensor and of a button is
    not a halt. *)
Lemma C8_counterexample :
  AnalogSensor.init 14 AnalogSensor.fresh = Continue initialized_sensor []
  /\ Button.init 2 BUTTON_INPUT_PULLUP HIGH Button.fresh = Continue initialized_button []
  /\ (forall log, AnalogSensor.init 15 initialized_sensor <> Halted log)
  /\ (forall log, Button.init 3 BUTTON_PRESS_LOW HIGH initialized_button <> Halted log).
Proof. repeat split; try reflexivity; intros log; discriminate. Qed.

(** ** Interval scheduler *)

Section IntervalProofs.
Import Interval.
Context {callback : Type}.
Variable run : callback -> Z -> list (slot callback) -> list (slot callback).

Local Abbreviation service := (service run).
Local Abbreviation scan := (scan run).
Local Abbreviation update := (update run).
Local Abbreviation updates := (updates run).
Local Abbreviation behaves := (behaves run).

Implicit Types (t : list (slot callback)) (s : slot callback) (log : list (call callback)).

(** *** Allocation *)

Lemma findSlot_from_spec t (i : nat) :
  (exists j, findSlot_from i t = (i + j)%nat /\ lowest_free t j)
  \/ (findSlot_from i t = no_slot /\ forall j s, t !! j = Some s -> counts s <> -1).
Proof.
  revert i. induction t as [|s t IH]; intros i; simpl.
  - right. split; [reflexivity|]. intros j s Hj. discriminate.
  - destruct (Z.eqb_spec (counts s) (-1)) as [E|E].
    + left. exists 0%nat. split; [lia|]. split.
      * exists s. split; [reflexivity | exact E].
      * intros j sj Hlt. lia.
    + destruct (IH (S i)) as [(j & Hf & (sj & Hj & Hc) & Hlow) | [Hf Hnone]].
      * left. exists (S j). split; [lia|]. split.
        -- exists sj. split; [exact Hj | exact Hc].
        -- intros [|j'] s' Hlt Hl; cbn in Hl.
           ++ injection Hl as <-. exact E.
           ++ apply (Hlow j' s'); [lia | exact Hl].
      * right. split; [exact Hf|]. intros [|j'] s' Hl; cbn in Hl.
        -- injection Hl as <-. exact E.
        -- apply (Hnone j' s' Hl).
Qed.

Lemma lowest_free_unique t (j k : nat) :
  lowest_free t j -> lowest_free t k -> j = k.
Proof.
  intros [(sj & Hj & Hcj) Hlj] [(sk & Hk & Hck) Hlk].
  destruct (Nat.lt_trichotomy j k) as [Hlt | [Heq | Hgt]]; [|assumption|].
  - exfalso. apply (Hlk j sj Hlt Hj Hcj).
  - exfalso. apply (Hlj k sk Hgt Hk Hck).
Qed.

(** [add] takes the lowest free slot, and halts when there is none. *)
Lemma add_lowest_free (f : option callback) (wait count msg now : Z) t :
  (length t <= 255)%nat ->
  (forall k, lowest_free t k ->
     add f wait count msg now t
     = Continue (k, <[k := Build_slot f count wait now msg false]> t) [])
  /\ (forall k t', add f wait count msg now t = Continue (k, t') [] ->
        lowest_free t k /\ t' = <[k := Build_slot f count wait now msg false]> t).
Proof.
  intros Hlen. unfold add, findSlot.
  destruct (findSlot_from_spec t 0) as [(j & Hf & Hj) | [Hf Hnone]]; rewrite Hf; simpl.
  - assert (Hlt : (j < length t)%nat).
    { destruct Hj as [(s & Hs & _) _]. eapply lookup_lt_Some; eauto. }
    destruct (Nat.leb_spec (length t) j); [lia|]. split.
    + intros k Hk. rewrite (lowest_free_unique t k j Hk Hj). reflexivity.
    + intros k t' Heq. injection Heq as <- <-. auto.
  - assert (Hno : no_slot = 255%nat) by reflexivity.
    destruct (Nat.leb_spec (length t) no_slot); [|lia]. split.
    + intros k [(s & Hs & Hc) _]. exfalso. apply (Hnone k s Hs Hc).
    + intros k t' Heq. discriminate.
Qed.

(** *** One slot of the scan *)

Lemma calls_of_app (i : nat) log (log' : list (call callback)) :
  calls_of i (log ++ log') = calls_of i log ++ calls_of i log'.
Proof. unfold calls_of. apply List.filter_app. Qed.

Lemma calls_of_call_of (i j : nat) (tc : Z) s :
  calls_of i (call_of j tc s) = if Nat.eqb j i then call_of j tc s else [].
Proof.
  unfold calls_of, call_of.
  destruct (due tc s); [|destruct (Nat.eqb j i); reflexivity].
  destruct (callbacks s); simpl; destruct (Nat.eqb j i); reflexivity.
Qed.

(** Serving slot [a], whose callback changes slot [a] by [effect] and
    nothing else in the table. *)
Lemma service_spec (effect : slot callback -> slot callback) (a : nat) (tc ts : Z) t log s :
  t !! a = Some s ->
  (forall g t', callbacks s = Some g -> run g (msgs s) t' = alter effect a t') ->
  let r := service a tc ts (t, log) in
  length (fst r) = length t
  /\ fst r !! a = Some (served_by effect tc ts s)
  /\ (forall j, j <> a -> fst r !! j = t !! j)
  /\ snd r = log ++ call_of a tc s.
Proof.
  intros Ha Hrun. unfold Interval.service, served_by, call_of, due. simpl. rewrite Ha.
  destruct (callbacks s) as [g|] eqn:Hg; simpl.
  - destruct ((0 <=? counts s) && negb (paused s)); simpl.
    + destruct (waits s <=? elapsed tc (lastRuns s)); simpl.
      * rewrite (Hrun g t eq_refl). rewrite !length_alter.
        split; [reflexivity|]. split.
        -- rewrite !list_lookup_alter_eq, Ha. reflexivity.
        -- split; [|reflexivity]. intros j Hj.
           rewrite !list_lookup_alter_ne by congruence. reflexivity.
      * rewrite app_nil_r. auto.
    + rewrite app_nil_r. auto.
  - rewrite andb_false_r. simpl. rewrite app_nil_r. auto.
Qed.

Lemma service_outside (a : nat) (tc ts : Z) t log :
  t !! a = None -> service a tc ts (t, log) = (t, log).
Proof. intros Ha. unfold Interval.service. rewrite Ha. reflexivity. Qed.

(** *** The scan *)

Lemma scan_cons (c : clock) (a : nat) (indices : list nat)
  (st : list (slot callback) * list (call callback)) :
  scan c (a :: indices) st = scan c indices (service a (fst (c a)) (snd (c a)) st).
Proof. reflexivity. Qed.

Lemma scan_spec (effect : nat -> slot callback -> slot callback) (c : clock) (n : nat) :
  forall (a : nat) t log,
  (forall j s, (a <= j < a + n)%nat -> t !! j = Some s -> behaves effect j s) ->
  let r := scan c (seq a n) (t, log) in
  length (fst r) = length t
  /\ (forall j s, t !! j = Some s ->
        fst r !! j =
          Some (if (a <=? j)%nat && (j <? a + n)%nat
                then served_by (effect j) (fst (c j)) (snd (c j)) s else s))
  /\ (forall j s, t !! j = Some s ->
        calls_of j (snd r) =
          calls_of j log ++
          (if (a <=? j)%nat && (j <? a + n)%nat then call_of j (fst (c j)) s else [])).
Proof.
  induction n as [|n IH]; intros a t log Hb.
  - simpl. split; [reflexivity|]. split; intros j s Hj.
    + replace ((a <=? j)%nat && (j <? a + 0)%nat) with false; [exact Hj|].
      destruct (Nat.leb_spec a j); destruct (Nat.ltb_spec j (a + 0)); simpl; auto; lia.
    + replace ((a <=? j)%nat && (j <? a + 0)%nat) with false; [rewrite app_nil_r; auto|].
      destruct (Nat.leb_spec a j); destruct (Nat.ltb_spec j (a + 0)); simpl; auto; lia.
  - intros r. subst r. change (seq a (S n)) with (a :: seq (S a) n).
    rewrite scan_cons.
    destruct (t !! a) as [sa|] eqn:Ha.
    + destruct (service_spec (effect a) a (fst (c a)) (snd (c a)) t log sa Ha)
        as (Hlen & Hsa & Hoth & Hlog).
      { apply (Hb a sa); [lia | exact Ha]. }
      destruct (service a (fst (c a)) (snd (c a)) (t, log)) as [t1 log1] eqn:Hs.
      simpl in Hlen, Hsa, Hoth, Hlog.
      destruct (IH (S a) t1 log1) as (Hlen' & Hslots & Hcalls).
      { intros j s Hj Hl. rewrite Hoth in Hl by lia. apply (Hb j s); [lia | exact Hl]. }
      split; [congruence|]. split; intros j s Hj.
      * destruct (Nat.eq_dec j a) as [->|Hne].
        -- rewrite (Hslots a _ Hsa).
           assert (s = sa) by congruence. subst s.
           destruct (Nat.leb_spec (S a) a); [lia|].
           destruct (Nat.leb_spec a a); [|lia].
           destruct (Nat.ltb_spec a (a + S n)); [|lia]. reflexivity.
        -- assert (Hj1 : t1 !! j = Some s) by (rewrite Hoth by exact Hne; exact Hj).
           rewrite (Hslots j s Hj1). f_equal.
           destruct (Nat.leb_spec (S a) j); destruct (Nat.leb_spec a j);
             destruct (Nat.ltb_spec j (S a + n)); destruct (Nat.ltb_spec j (a + S n));
             simpl; try reflexivity; lia.
      * destruct (Nat.eq_dec j a) as [->|Hne].
        -- rewrite (Hcalls a _ Hsa).
           assert (s = sa) by congruence. subst s.
           rewrite Hlog, calls_of_app, calls_of_call_of, Nat.eqb_refl.
           destruct (Nat.leb_spec (S a) a); [lia|].
           destruct (Nat.leb_spec a a); [|lia].
           destruct (Nat.ltb_spec a (a + S n)); [|lia]. simpl.
           rewrite app_nil_r. reflexivity.
        -- assert (Hj1 : t1 !! j = Some s) by (rewrite Hoth by exact Hne; exact Hj).
           rewrite (Hcalls j s Hj1).
           rewrite Hlog, calls_of_app, calls_of_call_of.
           destruct (Nat.eqb_spec a j); [congruence|]. rewrite app_nil_r. f_equal.
           destruct (Nat.leb_spec (S a) j); destruct (Nat.leb_spec a j);
             destruct (Nat.ltb_spec j (S a + n)); destruct (Nat.ltb_spec j (a + S n));
             simpl; try reflexivity; lia.
    + rewrite (service_outside a _ _ t log Ha).
      destruct (IH (S a) t log) as (Hlen' & Hslots & Hcalls).
      { intros j s Hj Hl. apply (Hb j s); [lia | exact Hl]. }
      split; [exact Hlen'|]. split; intros j s Hj.
      * rewrite (Hslots j s Hj). f_equal.
        assert (j <> a) by congruence.
        destruct (Nat.leb_spec (S a) j); destruct (Nat.leb_spec a j);
          destruct (Nat.ltb_spec j (S a + n)); destruct (Nat.ltb_spec j (a + S n));
          simpl; try reflexivity; lia.
      * rewrite (Hcalls j s Hj). f_equal.
        assert (j <> a) by congruence.
        destruct (Nat.leb_spec (S a) j); destruct (Nat.leb_spec a j);
          destruct (Nat.ltb_spec j (S a + n)); destruct (Nat.ltb_spec j (a + S n));
          simpl; try reflexivity; lia.
Qed.

(** One poll, slot by slot. *)
Lemma update_spec (effect : nat -> slot callback -> slot callback) (c : clock) t :
  (forall j s, t !! j = Some s -> behaves effect j s) ->
  length (fst (update c t)) = length t
  /\ (forall j s, t !! j = Some s ->
        fst (update c t) !! j = Some (served_by (effect j) (fst (c j)) (snd (c j)) s)
        /\ calls_of j (snd (update c t)) = call_of j (fst (c j)) s).
Proof.
  intros Hb. unfold Interval.update.
  destruct (scan_spec effect c (length t) 0 t []) as (Hlen & Hslots & Hcalls).
  { intros j s _ Hj. apply (Hb j s Hj). }
  split; [exact Hlen|]. intros j s Hj.
  pose proof (lookup_lt_Some _ _ _ Hj) as Hlt.
  rewrite (Hslots j s Hj), (Hcalls j s Hj).
  destruct (Nat.leb_spec 0 j); [|lia].
  destruct (Nat.ltb_spec j (0 + length t)); [|lia]. simpl. auto.
Qed.


Lemma lowest_free_below t (k : nat) s :
  t !! k = Some s -> counts s = -1 ->
  exists j, (j <= k)%nat /\ lowest_free t j.
Proof.
  intros Hk Hc.
  destruct (findSlot_from_spec t 0) as [(j & _ & Hj) | [_ Hnone]].
  - exists j. split; [|exact Hj].
    destruct (Nat.le_gt_cases j k) as [Hle|Hgt]; [exact Hle|].
    exfalso. destruct Hj as [_ Hlow]. apply (Hlow k s Hgt Hk Hc).
  - exfalso. apply (Hnone k s Hk Hc).
Qed.

(** *** Callbacks that leave the table alone *)

Lemma pure_behaves t :
  (forall g m t', run g m t' = t') ->
  forall j s, t !! j = Some s -> behaves (fun _ s => s) j s.
Proof.
  intros Hpure j s _ g t' _. rewrite Hpure.
  symmetry. apply list_alter_id. reflexivity.
Qed.

(** The polls of [cs], from the table [t] and the calls [log] made so far. *)
Lemma updates_idle (k : nat) s (cs : list clock) :
  (forall g m t', run g m t' = t') ->
  Forall (fun c : clock => due (fst (c k)) s = false) cs ->
  forall t log,
  t !! k = Some s ->
  let r := fold_left (fun st c => let '(t', log') := update c (fst st) in
                                 (t', snd st ++ log')) cs (t, log) in
  length (fst r) = length t
  /\ fst r !! k = Some s
  /\ calls_of k (snd r) = calls_of k log.
Proof.
  intros Hpure Hidle. induction Hidle as [|c cs Hc _ IH]; intros t log Hk; simpl.
  - auto.
  - destruct (update_spec (fun _ s => s) c t (pure_behaves t Hpure)) as [Hlen Hslots].
    destruct (Hslots k s Hk) as [Hs Hcalls].
    destruct (update c t) as [t1 log1]. simpl in *.
    unfold served_by in Hs. unfold call_of in Hcalls. rewrite Hc in Hs, Hcalls.
    destruct (IH t1 (log ++ log1) Hs) as (Hlen' & Hs' & Hcalls').
    split; [congruence|]. split; [exact Hs'|].
    rewrite Hcalls', calls_of_app, Hcalls. apply app_nil_r.
Qed.

Lemma updates_idle_nil (k : nat) s (cs : list clock) t :
  (forall g m t', run g m t' = t') ->
  Forall (fun c : clock => due (fst (c k)) s = false) cs ->
  t !! k = Some s ->
  length (fst (updates cs t)) = length t
  /\ fst (updates cs t) !! k = Some s
  /\ calls_of k (snd (updates cs t)) = [].
Proof.
  intros Hpure Hidle Hk. apply (updates_idle k s cs Hpure Hidle t [] Hk).
Qed.

(** A timer added with count 1 takes the lowest slot whose count is -1.
    With callbacks that leave the table alone, it is not run by the polls
    at which the time since [add] is below its period; at the first poll at
    which that time reaches the period its callback is run once, with its
    message, and its count becomes -1; no later poll runs it again; its
    slot is free for the following [add], and an [add] always takes the
    lowest slot whose count is -1. *)
Lemma one_shot_timer_with_quiet_callbacks
  (t : list (slot callback)) (f : callback) (wait msg now : Z) (k : nat)
  (t1 : list (slot callback)) (early : list clock) (c : clock) (late : list clock) :
  (length t <= 255)%nat ->
  (forall g m t', run g m t' = t') ->
  add (Some f) wait 1 msg now t = Continue (k, t1) [] ->
  Forall (fun c' : clock => elapsed (fst (c' k)) now < wait) early ->
  wait <= elapsed (fst (c k)) now ->
  let st1 := updates early t1 in
  let st2 := update c (fst st1) in
  let st3 := updates late (fst st2) in
  lowest_free t k
  /\ calls_of k (snd st1) = []
  /\ calls_of k (snd st2) = [(k, f, msg)]
  /\ (exists s, fst st2 !! k = Some s /\ counts s = -1)
  /\ calls_of k (snd st3) = []
  /\ (exists s, fst st3 !! k = Some s /\ counts s = -1)
  /\ (forall g wait' count' msg' now',
        exists j, (j <= k)%nat /\ lowest_free (fst st3) j
          /\ add g wait' count' msg' now' (fst st3)
             = Continue (j, <[j := Build_slot g count' wait' now' msg' false]> (fst st3)) []).
Proof.
  intros Hlen Hpure Hadd Hearly Hdue st1 st2 st3.
  destruct (add_lowest_free (Some f) wait 1 msg now t Hlen) as [_ Hadd'].
  destruct (Hadd' k t1 Hadd) as [Hfree ->]. clear Hadd'.
  assert (Hk : (k < length t)%nat).
  { destruct Hfree as [(s & Hs & _) _]. eapply lookup_lt_Some; eauto. }
  set (s0 := Build_slot (Some f) 1 wait now msg false) in *.
  assert (Hk0 : <[k := s0]> t !! k = Some s0) by (apply list_lookup_insert_eq; exact Hk).
  split; [exact Hfree|].
  (* the polls before the period has passed *)
  assert (Hidle : Forall (fun c' : clock => due (fst (c' k)) s0 = false) early).
  { eapply Forall_impl; [exact Hearly|]. intros c' Hc'. unfold due.
    cbn [counts paused callbacks waits lastRuns s0 set_lastRuns].
    cbv beta in Hc'.
    destruct (Z.leb_spec wait (elapsed (fst (c' k)) now)); [lia|].
    apply andb_false_r. }
  destruct (updates_idle_nil k s0 early _ Hpure Hidle Hk0) as (Hlen1 & Hs1 & Hc1).
  fold st1 in Hlen1, Hs1, Hc1.
  split; [exact Hc1|].
  (* the poll at which the period has passed *)
  destruct (update_spec (fun _ s => s) c (fst st1) (pure_behaves _ Hpure)) as [Hlen2 Hslots].
  destruct (Hslots k s0 Hs1) as [Hs2 Hc2]. fold st2 in Hlen2, Hs2, Hc2.
  assert (Hd : due (fst (c k)) s0 = true).
  { unfold due. cbn [counts paused callbacks waits lastRuns s0 set_lastRuns].
    destruct (Z.leb_spec wait (elapsed (fst (c k)) now)); [|lia].
    rewrite bool_decide_true by discriminate. reflexivity. }
  unfold served_by in Hs2. unfold call_of in Hc2. rewrite Hd in Hs2, Hc2. simpl in Hc2.
  set (s2 := countdown (set_lastRuns (snd (c k)) s0)) in *.
  assert (Hcount : counts s2 = -1).
  { subst s2. reflexivity. }
  split; [exact Hc2|].
  split; [exists s2; auto|].
  (* the later polls *)
  assert (Hidle3 : Forall (fun c' : clock => due (fst (c' k)) s2 = false) late).
  { apply Forall_forall. intros c' _. unfold due. rewrite Hcount. reflexivity. }
  destruct (updates_idle_nil k s2 late _ Hpure Hidle3 Hs2) as (Hlen3 & Hs3 & Hc3).
  fold st3 in Hlen3, Hs3, Hc3.
  split; [exact Hc3|].
  split; [exists s2; auto|].
  intros g wait' count' msg' now'.
  destruct (lowest_free_below (fst st3) k s2 Hs3 Hcount) as (j & Hj & Hlow).
  exists j. split; [exact Hj|]. split; [exact Hlow|].
  assert (Hlen' : (length (fst st3) <= 255)%nat).
  { rewrite Hlen3, Hlen2, Hlen1, length_insert. exact Hlen. }
  destruct (add_lowest_free g wait' count' msg' now' (fst st3) Hlen') as [Hgo _].
  apply Hgo. exact Hlow.
Qed.

(** *** A table without active timers *)

Lemma scan_inactive (c : clock) (indices : list nat) t log :
  Forall (fun s => counts s < 0) t -> scan c indices (t, log) = (t, log).
Proof.
  intros Hall. induction indices as [|i indices IH]; [reflexivity|].
  rewrite scan_cons.
  assert (Hi : service i (fst (c i)) (snd (c i)) (t, log) = (t, log)).
  { unfold Interval.service. destruct (t !! i) as [s|] eqn:Hs; [|reflexivity].
    destruct (callbacks s); [|reflexivity].
    rewrite Forall_lookup in Hall. specialize (Hall i s Hs). cbv beta in Hall.
    destruct (Z.leb_spec 0 (counts s)); [lia | reflexivity]. }
  rewrite Hi. exact IH.
Qed.

Lemma updates_inactive (cs : list clock) t :
  Forall (fun s => counts s < 0) t -> updates cs t = (t, []).
Proof.
  intros Hall. unfold Interval.updates. generalize (@nil (call callback)).
  induction cs as [|c cs IH]; intros log; [reflexivity|].
  cbn [fold_left fst snd].
  assert (Hu : update c t = (t, [])) by (apply scan_inactive; exact Hall).
  rewrite Hu, app_nil_r. apply IH.
Qed.

(** C6. When the callback run for slot [i] clears slot [i], and the other
    callbacks leave the table alone, then after [update] slot [i] is
    inactive: its count is -1 and its callback is null, as [clear] left
    them, the count was not decremented and nothing but the stamp of the run
    was written; the callback was run once for the slot; every other slot
    is served as in a scan without the clearing: its callback is run when
    it is due, and the slot is stamped and counted down. *)
Theorem C6_self_clearing_callback
  (c : clock) (t : list (slot callback)) (i : nat) (s : slot callback) (f : callback) :
  t !! i = Some s ->
  callbacks s = Some f ->
  due (fst (c i)) s = true ->
  (forall t', run f (msgs s) t' = clear i t') ->
  (forall j sj g t', j <> i -> t !! j = Some sj -> callbacks sj = Some g ->
     run g (msgs sj) t' = t') ->
  let r := update c t in
  fst r !! i = Some (Build_slot None (-1) 0 (snd (c i)) 0 false)
  /\ calls_of i (snd r) = [(i, f, msgs s)]
  /\ (forall j sj, j <> i -> t !! j = Some sj ->
        fst r !! j = Some (served (fst (c j)) (snd (c j)) sj)
        /\ calls_of j (snd r) = call_of j (fst (c j)) sj).
Proof.
  intros Hi Hf Hdue Hclear Hpure r. subst r.
  set (effect := fun j : nat =>
         if Nat.eqb j i then (fun _ : slot callback => cleared) else (fun s => s)).
  destruct (update_spec effect c t) as [_ Hslots].
  { intros j sj Hj g t' Hg. subst effect. simpl.
    destruct (Nat.eqb_spec j i) as [->|Hne].
    - assert (sj = s) by congruence. subst sj.
      assert (g = f) by congruence. subst g.
      rewrite Hclear. unfold clear.
      destruct (Nat.ltb_spec i (length t')).
      + apply list_insert_alter.
      + apply list_eq. intros n.
        destruct (Nat.eq_dec i n) as [<-|Hn].
        * rewrite list_lookup_alter_eq.
          rewrite (lookup_ge_None_2 t' i) by lia. reflexivity.
        * rewrite list_lookup_alter_ne by exact Hn. reflexivity.
    - rewrite (Hpure j sj g t' Hne Hj Hg).
      symmetry. apply list_alter_id. reflexivity. }
  split; [|split].
  - destruct (Hslots i s Hi) as [Hs _]. rewrite Hs.
    subst effect. simpl. rewrite Nat.eqb_refl.
    unfold served_by. rewrite Hdue. reflexivity.
  - destruct (Hslots i s Hi) as [_ Hc]. rewrite Hc.
    unfold call_of. rewrite Hdue, Hf. reflexivity.
  - intros j sj Hne Hj. destruct (Hslots j sj Hj) as [Hs Hc].
    subst effect. simpl in Hs.
    destruct (Nat.eqb_spec j i); [contradiction|].
    split; [exact Hs | exact Hc].
Qed.

End IntervalProofs.

(** ** A one-shot timer started from a callback *)

(** C3. A one-shot timer that a callback starts in the slot it is run for
    never fires. The timer of slot 0 of [restarting_table] runs [restart]
    every 100 ms; [restart] stops this timer and calls [after(50, ring)],
    which takes the lowest free slot, slot 0 again, with the count 1. At
    the poll at the time 100 [restart] is run; after its return [update]
    stamps slot 0 and counts it down, from 1 to 0 and so to -1: slot 0 then
    holds [ring] with the count -1. No timer is left active, and no later
    poll, whenever it comes, runs [ring]. *)
Theorem C3_one_shot_from_callback_never_fires :
  let run := chained_run in
  let t := restarting_table in
  let st := Interval.update run (at_time 100) t in
  t !! 0%nat = Some (Interval.Build_slot (Some (Restart 0 50 100)) 0 100 0 0 false)
  /\ Device.after 50 (Some Ring) 100 (Device.stop 0 t)
     = Continue (0%nat, [Interval.Build_slot (Some Ring) 1 50 100 0 false;
                         Interval.Build_slot None (-1) 0 0 0 false]) []
  /\ snd st = [(0%nat, Restart 0 50 100, 0)]
  /\ fst st = [Interval.Build_slot (Some Ring) (-1) 50 100 0 false;
               Interval.Build_slot None (-1) 0 0 0 false]
  /\ forall late : list Interval.clock,
       Interval.updates run late (fst st) = (fst st, []).
Proof.
  intros run t st.
  split; [vm_compute; reflexivity|].
  split; [vm_compute; reflexivity|].
  split; [vm_compute; reflexivity|].
  assert (Hst : fst st = [Interval.Build_slot (Some Ring) (-1) 50 100 0 false;
                          Interval.Build_slot None (-1) 0 0 0 false])
    by (vm_compute; reflexivity).
  split; [exact Hst|].
  intros late. apply updates_inactive. rewrite Hst.
  repeat constructor.
Qed.


(** ** LED *)

Section LEDProofs.
Import LED.

Lemma wrap_small (bits x : Z) : 0 <= x < 2 ^ bits -> wrap bits x = x.
Proof. intros H. unfold wrap. apply Z.mod_small. exact H. Qed.

Lemma elapsed_nonneg (now last : Z) : 0 <= elapsed now last.
Proof.
  unfold elapsed, to_ulong, wrap.
  apply Z.mod_pos_bound. reflexivity.
Qed.

(** C10. [fadeOut] on an LED whose state is [LOW] returns the LED as it is:
    no fade is started, and the level, the state, the animation members and
    the writes are those of before. *)
Theorem C10_fadeOut_when_off (duration now : Z) (l : LED) :
  state l = LOW -> fadeOut duration now l = l.
Proof. intros H. unfold fadeOut. rewrite H. reflexivity. Qed.

(** *** The durations stored by the three starts *)

Lemma initPulse_duration_positive (pDelay count low high now : Z) (l : LED) :
  1 <= pulseDuration (initPulse pDelay count low high now l).
Proof.
  unfold initPulse, setLevel, setState, emit.
  repeat match goal with
  | |- context [if ?b then _ else _] =>
      match b with
      | pDelay <? 2 => fail 1
      | _ => destruct b; simpl
      end
  end;
  (destruct (Z.ltb_spec pDelay 2);
   [ reflexivity
   | apply Z.div_le_lower_bound; lia ]).
Qed.

Lemma initFade_duration_positive (duration start end_ now : Z) (l : LED) :
  1 <= pulseDuration (initFade duration start end_ now l).
Proof.
  unfold initFade, setLevel, setState, emit.
  repeat match goal with
  | |- context [if ?b then _ else _] =>
      match b with
      | duration <? 1 => fail 1
      | _ => destruct b; simpl
      end
  end;
  (destruct (Z.ltb_spec duration 1); lia).
Qed.


(** *** The output primitive *)

Lemma setState_LOW (l : LED) :
  setState LOW l = set_writes (writes l ++ off_writes l) (set_state LOW l).
Proof.
  unfold setState, off_writes, emit. cbn.
  destruct (isRGB l); [reflexivity|]. destruct (isDimmable l); reflexivity.
Qed.

Lemma setState_HIGH (l : LED) :
  setState HIGH l = set_writes (writes l ++ on_writes l) (set_state HIGH l).
Proof.
  unfold setState, on_writes, emit. cbn.
  destruct (isRGB l); [reflexivity|]. destruct (isDimmable l); reflexivity.
Qed.

Lemma flip_eq (l : LED) :
  flip l =
    if state l =? HIGH
    then set_writes (writes l ++ off_writes l) (set_state LOW l)
    else set_writes (writes l ++ on_writes l) (set_state HIGH l).
Proof.
  unfold flip. destruct (state l =? HIGH); [apply setState_LOW | apply setState_HIGH].
Qed.

Lemma runPulse_idle (w t_start t_stamp : Z) (l : LED) :
  pulsing l = false -> runPulse w t_start t_stamp l = l.
Proof. intros H. unfold runPulse. rewrite H. reflexivity. Qed.

Section Blink.
Variable UINT_BITS : Z.

Local Abbreviation update := (update UINT_BITS).
Local Abbreviation run := (run UINT_BITS).
Local Abbreviation toggles := (toggles UINT_BITS).
Local Abbreviation initBlink := (initBlink UINT_BITS).

(** One poll of a blink that is not due, or of an LED that does not blink. *)
Lemma update_blink_idle (k : ticks) (l : LED) :
  pulsing l = false ->
  blinking l && (blinkDelay l <=? elapsed (blink_check k) (lastBlinkTime l)) = false ->
  update k l = l.
Proof.
  intros Hp Hd. unfold LED.update, runBlink.
  destruct (blinking l); simpl in Hd; [rewrite Hd|]; apply runPulse_idle; exact Hp.
Qed.

(** One poll of a blink that is due. *)
Lemma update_blink_due (k : ticks) (l : LED) :
  pulsing l = false -> blinking l = true ->
  blinkDelay l <= elapsed (blink_check k) (lastBlinkTime l) ->
  let l' := update k l in
  let count := to_uint UINT_BITS (blinkCount l + 1) in
  pulsing l' = false
  /\ if (blinkMax l <=? count) && (0 <? blinkMax l)
     then blinking l' = false /\ state l' = LOW
     else blinking l' = true /\ blinkMax l' = blinkMax l
          /\ blinkCount l' = count
          /\ blinkDelay l' = blinkDelay l
          /\ lastBlinkTime l' = blink_stamp k
          /\ state l' = (if state l =? HIGH then LOW else HIGH).
Proof.
  intros Hp Hb Hd l' count. subst l' count. unfold LED.update, runBlink. rewrite Hb.
  destruct (Z.leb_spec (blinkDelay l) (elapsed (blink_check k) (lastBlinkTime l))); [|lia].
  rewrite flip_eq. simpl.
  destruct (state l =? HIGH); simpl;
    destruct ((blinkMax l <=? to_uint UINT_BITS (blinkCount l + 1)) && (0 <? blinkMax l));
    rewrite runPulse_idle;
    try (unfold turnOff; rewrite setState_LOW; simpl; tauto);
    try (simpl; rewrite ?Hp, ?Hb; tauto).
Qed.

Lemma run_stopped (ks : list ticks) (l : LED) :
  pulsing l = false -> blinking l = false ->
  run ks l = l /\ toggles ks l = 0%nat.
Proof.
  intros Hp Hb. induction ks as [|k ks IH]; simpl; [auto|].
  rewrite (update_blink_idle k l Hp) by (rewrite Hb; reflexivity).
  rewrite Z.eqb_refl. exact IH.
Qed.

(** One poll of a finite blink. *)
Lemma blink_step (p0 : bool) (need : Z) (k : ticks) (l : LED) (c : Z) :
  Z.odd need = p0 -> 0 < need < 2 ^ UINT_BITS ->
  blink_progress p0 need l c ->
  let due := blinking l
             && (blinkDelay l <=? elapsed (blink_check k) (lastBlinkTime l)) in
  blink_progress p0 need (update k l) (if due then c + 1 else c)
  /\ (state (update k l) =? state l) = negb due
  /\ (blinking (update k l) = true ->
      blinkDelay (update k l) = blinkDelay l
      /\ lastBlinkTime (update k l)
         = if due then blink_stamp k else lastBlinkTime l).
Proof.
  intros Hodd Hneed Hinv due.
  destruct due eqn:Hdue; subst due.
  - apply andb_true_iff in Hdue. destruct Hdue as [Hb Hd].
    apply Z.leb_le in Hd.
    destruct Hinv as [Hp Hinv]. rewrite Hb in Hinv.
    destruct Hinv as (Hmax & Hcount & Hc & Hpar).
    destruct (update_blink_due k l Hp Hb Hd) as [Hp' Hcases].
    unfold to_uint in Hcases. rewrite Hcount in Hcases.
    rewrite (wrap_small UINT_BITS (c + 1)) in Hcases by lia. rewrite Hmax in Hcases.
    assert (Hs : Z.odd (c + 1) = negb (Z.odd c)).
    { replace (c + 1) with (Z.succ c) by lia.
      rewrite Z.odd_succ, <- Z.negb_odd. reflexivity. }
    unfold blink_progress.
    destruct (Z.leb_spec need (c + 1)); destruct (Z.ltb_spec 0 need); try lia;
      simpl in Hcases.
    + destruct Hcases as [Hb' Hst]. rewrite Hb', Hst.
      assert (Hlast : need = c + 1) by lia.
      assert (Hhigh : state l = HIGH).
      { rewrite Hlast, Hs in Hodd. rewrite <- Hodd in Hpar.
        destruct (Z.eqb_spec (state l) HIGH); [assumption|].
        destruct (Z.odd c); discriminate. }
      rewrite Hhigh. repeat split; auto; discriminate.
    + destruct Hcases as (Hb' & Hmax' & Hcount' & Hdelay' & Hlast' & Hst).
      rewrite Hb', Hst. repeat split; auto; try lia.
      * rewrite Hs. clear Hodd.
        destruct (Z.eqb_spec (state l) HIGH); destruct p0; destruct (Z.odd c);
          simpl in *; congruence.
      * simpl. destruct (Z.eqb_spec (state l) HIGH) as [E|E]; [rewrite E; reflexivity|].
        destruct (Z.eqb_spec HIGH (state l)); congruence.
  - destruct Hinv as [Hp Hinv].
    rewrite (update_blink_idle k l Hp Hdue). rewrite Z.eqb_refl.
    split; [split; assumption|]. split; [reflexivity|]. auto.
Qed.

Lemma blink_bound (p0 : bool) (need : Z) (l : LED) (c : Z) :
  blink_progress p0 need l c -> c <= need.
Proof. intros [_ H]. destruct (blinking l); lia. Qed.

Lemma blink_run (p0 : bool) (need : Z) (ks : list ticks) :
  Z.odd need = p0 -> 0 < need < 2 ^ UINT_BITS ->
  forall (l : LED) (c : Z),
  blink_progress p0 need l c ->
  blink_progress p0 need (run ks l) (c + Z.of_nat (toggles ks l)).
Proof.
  intros Hodd Hneed. induction ks as [|k ks IH]; intros l c Hinv; simpl.
  - rewrite Z.add_0_r. exact Hinv.
  - destruct (blink_step p0 need k l c Hodd Hneed Hinv) as (Hinv' & Hst & _).
    apply IH in Hinv'. rewrite Hst.
    destruct (blinking l && (blinkDelay l <=? elapsed (blink_check k) (lastBlinkTime l)));
      simpl.
    + replace (c + Z.of_nat (S (toggles ks (update k l))))
        with (c + 1 + Z.of_nat (toggles ks (update k l))) by lia.
      exact Hinv'.
    + exact Hinv'.
Qed.

Lemma blink_finishes (p0 : bool) (need : Z) (ks : list ticks) :
  Z.odd need = p0 -> 0 < need < 2 ^ UINT_BITS ->
  forall (l : LED) (c : Z),
  blink_progress p0 need l c ->
  blinking l = true ->
  paced blink_check blink_stamp (blinkDelay l) (lastBlinkTime l) ks ->
  need - c <= Z.of_nat (length ks) ->
  blinking (run ks l) = false.
Proof.
  intros Hodd Hneed. induction ks as [|k ks IH]; intros l c Hinv Hb Hpaced Hlen.
  - exfalso. destruct Hinv as [_ Hinv]. rewrite Hb in Hinv. simpl in Hlen. lia.
  - simpl in Hpaced. destruct Hpaced as [Hd Hpaced]. simpl.
    destruct (blink_step p0 need k l c Hodd Hneed Hinv) as (Hinv' & _ & Hkeep).
    rewrite Hb in Hinv', Hkeep. simpl in Hinv', Hkeep.
    destruct (Z.leb_spec (blinkDelay l) (elapsed (blink_check k) (lastBlinkTime l)));
      [|lia].
    destruct (blinking (update k l)) eqn:Hb'.
    + destruct (Hkeep eq_refl) as [Hdelay Hlast].
      apply (IH (update k l) (c + 1) Hinv' Hb').
      * rewrite Hdelay, Hlast. exact Hpaced.
      * simpl in Hlen. lia.
    + destruct Hinv' as [Hp' _].
      destruct (run_stopped ks (update k l) Hp' Hb') as [-> _]. exact Hb'.
Qed.

(** X30. A blink started with a count [N > 0] needs [2N] toggles when the
    output was off at the start and [2N - 1] when it was on. When that
    number fits [unsigned int]: over any polls the output toggles no more
    often than that; once the blink has stopped it has toggled exactly that
    often, the output is off and no later poll toggles it; and the blink
    stops within that many polls when the polls are a half-period apart. *)
Theorem finite_blink_ends_off (bDelay N now : Z) (l0 : LED) (ks more : list ticks) :
  0 < N ->
  (if state l0 =? HIGH then 2 * N - 1 else 2 * N) < 2 ^ UINT_BITS ->
  let l1 := initBlink bDelay N now l0 in
  let need := if state l0 =? HIGH then 2 * N - 1 else 2 * N in
  Z.of_nat (toggles ks l1) <= need
  /\ (blinking (run ks l1) = false ->
      Z.of_nat (toggles ks l1) = need
      /\ state (run ks l1) = LOW
      /\ toggles more (run ks l1) = 0%nat)
  /\ (paced blink_check blink_stamp (blinkDelay l1) now ks ->
      need <= Z.of_nat (length ks) ->
      blinking (run ks l1) = false).
Proof.
  intros HN Hfit l1 need.
  set (p0 := state l0 =? HIGH).
  assert (Hodd : Z.odd need = p0).
  { subst need. fold p0. destruct p0.
    - replace (2 * N - 1) with (-1 + 2 * N) by lia. apply Z.odd_add_mul_2.
    - replace (2 * N) with (0 + 2 * N) by lia. apply Z.odd_add_mul_2. }
  assert (Hneed : 0 < need < 2 ^ UINT_BITS).
  { subst need. destruct (state l0 =? HIGH); lia. }
  assert (Hfit' : need < 2 ^ UINT_BITS) by lia.
  assert (Hinv : blink_progress p0 need l1 0).
  { subst l1 need p0. unfold LED.initBlink, blink_progress. simpl.
    destruct (Z.ltb_spec 0 N); [|lia]. simpl.
    split; [reflexivity|]. unfold to_uint.
    destruct (state l0 =? HIGH); simpl;
      (rewrite wrap_small by lia); repeat split; lia. }
  clear Hfit'.
  pose proof (blink_run p0 need ks Hodd Hneed l1 0 Hinv) as Hrun.
  rewrite Z.add_0_l in Hrun.
  split; [apply (blink_bound _ _ _ _ Hrun)|]. split.
  - intros Hstop. destruct Hrun as [Hp Hrun]. rewrite Hstop in Hrun.
    destruct Hrun as [Hc Hst]. split; [exact Hc|]. split; [exact Hst|].
    apply (run_stopped more _ Hp Hstop).
  - intros Hpaced Hlen.
    apply (blink_finishes p0 need ks Hodd Hneed l1 0 Hinv).
    + subst l1. unfold LED.initBlink. reflexivity.
    + replace (lastBlinkTime l1) with now; [exact Hpaced|].
      subst l1. unfold LED.initBlink. reflexivity.
    + lia.
Qed.

(** A blink whose toggle count is 0 does not stop. *)
Lemma endless_blink_runs_on (ks : list ticks) (l : LED) :
  pulsing l = false -> blinking l = true -> blinkMax l = 0 ->
  blinking (run ks l) = true.
Proof.
  revert l. induction ks as [|k ks IH]; intros l Hp Hb Hmax; simpl; [exact Hb|].
  destruct (Z.leb_spec (blinkDelay l) (elapsed (blink_check k) (lastBlinkTime l)))
    as [Hd|Hd].
  - destruct (update_blink_due k l Hp Hb Hd) as [Hp' Hcases].
    rewrite Hmax, andb_false_r in Hcases.
    destruct Hcases as (Hb' & Hmax' & _).
    apply IH; congruence.
  - rewrite (update_blink_idle k l Hp).
    + apply IH; assumption.
    + rewrite Hb. simpl. apply Z.leb_gt. exact Hd.
Qed.

(** C9, at the failing input. [blink] with a delay of 0 stores a
    half-period of 0 (a delay of 1 does too), and the blink that follows
    toggles the output at every poll, whatever the clock reads. *)
Theorem C9_blink_zero_delay (now : Z) (l0 : LED) (ks : list ticks) :
  blinkDelay (initBlink 0 0 now l0) = 0
  /\ blinkDelay (initBlink 1 0 now l0) = 0
  /\ toggles ks (initBlink 0 0 now l0) = length ks.
Proof.
  split; [reflexivity|]. split; [reflexivity|].
  assert (Hgen : forall l, pulsing l = false -> blinking l = true ->
                  blinkMax l = 0 -> blinkDelay l = 0 -> toggles ks l = length ks).
  { induction ks as [|k ks IH]; intros l Hp Hb Hmax Hdelay; simpl; [reflexivity|].
    assert (Hd : blinkDelay l <= elapsed (blink_check k) (lastBlinkTime l)).
    { rewrite Hdelay. apply elapsed_nonneg. }
    destruct (update_blink_due k l Hp Hb Hd) as [Hp' Hcases].
    rewrite Hmax in Hcases. rewrite andb_false_r in Hcases.
    destruct Hcases as (Hb' & Hmax' & _ & Hdelay' & _ & Hst).
    rewrite Hst.
    assert (Hflip : ((if state l =? HIGH then LOW else HIGH) =? state l) = false).
    { destruct (Z.eqb_spec (state l) HIGH) as [E|E]; [rewrite E; reflexivity|].
      destruct (Z.eqb_spec HIGH (state l)); congruence. }
    rewrite Hflip. f_equal.
    apply IH; congruence. }
  apply Hgen; reflexivity.
Qed.

End Blink.

Section Pulse.
Variable UINT_BITS : Z.

Local Abbreviation update := (update UINT_BITS).
Local Abbreviation run := (run UINT_BITS).
Local Abbreviation runPulse := (runPulse UINT_BITS).

Lemma update_pulse (k : ticks) (l : LED) :
  blinking l = false ->
  update k l = runPulse (pulse_start k) (pulse_stamp k) l.
Proof. intros Hb. unfold LED.update, runBlink. rewrite Hb. reflexivity. Qed.

Lemma pulse_stopped (ks : list ticks) (l : LED) :
  blinking l = false -> pulsing l = false -> run ks l = l.
Proof.
  intros Hb Hp. induction ks as [|k ks IH]; simpl; [reflexivity|].
  rewrite (update_pulse k l Hb), (runPulse_idle _ _ _ l Hp). exact IH.
Qed.

(** The ramp part of a poll: the level moves, the animation goes on. *)
Lemma ramp_progress (N high : Z) (l : LED) (desiredLevel : Z) :
  pulse_progress N high l -> pulsing l = true ->
  let l' := pulsedEnough
              (if negb (level l =? desiredLevel)
               then setState HIGH (set_level desiredLevel l) else l) in
  pulse_progress N high l' /\ legs_left N l' = legs_left N l
  /\ pulsing l' = true.
Proof.
  intros [Hb Hinv] Hp. rewrite Hp in Hinv.
  destruct Hinv as (Hmax & Hhigh & Hst & HN). intros l'. subst l'.
  unfold pulsedEnough, pulse_progress, legs_left.
  destruct (negb (level l =? desiredLevel)); [rewrite setState_HIGH|]; simpl;
    rewrite ?Hmax, ?Hp.
  - destruct (Z.ltb_spec 0 N); simpl.
    + destruct (Z.leb_spec N (pulseCount l)); [lia|]. simpl. rewrite Hp, Hb.
      repeat split; auto; lia.
    + rewrite andb_false_r. simpl. rewrite Hp, Hb.
      destruct (Z.ltb_spec 0 N); [lia|]. repeat split; auto.
  - destruct (Z.ltb_spec 0 N); simpl.
    + destruct (Z.leb_spec N (pulseCount l)); [lia|]. simpl. rewrite Hp, Hb, Hmax.
      destruct (Z.ltb_spec 0 N); [|lia]. repeat split; auto; lia.
    + rewrite andb_false_r. simpl. rewrite Hp, Hb, Hmax.
      destruct (Z.ltb_spec 0 N); [lia|]. repeat split; auto.
Qed.


Lemma initPulse_fields (pDelay N low high now : Z) (l0 : LED) :
  let l1 := initPulse pDelay N low high now l0 in
  blinking l1 = false /\ pulsing l1 = true /\ pulseMax l1 = N
  /\ pulseHigh l1 = high /\ pulseCount l1 = 0 /\ pulseUp l1 = true
  /\ state l1 = HIGH /\ lastPulseTime l1 = now.
Proof.
  unfold initPulse. rewrite setState_HIGH. unfold setLevel. simpl.
  destruct (state l0 =? HIGH); [rewrite setState_HIGH|]; simpl; repeat split.
Qed.

(** One poll of a pulse. *)
Lemma pulse_step (N high : Z) (k : ticks) (l : LED) :
  0 <= N < 2 ^ UINT_BITS ->
  pulse_progress N high l ->
  pulse_progress N high (update k l)
  /\ (pulsing l = true ->
      pulseDuration l <= elapsed (pulse_start k) (lastPulseTime l) ->
      legs_left N (update k l) = legs_left N l - 1
      /\ (pulsing (update k l) = true ->
          pulseDuration (update k l) = pulseDuration l
          /\ lastPulseTime (update k l) = pulse_stamp k)).
Proof.
  intros HN Hinv. pose proof Hinv as [Hb Hcases].
  rewrite (update_pulse k l Hb).
  destruct (pulsing l) eqn:Hp.
  2:{ rewrite (runPulse_idle _ _ _ l Hp). split; [exact Hinv|]. discriminate. }
  destruct Hcases as (Hmax & Hhigh & Hst & Hc).
  unfold LED.runPulse. rewrite Hp.
  destruct (Z.leb_spec (pulseDuration l) (elapsed (pulse_start k) (lastPulseTime l)))
    as [Hd|Hd].
  - (* the leg ends at this poll *)
    destruct (pulseUp l) eqn:Hu.
    + rewrite setState_HIGH. simpl. rewrite Hmax.
      destruct (Z.eqb_spec N 0) as [->|HN0].
      * unfold pulse_progress, legs_left. simpl. rewrite Hb, Hhigh, Hp.
        split; [|intros _ _; split; [reflexivity | discriminate]].
        split; [reflexivity|]. split; [reflexivity|]. split; [reflexivity|].
        exists (writes l). reflexivity.
      * unfold pulsedEnough, pulse_progress, legs_left. simpl.
        rewrite Hmax, Hp, Hu.
        destruct (Z.ltb_spec 0 N); [|lia].
        destruct (Z.leb_spec N (pulseCount l)); [lia|]. simpl.
        rewrite ?Hb, ?Hmax, ?Hp, ?Hu. destruct (Z.ltb_spec 0 N); [|lia].
        repeat split; auto; lia.
    + destruct (Z.ltb_spec 0 N) as [Hpos|Hzero]; [|discriminate].
      rewrite Hmax. destruct (Z.eqb_spec N 0); [lia|].
      unfold pulsedEnough. simpl. rewrite Hmax.
      unfold to_uint. rewrite (wrap_small UINT_BITS (pulseCount l + 1)) by lia.
      destruct (Z.ltb_spec 0 N); [|lia].
      destruct (Z.leb_spec N (pulseCount l + 1)); simpl.
      * rewrite setState_LOW. unfold pulse_progress, legs_left. simpl.
        rewrite Hb, Hp, Hu. destruct (Z.ltb_spec 0 N); [|lia].
        split; [|intros _ _; split; [lia | discriminate]].
        split; [reflexivity|]. split; [reflexivity|].
        exists (writes l). reflexivity.
      * unfold pulse_progress, legs_left. simpl.
        rewrite ?Hb, ?Hp, ?Hu, ?Hmax. destruct (Z.ltb_spec 0 N); [|lia].
        repeat split; auto; lia.
  - (* the leg goes on *)
    destruct (pulseUp l) eqn:Hu;
      match goal with
      | |- context [pulsedEnough (if negb (level l =? ?d) then _ else _)] =>
          destruct (ramp_progress N high l d Hinv Hp) as (Hinv' & _ & _)
      end;
      (split; [exact Hinv' | intros _ Hdue; lia]).
Qed.

Lemma pulse_run (N high : Z) (ks : list ticks) :
  0 <= N < 2 ^ UINT_BITS ->
  forall l : LED, pulse_progress N high l -> pulse_progress N high (run ks l).
Proof.
  intros HN. induction ks as [|k ks IH]; intros l Hinv; simpl; [exact Hinv|].
  apply IH. apply (pulse_step N high k l HN Hinv).
Qed.

Lemma pulse_finishes (N high : Z) (ks : list ticks) :
  0 <= N < 2 ^ UINT_BITS ->
  forall l : LED,
  pulse_progress N high l ->
  paced pulse_start pulse_stamp (pulseDuration l) (lastPulseTime l) ks ->
  legs_left N l <= Z.of_nat (length ks) ->
  pulsing (run ks l) = false.
Proof.
  intros HN. induction ks as [|k ks IH]; intros l Hinv Hpaced Hlen.
  - simpl in *. unfold legs_left in Hlen. destruct Hinv as [_ Hinv].
    destruct (pulsing l); [|reflexivity]. exfalso.
    destruct (Z.ltb_spec 0 N); [|lia].
    destruct Hinv as (_ & _ & _ & Hc). destruct (pulseUp l); lia.
  - simpl in Hpaced. destruct Hpaced as [Hd Hpaced]. simpl.
    destruct (pulse_step N high k l HN Hinv) as [Hinv' Hdue].
    destruct (pulsing l) eqn:Hp.
    + destruct (Hdue eq_refl Hd) as [Hlegs Hkeep].
      destruct (pulsing (update k l)) eqn:Hp'.
      * destruct (Hkeep eq_refl) as [Hdur Hlast].
        apply (IH (update k l) Hinv').
        -- rewrite Hdur, Hlast. exact Hpaced.
        -- simpl in Hlen. lia.
      * destruct Hinv' as [Hb' _].
        rewrite (pulse_stopped ks _ Hb' Hp'). exact Hp'.
    + destruct Hinv as [Hb _].
      rewrite (update_pulse k l Hb), (runPulse_idle _ _ _ l Hp).
      rewrite (pulse_stopped ks l Hb Hp). exact Hp.
Qed.

(** C4, as the code has it. A pulse with a finite count of [N > 0] cycles
    keeps the output on while it runs. When it has completed its last cycle
    the animation is cleared and the output is switched off: the state is
    [LOW] and the last writes are those that switch the LED off, whatever
    level the ramp had reached. With polls a half-period apart the pulse
    stops within [2N] polls. *)
Theorem C4_pulse_completion
  (pDelay N low high now : Z) (l0 : LED) (ks : list ticks) :
  0 < N < 2 ^ UINT_BITS ->
  let l1 := initPulse pDelay N low high now l0 in
  let l := run ks l1 in
  (pulsing l = true -> state l = HIGH)
  /\ (pulsing l = false ->
      state l = LOW /\ exists ws, writes l = ws ++ off_writes l)
  /\ (paced pulse_start pulse_stamp (pulseDuration l1) now ks ->
      2 * N <= Z.of_nat (length ks) ->
      pulsing l = false).
Proof.
  intros HN0 l1 l.
  assert (HN : 0 <= N < 2 ^ UINT_BITS) by lia.
  assert (Hpos : (0 <? N) = true) by (apply Z.ltb_lt; lia).
  destruct (initPulse_fields pDelay N low high now l0)
    as (Hb1 & Hp1 & Hmax1 & Hhigh1 & Hc1 & Hu1 & Hst1 & Hlast).
  fold l1 in Hb1, Hp1, Hmax1, Hhigh1, Hc1, Hu1, Hst1, Hlast.
  assert (Hinv : pulse_progress N high l1).
  { unfold pulse_progress. rewrite Hb1, Hp1, Hmax1, Hhigh1, Hc1, Hu1, Hst1.
    destruct (Z.ltb_spec 0 N); repeat split; auto; lia. }
  assert (Hlegs : legs_left N l1 = if 0 <? N then 2 * N else 1).
  { unfold legs_left. rewrite Hp1, Hc1, Hu1. destruct (0 <? N); lia. }
  pose proof (pulse_run N high ks HN l1 Hinv) as [Hb Hrun]. fold l in Hb, Hrun.
  split; [|split].
  - intros Hp. rewrite Hp in Hrun. tauto.
  - intros Hp. rewrite Hp, Hpos in Hrun. exact Hrun.
  - intros Hpaced Hlen. apply (pulse_finishes N high ks HN l1 Hinv).
    + rewrite Hlast. exact Hpaced.
    + rewrite Hlegs, Hpos. exact Hlen.
Qed.

End Pulse.

End LEDProofs.

(** ** The theorems at concrete inputs *)

(** A press at 1000 ms, a bounce 5 ms later and the settled level: the press
    is committed at once, the bounce is seen and not committed. *)
Example press_with_bounce :
  let b := initialized_button in
  let press := Button.Build_sample LOW 1000 1000 in
  let bounce := Button.Build_sample HIGH 1005 1005 in
  let settled := Button.Build_sample LOW 1060 1060 in
  Button.oldState
    (Button.run 50 [press; bounce; settled] b) = LOW
  /\ Button.commits 50 bounce (Button.poll 50 press b) = false
  /\ Button.state (Button.poll 50 bounce (Button.poll 50 press b)) = HIGH.
Proof. repeat split; reflexivity. Qed.

(** A one-shot timer among quiet timers: added at 1000 ms with a period of
    100 ms, it takes the free slot 1, waits through the polls at 1050 and
    1099 ms, runs at 1100 ms and is free again. *)
Example one_shot_timer_run :
  let t := sparse_table in
  let quiet_run := fun (g : demo_callback) (m : Z)
                       (t' : list (Interval.slot demo_callback)) => t' in
  let t1 := <[1%nat := Interval.Build_slot (Some Beep) 1 100 1000 5 false]> t in
  let early := [at_time 1050; at_time 1099] in
  let c := at_time 1100 in
  let late := [at_time 1300] in
  let st1 := Interval.updates quiet_run early t1 in
  let st2 := Interval.update quiet_run c (fst st1) in
  let st3 := Interval.updates quiet_run late (fst st2) in
  ((length t <= 255)%nat
   /\ Interval.add (Some Beep) 100 1 5 1000 t = Continue (1%nat, t1) []
   /\ Forall (fun c' : Interval.clock => elapsed (fst (c' 1%nat)) 1000 < 100) early
   /\ 100 <= elapsed (fst (c 1%nat)) 1000)
  /\ Interval.lowest_free t 1
  /\ Interval.calls_of 1 (snd st1) = []
  /\ Interval.calls_of 1 (snd st2) = [(1%nat, Beep, 5)]
  /\ (exists s, fst st2 !! 1%nat = Some s /\ Interval.counts s = -1)
  /\ Interval.calls_of 1 (snd st3) = []
  /\ (exists s, fst st3 !! 1%nat = Some s /\ Interval.counts s = -1)
  /\ (forall g wait' count' msg' now',
        exists j, (j <= 1)%nat /\ Interval.lowest_free (fst st3) j
          /\ Interval.add g wait' count' msg' now' (fst st3)
             = Continue
                 (j, <[j := Interval.Build_slot g count' wait' now' msg' false]> (fst st3))
                 []).
Proof.
  intros t quiet_run t1 early c late st1 st2 st3.
  assert (H1 : (length t <= 255)%nat) by (simpl; lia).
  assert (H2 : forall (g : demo_callback) (m : Z) t', quiet_run g m t' = t')
    by reflexivity.
  assert (H3 : Interval.add (Some Beep) 100 1 5 1000 t = Continue (1%nat, t1) [])
    by reflexivity.
  assert (H4 : Forall (fun c' : Interval.clock => elapsed (fst (c' 1%nat)) 1000 < 100)
                 early)
    by (repeat (constructor; [reflexivity|]); constructor).
  assert (H5 : 100 <= elapsed (fst (c 1%nat)) 1000)
    by (apply Z.leb_le; reflexivity).
  split; [auto|].
  exact (one_shot_timer_with_quiet_callbacks quiet_run t Beep 100 5 1000 1%nat t1
           early c late H1 H2 H3 H4 H5).
Qed.

Lemma C6_witness :
  let c := at_time 1000 in
  let r := Interval.update demo_run c demo_table in
  fst r !! 1%nat = Some (Interval.Build_slot None (-1) 0 1000 0 false)
  /\ Interval.calls_of 1 (snd r) = [(1%nat, StopTimer 1, 1)]
  /\ (forall j sj, j <> 1%nat -> demo_table !! j = Some sj ->
        fst r !! j = Some (Interval.served (fst (c j)) (snd (c j)) sj)
        /\ Interval.calls_of j (snd r) = Interval.call_of j (fst (c j)) sj).
Proof.
  intros c r.
  apply (C6_self_clearing_callback demo_run c demo_table 1%nat
           (Interval.Build_slot (Some (StopTimer 1)) 5 50 0 1 false) (StopTimer 1)).
  - reflexivity.
  - reflexivity.
  - vm_compute. reflexivity.
  - reflexivity.
  - intros j sj g t' Hne Hj Hg.
    destruct j as [|[|[|j]]]; [| contradiction | |];
      cbn in Hj; try discriminate;
      injection Hj as <-; cbn in Hg; injection Hg as <-; reflexivity.
Defined.

(** The poll of [demo_table] at 1000 ms: timer 1 stops itself, timers 0 and
    2 run after it as they would without it. *)
Example demo_table_poll :
  Interval.update demo_run (at_time 1000) demo_table
  = ([ Interval.Build_slot (Some Beep) 0 100 1000 7 false;
       Interval.Build_slot None (-1) 0 1000 0 false;
       Interval.Build_slot (Some Beep) 1 10 1000 9 false ],
     [ (0%nat, Beep, 7); (1%nat, StopTimer 1, 1); (2%nat, Beep, 9) ]).
Proof. vm_compute. reflexivity. Qed.

Lemma C4_witness :
  let l1 := LED.initPulse 1000 1 50 200 0 led_off in
  let ks := [tick_at 500; tick_at 750; tick_at 1000] in
  let l := LED.run 16 ks l1 in
  0 < 1 < 2 ^ 16
  /\ (LED.pulsing l = true -> LED.state l = HIGH)
  /\ (LED.pulsing l = false ->
      LED.state l = LOW /\ exists ws, LED.writes l = ws ++ off_writes l)
  /\ (paced LED.pulse_start LED.pulse_stamp (LED.pulseDuration l1) 0 ks ->
      2 * 1 <= Z.of_nat (length ks) ->
      LED.pulsing l = false).
Proof.
  intros l1 ks l.
  assert (H : 0 < 1 < 2 ^ 16) by (split; [lia | reflexivity]).
  split; [exact H|].
  exact (C4_pulse_completion 16 1000 1 50 200 0 led_off ks H).
Defined.

(** C4, as worded, fails. A pulse of one cycle between 50 and 200 with a
    period of 1000 ms, polled at 500, 750 and 1000 ms: after the second poll
    the output is on at the ramp level 125; the third poll completes the
    cycle and switches the output off (state [LOW], 0 written), it does not
    leave it at the level the ramp had reached. *)
Lemma C4_counterexample :
  let l1 := LED.initPulse 1000 1 50 200 0 led_off in
  let l2 := LED.run 16 [tick_at 500; tick_at 750] l1 in
  let l3 := LED.update 16 (tick_at 1000) l2 in
  (LED.pulsing l2 = true /\ LED.state l2 = HIGH /\ LED.level l2 = 125
   /\ last (LED.writes l2) = Some (LED.AnalogWrite 9 125))
  /\ (LED.pulsing l3 = false /\ LED.state l3 = LOW
      /\ last (LED.writes l3) = Some (LED.AnalogWrite 9 0)).
Proof. vm_compute. repeat split; reflexivity. Qed.

(** From an LED that is on, 32768 is the largest count whose toggles fit
    an [unsigned int] of 16 bits: 65535 of them. *)
Lemma finite_blink_witness :
  let l1 := LED.initBlink 16 100 32768 0 led_on in
  let ks := [tick_at 50; tick_at 100; tick_at 150] in
  let more := [tick_at 200; tick_at 250] in
  let need := if LED.state led_on =? HIGH then 2 * 32768 - 1 else 2 * 32768 in
  (0 < 32768
   /\ (if LED.state led_on =? HIGH then 2 * 32768 - 1 else 2 * 32768) < 2 ^ 16)
  /\ Z.of_nat (LED.toggles 16 ks l1) <= need
  /\ (LED.blinking (LED.run 16 ks l1) = false ->
      Z.of_nat (LED.toggles 16 ks l1) = need
      /\ LED.state (LED.run 16 ks l1) = LOW
      /\ LED.toggles 16 more (LED.run 16 ks l1) = 0%nat)
  /\ (paced LED.blink_check LED.blink_stamp (LED.blinkDelay l1) 0 ks ->
      need <= Z.of_nat (length ks) ->
      LED.blinking (LED.run 16 ks l1) = false).
Proof.
  intros l1 ks more need.
  assert (H1 : 0 < 32768) by lia.
  assert (H2 : (if LED.state led_on =? HIGH then 2 * 32768 - 1 else 2 * 32768) < 2 ^ 16)
    by reflexivity.
  split; [auto|].
  exact (finite_blink_ends_off 16 100 32768 0 led_on ks more H1 H2).
Defined.

(** A blink of two from an LED that is on and the same blink from an LED
    that is off: 3 toggles and 4 toggles, both end off. *)
Example blink_twice :
  let ks := [tick_at 50; tick_at 100; tick_at 150; tick_at 200; tick_at 250] in
  (LED.toggles 16 ks (LED.initBlink 16 100 2 0 led_on),
   LED.state (LED.run 16 ks (LED.initBlink 16 100 2 0 led_on)),
   LED.blinking (LED.run 16 ks (LED.initBlink 16 100 2 0 led_on)))
  = (3%nat, LOW, false)
  /\ (LED.toggles 16 ks (LED.initBlink 16 100 2 0 led_off),
      LED.state (LED.run 16 ks (LED.initBlink 16 100 2 0 led_off)),
      LED.blinking (LED.run 16 ks (LED.initBlink 16 100 2 0 led_off)))
     = (4%nat, LOW, false).
Proof. vm_compute. split; reflexivity. Qed.

(** C5. A blink whose toggle count does not fit [unsigned int] never
    ends. With an [unsigned int] of 16 bits, [blink(100, 32768)] on an LED
    that is off computes [count * 2] as [65536 mod 65536 = 0] and stores it
    as the number of toggles, which is the mark of an endless blink: over
    any polls the blink is still running, where 65536 toggles that end with
    the output off were asked for. The same call on an LED that is on
    stores 65535, which fits. *)
Theorem C5_blink_count_wraps_to_endless :
  let l1 := LED.initBlink 16 100 32768 0 led_off in
  (0 < 32768 < 2 ^ 16 /\ LED.state led_off = LOW)
  /\ LED.to_uint 16 (32768 * 2) = 0
  /\ LED.blinkMax l1 = 0
  /\ (forall ks, LED.blinking (LED.run 16 ks l1) = true)
  /\ LED.blinkMax (LED.initBlink 16 100 32768 0 led_on) = 65535.
Proof.
  intros l1. split; [repeat split; reflexivity|]. split; [reflexivity|].
  split; [reflexivity|]. split; [|reflexivity].
  intros ks. apply endless_blink_runs_on; reflexivity.
Qed.

Lemma C10_witness :
  LED.state led_off = LOW /\ LED.fadeOut 300 1000 led_off = led_off.
Proof.
  split; [reflexivity|].
  apply (C10_fadeOut_when_off 300 1000 led_off). reflexivity.
Defined.

(** * Further properties *)

(** ** Interval scheduler *)

Section IntervalMore.
Import Interval.
Context {callback : Type}.
Variable run : callback -> Z -> list (slot callback) -> list (slot callback).

Local Abbreviation update := (update run).
Local Abbreviation updates := (updates run).

Implicit Types (t : list (slot callback)) (s : slot callback) (log : list (call callback)).

(** With callbacks that leave the table alone, the polls act on each slot
    apart. *)
Lemma updates_trace (k : nat) (cs : list clock) :
  (forall g m t', run g m t' = t') ->
  forall t log s,
  t !! k = Some s ->
  let r := fold_left (fun st c => let '(t', log') := update c (fst st) in
                                 (t', snd st ++ log')) cs (t, log) in
  length (fst r) = length t
  /\ fst r !! k = Some (slot_after k cs s)
  /\ calls_of k (snd r) = calls_of k log ++ slot_calls k cs s.
Proof.
  intros Hpure. induction cs as [|c cs IH]; intros t log s Hk; simpl.
  - rewrite app_nil_r. auto.
  - destruct (update_spec run (fun _ s => s) c t (pure_behaves run t Hpure))
      as [Hlen Hslots].
    destruct (Hslots k s Hk) as [Hs Hcalls].
    destruct (update c t) as [t1 log1]. simpl in *.
    destruct (IH t1 (log ++ log1) _ Hs) as (Hlen' & Hs' & Hcalls').
    split; [congruence|]. split; [exact Hs'|].
    rewrite Hcalls', calls_of_app, Hcalls, app_assoc. reflexivity.
Qed.

Lemma updates_slot (k : nat) (cs : list clock) t s :
  (forall g m t', run g m t' = t') ->
  t !! k = Some s ->
  length (fst (updates cs t)) = length t
  /\ fst (updates cs t) !! k = Some (slot_after k cs s)
  /\ calls_of k (snd (updates cs t)) = slot_calls k cs s.
Proof.
  intros Hpure Hk. apply (updates_trace k cs Hpure t [] s Hk).
Qed.

(** A slot that is not active, or is paused, stays as it is. *)
Lemma slot_idle (k : nat) (cs : list clock) s :
  (0 <=? counts s) && negb (paused s) = false ->
  slot_after k cs s = s /\ slot_calls k cs s = [].
Proof.
  intros Hidle.
  assert (Hdue : forall tc, due tc s = false).
  { intros tc. unfold due. rewrite Hidle. reflexivity. }
  induction cs as [|c cs IH]; simpl; [auto|].
  unfold served, served_by, call_of. rewrite Hdue. exact IH.
Qed.


(** *** Finite and endless timers *)

(** A slot with [n - m] runs left, after [m] runs, or used up. *)
Lemma finite_slot_run (k : nat) (f : callback) (wait msg n : Z) (cs : list clock) :
  0 < n ->
  forall s (m : Z),
  callbacks s = Some f -> paused s = false -> msgs s = msg -> waits s = wait ->
  (0 < counts s /\ counts s = n - m) \/ (counts s = -1 /\ m = n) ->
  let s' := slot_after k cs s in
  let runs := m + Z.of_nat (length (slot_calls k cs s)) in
  runs <= n
  /\ Forall (fun c => c = (k, f, msg)) (slot_calls k cs s)
  /\ counts s' = (if runs =? n then -1 else n - runs)
  /\ (0 < counts s -> clock_paced k wait (lastRuns s) cs ->
      runs = Z.min n (m + Z.of_nat (length cs))).
Proof.
  intros Hn. induction cs as [|c cs IH]; intros s m Hf Hp Hm Hw Hc; simpl.
  - rewrite Z.add_0_r.
    split; [destruct Hc as [[? ?] | [? ?]]; lia|]. split; [constructor|]. split.
    + destruct Hc as [[Hpos Hcount] | [Hcount ->]]; rewrite Hcount.
      * destruct (Z.eqb_spec m n); lia.
      * rewrite Z.eqb_refl. reflexivity.
    + intros Hpos _. destruct Hc as [[? ?] | [? ?]]; lia.
  - destruct (due (fst (c k)) s) eqn:Hdue.
    + (* the slot is served at this poll *)
      assert (Hpos : 0 < counts s).
      { unfold due in Hdue. destruct (Z.leb_spec 0 (counts s)); [|discriminate].
        destruct Hc as [[? _] | [? _]]; lia. }
      destruct Hc as [[_ Hcount] | [? _]]; [|lia].
      set (s1 := served (fst (c k)) (snd (c k)) s).
      assert (Hs1 : s1 = countdown (set_lastRuns (snd (c k)) s)).
      { subst s1. unfold served, served_by. rewrite Hdue. reflexivity. }
      assert (Hfields : callbacks s1 = Some f /\ paused s1 = false /\ msgs s1 = msg
                        /\ waits s1 = wait /\ lastRuns s1 = snd (c k)
                        /\ counts s1 = (if counts s - 1 =? 0 then -1 else counts s - 1)).
      { rewrite Hs1. unfold countdown. simpl. rewrite Hf.
        destruct (Z.ltb_spec 0 (counts s)); [|lia]. simpl.
        destruct (Z.eqb_spec (counts s - 1) 0); simpl; auto 10. }
      destruct Hfields as (Hf1 & Hp1 & Hm1 & Hw1 & Hl1 & Hc1).
      assert (Hcall : call_of k (fst (c k)) s = [(k, f, msg)]).
      { unfold call_of. rewrite Hdue, Hf, Hm. reflexivity. }
      rewrite Hcall. simpl.
      destruct (IH s1 (m + 1) Hf1 Hp1 Hm1 Hw1) as (Hle & Hall & Hcnt & Hpaced).
      { rewrite Hc1. destruct (Z.eqb_spec (counts s - 1) 0); [right | left]; lia. }
      fold s1.
      replace (m + Z.of_nat (S (length (slot_calls k cs s1))))
        with (m + 1 + Z.of_nat (length (slot_calls k cs s1))) by lia.
      split; [exact Hle|]. split; [constructor; [reflexivity | exact Hall]|].
      split; [exact Hcnt|].
      intros _ [_ Hrest]. rewrite Hl1 in Hpaced.
      destruct (Z.eqb_spec (counts s - 1) 0) as [Hz|Hz].
      * (* that was the last run *)
        assert (Hidle : (0 <=? counts s1) && negb (paused s1) = false)
          by (rewrite Hc1; reflexivity).
        destruct (slot_idle k cs s1 Hidle) as [_ ->]. simpl. lia.
      * rewrite Hpaced by (try exact Hrest; lia). lia.
    + (* the slot is left alone *)
      assert (Hs1 : served (fst (c k)) (snd (c k)) s = s).
      { unfold served, served_by. rewrite Hdue. reflexivity. }
      assert (Hcall : call_of k (fst (c k)) s = []).
      { unfold call_of. rewrite Hdue. reflexivity. }
      rewrite Hs1, Hcall. simpl.
      destruct (IH s m Hf Hp Hm Hw Hc) as (Hle & Hall & Hcnt & Hpaced).
      split; [exact Hle|]. split; [exact Hall|]. split; [exact Hcnt|].
      intros Hpos [Hd _]. exfalso.
      unfold due in Hdue. rewrite Hp, Hf, Hw in Hdue.
      destruct (Z.leb_spec 0 (counts s)); [|lia].
      destruct (Z.leb_spec wait (elapsed (fst (c k)) (lastRuns s))); [|lia].
      rewrite bool_decide_true in Hdue by discriminate. discriminate.
Qed.

(** X1. A timer added with a count [n > 0] (callbacks leave the table
    alone): over any polls its callback is run at most [n] times, always
    with its own message; the count left in the slot is [n] less the runs,
    and -1 once the [n] runs are done; when the polls are a period apart the
    timer has run at every poll until the [n] runs were done. *)
Theorem finite_timer_runs_count_times
  (t : list (slot callback)) (f : callback) (wait n msg now : Z) (k : nat)
  (t1 : list (slot callback)) (cs : list clock) :
  (length t <= 255)%nat ->
  (forall g m t', run g m t' = t') ->
  0 < n ->
  add (Some f) wait n msg now t = Continue (k, t1) [] ->
  let st := updates cs t1 in
  let runs := Z.of_nat (length (calls_of k (snd st))) in
  runs <= n
  /\ Forall (fun c => c = (k, f, msg)) (calls_of k (snd st))
  /\ (exists s, fst st !! k = Some s
        /\ counts s = (if runs =? n then -1 else n - runs))
  /\ (clock_paced k wait now cs -> runs = Z.min n (Z.of_nat (length cs))).
Proof.
  intros Hlen Hpure Hn Hadd st runs.
  destruct (add_lowest_free (Some f) wait n msg now t Hlen) as [_ Hadd'].
  destruct (Hadd' k t1 Hadd) as [Hfree ->]. clear Hadd'.
  assert (Hk : (k < length t)%nat).
  { destruct Hfree as [(s & Hs & _) _]. eapply lookup_lt_Some; eauto. }
  set (s0 := Build_slot (Some f) n wait now msg false) in *.
  assert (Hk0 : <[k := s0]> t !! k = Some s0) by (apply list_lookup_insert_eq; exact Hk).
  destruct (updates_slot k cs _ s0 Hpure Hk0) as (_ & Hs & Hcalls).
  fold st in Hs, Hcalls.
  destruct (finite_slot_run k f wait msg n cs Hn s0 0 eq_refl eq_refl eq_refl eq_refl)
    as (Hle & Hall & Hcnt & Hpaced).
  { left. simpl. lia. }
  rewrite Z.add_0_l in Hle, Hcnt, Hpaced. rewrite <- Hcalls in Hle, Hall, Hcnt, Hpaced.
  fold runs in Hle, Hcnt, Hpaced.
  split; [exact Hle|]. split; [exact Hall|]. split.
  - exists (slot_after k cs s0). split; [exact Hs | exact Hcnt].
  - intros Hp. apply Hpaced; [simpl; lia | exact Hp].
Qed.


Lemma endless_slot_run (k : nat) (f : callback) (wait msg : Z) (cs : list clock) :
  forall s,
  callbacks s = Some f -> paused s = false -> msgs s = msg -> waits s = wait ->
  counts s = 0 ->
  counts (slot_after k cs s) = 0
  /\ paused (slot_after k cs s) = false
  /\ Forall (fun c => c = (k, f, msg)) (slot_calls k cs s)
  /\ (length (slot_calls k cs s) <= length cs)%nat
  /\ (clock_paced k wait (lastRuns s) cs ->
      length (slot_calls k cs s) = length cs).
Proof.
  induction cs as [|c cs IH]; intros s Hf Hp Hm Hw Hc; simpl.
  - repeat split; auto.
  - destruct (due (fst (c k)) s) eqn:Hdue.
    + set (s1 := served (fst (c k)) (snd (c k)) s).
      assert (Hs1 : s1 = set_lastRuns (snd (c k)) s).
      { subst s1. unfold served, served_by, countdown. rewrite Hdue. simpl.
        rewrite Hc. reflexivity. }
      assert (Hcall : call_of k (fst (c k)) s = [(k, f, msg)]).
      { unfold call_of. rewrite Hdue, Hf, Hm. reflexivity. }
      rewrite Hcall. simpl.
      destruct (IH s1) as (Hc' & Hp' & Hall & Hle & Hpaced);
        try (rewrite Hs1; simpl; assumption).
      fold s1. split; [exact Hc'|]. split; [exact Hp'|].
      split; [constructor; [reflexivity | exact Hall]|].
      split; [lia|].
      intros [_ Hrest]. f_equal. apply Hpaced. rewrite Hs1. exact Hrest.
    + assert (Hs1 : served (fst (c k)) (snd (c k)) s = s).
      { unfold served, served_by. rewrite Hdue. reflexivity. }
      assert (Hcall : call_of k (fst (c k)) s = []).
      { unfold call_of. rewrite Hdue. reflexivity. }
      rewrite Hs1, Hcall. simpl.
      destruct (IH s Hf Hp Hm Hw Hc) as (Hc' & Hp' & Hall & Hle & Hpaced).
      split; [exact Hc'|]. split; [exact Hp'|]. split; [exact Hall|].
      split; [lia|].
      intros [Hd _]. exfalso.
      unfold due in Hdue. rewrite Hp, Hf, Hw, Hc in Hdue.
      destruct (Z.leb_spec wait (elapsed (fst (c k)) (lastRuns s))); [|lia].
      rewrite bool_decide_true in Hdue by discriminate. discriminate.
Qed.

(** X2. A timer added with count 0 (callbacks leave the table alone) is
    never used up: over any polls its count stays 0 and it stays unpaused,
    every run is a call of its callback with its message, and when the
    polls are a period apart it runs at every poll. *)
Theorem endless_timer_keeps_running
  (t : list (slot callback)) (f : callback) (wait msg now : Z) (k : nat)
  (t1 : list (slot callback)) (cs : list clock) :
  (length t <= 255)%nat ->
  (forall g m t', run g m t' = t') ->
  add (Some f) wait 0 msg now t = Continue (k, t1) [] ->
  let st := updates cs t1 in
  (exists s, fst st !! k = Some s /\ counts s = 0 /\ paused s = false)
  /\ Forall (fun c => c = (k, f, msg)) (calls_of k (snd st))
  /\ (length (calls_of k (snd st)) <= length cs)%nat
  /\ (clock_paced k wait now cs -> length (calls_of k (snd st)) = length cs).
Proof.
  intros Hlen Hpure Hadd st.
  destruct (add_lowest_free (Some f) wait 0 msg now t Hlen) as [_ Hadd'].
  destruct (Hadd' k t1 Hadd) as [Hfree ->]. clear Hadd'.
  assert (Hk : (k < length t)%nat).
  { destruct Hfree as [(s & Hs & _) _]. eapply lookup_lt_Some; eauto. }
  set (s0 := Build_slot (Some f) 0 wait now msg false) in *.
  assert (Hk0 : <[k := s0]> t !! k = Some s0) by (apply list_lookup_insert_eq; exact Hk).
  destruct (updates_slot k cs _ s0 Hpure Hk0) as (_ & Hs & Hcalls).
  fold st in Hs, Hcalls. rewrite Hcalls.
  destruct (endless_slot_run k f wait msg cs s0 eq_refl eq_refl eq_refl eq_refl eq_refl)
    as (Hc & Hp & Hall & Hle & Hpaced).
  split; [exists (slot_after k cs s0); auto|].
  split; [exact Hall|]. split; [exact Hle|]. exact Hpaced.
Qed.

(** *** Pause, resume, clear *)

Lemma lookup_active (k : nat) t s :
  t !! k = Some s -> 0 <= counts s ->
  (length t <=? k)%nat = false /\ is_active k t = true.
Proof.
  intros Hk Hc. pose proof (lookup_lt_Some _ _ _ Hk) as Hlt. split.
  - apply Nat.leb_gt. exact Hlt.
  - unfold is_active. rewrite Hk. apply Z.leb_le. exact Hc.
Qed.

(** X3. [pause] on an active timer (callbacks leave the table alone): no
    poll runs it while it is paused, whatever the clock reads, and its slot
    is kept; [resume] at the reading [now] restarts its period there: the
    polls at which less than a period has passed since [now] do not run it,
    however long it was paused. *)
Theorem paused_timer_waits_for_resume
  (t : list (slot callback)) (k : nat) (s : slot callback) (now : Z)
  (cs cs' : list clock) :
  (forall g m t', run g m t' = t') ->
  t !! k = Some s -> 0 <= counts s ->
  let st := updates cs (pause k t) in
  let tr := resume k now (fst st) in
  calls_of k (snd st) = []
  /\ fst st !! k = Some (set_paused true s)
  /\ tr !! k = Some (set_lastRuns now (set_paused false s))
  /\ (Forall (fun c : clock => elapsed (fst (c k)) now < waits s) cs' ->
      calls_of k (snd (updates cs' tr)) = []).
Proof.
  intros Hpure Hk Hc st tr.
  destruct (lookup_active k t s Hk Hc) as [Hin Hact].
  assert (Hp : pause k t !! k = Some (set_paused true s)).
  { unfold pause. rewrite Hin, Hact, list_lookup_alter_eq, Hk. reflexivity. }
  destruct (updates_slot k cs _ _ Hpure Hp) as (_ & Hs & Hcalls).
  destruct (slot_idle k cs (set_paused true s)) as [Hafter Hnone].
  { simpl. apply andb_false_r. }
  rewrite Hafter in Hs. rewrite Hnone in Hcalls. fold st in Hs, Hcalls.
  split; [exact Hcalls|]. split; [exact Hs|].
  assert (Hr : tr !! k = Some (set_lastRuns now (set_paused false s))).
  { subst tr. destruct (lookup_active k (fst st) _ Hs Hc) as [Hin' Hact'].
    unfold resume. rewrite Hin', Hact', list_lookup_alter_eq, Hs. reflexivity. }
  split; [exact Hr|].
  intros Hearly.
  assert (Hidle : Forall (fun c : clock =>
             due (fst (c k)) (set_lastRuns now (set_paused false s)) = false) cs').
  { eapply Forall_impl; [exact Hearly|]. intros c Hlt. cbv beta in Hlt.
    unfold due. simpl.
    destruct (Z.leb_spec (waits s) (elapsed (fst (c k)) now)); [lia|].
    apply andb_false_r. }
  apply (updates_idle_nil run k _ cs' tr Hpure Hidle Hr).
Qed.

(** X4. [clear] on a slot of the table (callbacks leave the table alone)
    leaves the other slots as they are; the cleared timer is not run by any
    later poll; and the next [add] does not halt: it takes the cleared slot
    or a free slot below it. [clear] with an index outside the table does
    nothing. *)
Theorem cleared_timer_is_gone
  (t : list (slot callback)) (k : nat) (cs : list clock)
  (g : option callback) (wait count msg now : Z) :
  (length t <= 255)%nat ->
  (forall g m t', run g m t' = t') ->
  (k < length t)%nat ->
  (forall j, j <> k -> clear k t !! j = t !! j)
  /\ calls_of k (snd (updates cs (clear k t))) = []
  /\ fst (updates cs (clear k t)) !! k = Some cleared
  /\ (exists j, (j <= k)%nat
        /\ add g wait count msg now (clear k t)
           = Continue (j, <[j := Build_slot g count wait now msg false]> (clear k t)) [])
  /\ (forall k', (length t <= k')%nat -> clear k' t = t).
Proof.
  intros Hlen Hpure Hk.
  assert (Hclear : clear k t = <[k := cleared]> t).
  { unfold clear. destruct (Nat.ltb_spec k (length t)); [reflexivity | lia]. }
  assert (Hk0 : clear k t !! k = Some cleared).
  { rewrite Hclear. apply list_lookup_insert_eq. exact Hk. }
  split.
  { intros j Hj. rewrite Hclear. apply list_lookup_insert_ne. congruence. }
  destruct (updates_slot k cs _ _ Hpure Hk0) as (_ & Hs & Hcalls).
  destruct (slot_idle k cs (@cleared callback) eq_refl) as [Hafter Hnone].
  rewrite Hafter in Hs. rewrite Hnone in Hcalls.
  split; [exact Hcalls|]. split; [exact Hs|]. split.
  - destruct (lowest_free_below (clear k t) k cleared Hk0 eq_refl) as (j & Hj & Hlow).
    exists j. split; [exact Hj|].
    assert (Hlen' : (length (clear k t) <= 255)%nat).
    { rewrite Hclear, length_insert. exact Hlen. }
    destruct (add_lowest_free g wait count msg now (clear k t) Hlen') as [Hgo _].
    apply Hgo. exact Hlow.
  - intros k' Hk'. unfold clear.
    destruct (Nat.ltb_spec k' (length t)); [lia | reflexivity].
Qed.

(** X5. [add] on a table of at most 255 slots halts, with its message on
    [Serial], exactly when no slot has the count -1. When it returns, the
    slot it took holds the new timer, unpaused and stamped with the reading
    of [millis()], and every other slot is as before. *)
Theorem add_halts_when_full
  (t : list (slot callback)) (g : option callback) (wait count msg now : Z) :
  (length t <= 255)%nat ->
  ((forall j s, t !! j = Some s -> counts s <> -1) <->
   add g wait count msg now t
   = Halted ["FATAL ERROR: All interval slots used. Increase TOTAL_INTERVALS. Halting."%string])
  /\ (forall k t', add g wait count msg now t = Continue (k, t') [] ->
        length t' = length t
        /\ t' !! k = Some (Build_slot g count wait now msg false)
        /\ forall j, j <> k -> t' !! j = t !! j).
Proof.
  intros Hlen. split.
  - split.
    + intros Hnone. unfold add, findSlot.
      destruct (findSlot_from_spec t 0) as [(j & _ & (s & Hs & Hc) & _) | [Hf _]].
      * exfalso. apply (Hnone j s Hs Hc).
      * rewrite Hf.
        assert (Hno : no_slot = 255%nat) by reflexivity.
        destruct (Nat.leb_spec (length t) no_slot); [reflexivity | lia].
    + intros Hhalt j s Hs Hc.
      destruct (lowest_free_below t j s Hs Hc) as (i & _ & Hlow).
      destruct (add_lowest_free g wait count msg now t Hlen) as [Hgo _].
      rewrite (Hgo i Hlow) in Hhalt. discriminate.
  - intros k t' Hadd.
    destruct (add_lowest_free g wait count msg now t Hlen) as [_ Hadd'].
    destruct (Hadd' k t' Hadd) as [[(s & Hs & _) _] ->].
    pose proof (lookup_lt_Some _ _ _ Hs) as Hlt.
    split; [apply length_insert|]. split.
    + apply list_lookup_insert_eq. exact Hlt.
    + intros j Hj. apply list_lookup_insert_ne. congruence.
Qed.

(** *** The clock *)

Lemma elapsed_after (last d : Z) :
  0 <= d < 2 ^ 32 -> elapsed (to_ulong (last + d)) last = d.
Proof.
  intros Hd. unfold elapsed, to_ulong, wrap.
  rewrite Zminus_mod_idemp_l.
  replace (last + d - last) with d by lia.
  apply Z.mod_small. exact Hd.
Qed.

(** X6. The test of [update] is safe at the roll-over of [millis()]. For a
    timer that is active, unpaused and has a callback (callbacks leave the
    table alone), at a poll whose reading is taken [d] milliseconds after
    the stamp of the timer ([d] below [2^32]) the callback is run if and
    only if the period is at most [d], wherever the stamp lies and whether
    or not the counter has rolled over in between. *)
Theorem timer_due_across_rollover
  (t : list (slot callback)) (k : nat) (s : slot callback) (f : callback)
  (c : clock) (d : Z) :
  (forall g m t', run g m t' = t') ->
  t !! k = Some s ->
  0 <= counts s -> paused s = false -> callbacks s = Some f ->
  0 <= d < 2 ^ 32 ->
  fst (c k) = to_ulong (lastRuns s + d) ->
  calls_of k (snd (update c t)) = if waits s <=? d then [(k, f, msgs s)] else [].
Proof.
  intros Hpure Hk Hc Hp Hf Hd Hread.
  destruct (update_spec run (fun _ s => s) c t (pure_behaves run t Hpure)) as [_ Hslots].
  destruct (Hslots k s Hk) as [_ Hcalls]. rewrite Hcalls.
  unfold call_of, due. rewrite Hread, (elapsed_after _ _ Hd), Hp, Hf.
  destruct (Z.leb_spec 0 (counts s)); [|lia].
  rewrite bool_decide_true by discriminate. simpl.
  destruct (waits s <=? d); reflexivity.
Qed.

End IntervalMore.

(** *** Handles of the device *)

Section TimerHandles.
Import Interval.
Context {callback : Type}.
Variable run : callback -> Z -> list (slot callback) -> list (slot callback).

Local Abbreviation updates := (updates run).

Implicit Types (t : list (slot callback)) (s : slot callback).

Lemma setMessage_active (k : nat) (msg : Z) t s :
  t !! k = Some s -> 0 <= counts s ->
  setMessage k msg t !! k = Some (set_msgs msg s)
  /\ forall j, j <> k -> setMessage k msg t !! j = t !! j.
Proof.
  intros Hk Hc. unfold setMessage, is_active. rewrite Hk.
  pose proof (lookup_lt_Some _ _ _ Hk) as Hlt.
  destruct (Nat.leb_spec (length t) k); [lia|].
  destruct (Z.leb_spec 0 (counts s)); [|lia].
  split.
  - rewrite list_lookup_alter_eq, Hk. reflexivity.
  - intros j Hj. apply list_lookup_alter_ne. congruence.
Qed.

(** X7. [after(delay, f).withMessage(msg)], called between polls on a
    table of at most 255 timers whose callbacks all leave the table alone
    (none of them starts, stops, pauses or resumes a timer): the message is
    stored in the slot of the new timer and in no other slot; over any polls
    [f] is run at most once, with [msg] as its argument, and when the polls
    are a period apart it is run at the first poll. A message set on a slot
    that is not active, or on an index outside the table, changes nothing. *)
Theorem one_shot_carries_its_message
  (t : list (slot callback)) (f : callback) (delayMs msg now : Z) (k : nat)
  (t1 : list (slot callback)) (cs : list clock) :
  (length t <= 255)%nat ->
  (forall g m t', run g m t' = t') ->
  Device.after delayMs (Some f) now t = Continue (k, t1) [] ->
  let t2 := Device.withMessage k msg t1 in
  let log := calls_of k (snd (updates cs t2)) in
  (t2 !! k = Some (Build_slot (Some f) 1 delayMs now msg false)
   /\ forall j, j <> k -> t2 !! j = t !! j)
  /\ (log = [] \/ log = [(k, f, msg)])
  /\ (clock_paced k delayMs now cs -> cs <> [] -> log = [(k, f, msg)])
  /\ (forall j m t', is_active j t' = false -> Device.withMessage j m t' = t').
Proof.
  intros Hlen Hpure Hadd t2 log.
  unfold Device.after in Hadd.
  destruct (add_lowest_free (Some f) delayMs 1 0 now t Hlen) as [_ Hinv].
  destruct (Hinv k t1 Hadd) as [[(s0 & Hk0 & _) _] Ht1].
  pose proof (lookup_lt_Some _ _ _ Hk0) as Hlt.
  assert (Hk1 : t1 !! k = Some (Build_slot (Some f) 1 delayMs now 0 false)).
  { rewrite Ht1. apply list_lookup_insert_eq. exact Hlt. }
  destruct (setMessage_active k msg t1 _ Hk1) as [Hk2 Hother]; [simpl; lia|].
  change (setMessage k msg t1) with t2 in Hk2, Hother.
  change (set_msgs msg (Build_slot (Some f) 1 delayMs now 0 false))
    with (Build_slot (Some f) 1 delayMs now msg false) in Hk2.
  split.
  { split; [exact Hk2|]. intros j Hj. rewrite (Hother j Hj), Ht1.
    apply list_lookup_insert_ne. congruence. }
  destruct (updates_slot run k cs t2 _ Hpure Hk2) as (_ & _ & Hcalls).
  destruct (finite_slot_run k f delayMs msg 1 cs ltac:(lia)
              (Build_slot (Some f) 1 delayMs now msg false) 0
              eq_refl eq_refl eq_refl eq_refl)
    as (Hle & Hall & _ & Hpaced); [left; simpl; lia|].
  subst log. rewrite Hcalls.
  destruct (slot_calls k cs (Build_slot (Some f) 1 delayMs now msg false))
    as [|c1 [|c2 rest]] eqn:Hlog.
  - split; [left; reflexivity|]. split; [|].
    + intros Hp Hne. exfalso. specialize (Hpaced ltac:(simpl; lia) Hp).
      destruct cs; [congruence|]. simpl in Hpaced. lia.
    + intros j m t' Hj. unfold Device.withMessage, Device._setIntervalMessage, setMessage.
      rewrite Hj. destruct (length t' <=? j)%nat; reflexivity.
  - inversion Hall as [|? ? Hc1 _]; subst.
    split; [right; reflexivity|]. split; [intros _ _; reflexivity|].
    intros j m t' Hj. unfold Device.withMessage, Device._setIntervalMessage, setMessage.
    rewrite Hj. destruct (length t' <=? j)%nat; reflexivity.
  - simpl in Hle. lia.
Qed.

(** A slot whose count is negative is never run. *)
Lemma negative_count_idle (k : nat) (cs : list clock) t s :
  (forall g m t', run g m t' = t') ->
  t !! k = Some s -> counts s < 0 ->
  fst (updates cs t) !! k = Some s /\ calls_of k (snd (updates cs t)) = [].
Proof.
  intros Hpure Hk Hc.
  destruct (updates_slot run k cs t s Hpure Hk) as (_ & Hs & Hcalls).
  assert (Hidle : (0 <=? counts s) && negb (paused s) = false).
  { destruct (Z.leb_spec 0 (counts s)); [lia | reflexivity]. }
  destruct (slot_idle k cs s Hidle) as [Ha Hn].
  rewrite Ha in Hs. rewrite Hn in Hcalls. auto.
Qed.

(** X8. [repeat] takes its count as [unsigned int] and hands it to [add],
    whose count is an [int]. A count above the largest [int] arrives as a
    negative number: the timer is stored but no poll ever runs it (callbacks
    leave the table alone). With the largest [unsigned int] the stored count
    is -1, the mark of a free slot, and the next [add] hands out the same
    slot again; with the other counts the slot is not free for [add]. *)
Theorem repeat_count_beyond_int_never_runs
  (UINT_BITS : Z) (t : list (slot callback)) (f : option callback)
  (delayMs count now : Z) (k : nat) (t1 : list (slot callback)) (cs : list clock) :
  (length t <= 255)%nat ->
  (forall g m t', run g m t' = t') ->
  2 ^ (UINT_BITS - 1) <= count < 2 ^ UINT_BITS ->
  Device.repeat UINT_BITS delayMs count f now t = Continue (k, t1) [] ->
  calls_of k (snd (updates cs t1)) = []
  /\ fst (updates cs t1) !! k
     = Some (Build_slot f (count - 2 ^ UINT_BITS) delayMs now 0 false)
  /\ (count = 2 ^ UINT_BITS - 1 ->
      forall g wait' count' msg' now',
      exists t2, add g wait' count' msg' now' t1 = Continue (k, t2) [])
  /\ (count < 2 ^ UINT_BITS - 1 ->
      forall g wait' count' msg' now' j t2,
      add g wait' count' msg' now' t1 = Continue (j, t2) [] -> j <> k).
Proof.
  intros Hlen Hpure Hcount Hadd.
  unfold Device.repeat, Device.to_int in Hadd.
  destruct (Z.ltb_spec count (2 ^ (UINT_BITS - 1))); [lia|].
  set (c := count - 2 ^ UINT_BITS) in *.
  assert (Hneg : c < 0) by (subst c; lia).
  destruct (add_lowest_free f delayMs c 0 now t Hlen) as [_ Hinv].
  destruct (Hinv k t1 Hadd) as [[(s0 & Hk0 & Hfree) Hbelow] Ht1].
  pose proof (lookup_lt_Some _ _ _ Hk0) as Hlt.
  assert (Hk1 : t1 !! k = Some (Build_slot f c delayMs now 0 false)).
  { rewrite Ht1. apply list_lookup_insert_eq. exact Hlt. }
  assert (Hlen1 : (length t1 <= 255)%nat) by (rewrite Ht1, length_insert; exact Hlen).
  destruct (negative_count_idle k cs t1 _ Hpure Hk1 Hneg) as [Hs Hcalls].
  split; [exact Hcalls|]. split; [exact Hs|]. split.
  - intros Hmax g wait' count' msg' now'.
    assert (Hlow : lowest_free t1 k).
    { split.
      - eexists. split; [exact Hk1|]. simpl. subst c. lia.
      - intros j s Hj Hjs. apply (Hbelow j s Hj).
        rewrite Ht1, list_lookup_insert_ne in Hjs by lia. exact Hjs. }
    destruct (add_lowest_free g wait' count' msg' now' t1 Hlen1) as [Hgo _].
    eexists. apply Hgo. exact Hlow.
  - intros Hless g wait' count' msg' now' j t2 Hadd2 ->.
    destruct (add_lowest_free g wait' count' msg' now' t1 Hlen1) as [_ Hinv2].
    destruct (Hinv2 k t2 Hadd2) as [[(s1 & Hs1 & Hfree1) _] _].
    rewrite Hk1 in Hs1. injection Hs1 as <-. simpl in Hfree1. subst c. lia.
Qed.

End TimerHandles.

(** ** Analog sensor *)

Section AnalogMore.
Import AnalogSensor.

Variable board : Board.

Local Abbreviation computeHiRes := (AnalogSensor.computeHiRes board).
Local Abbreviation V_potential := (AnalogSensor.V_potential board).
Local Abbreviation performInitialRead := (AnalogSensor.performInitialRead board).
Local Abbreviation stabilize := (AnalogSensor.stabilize board).
Local Abbreviation commit := (AnalogSensor.commit board).
Local Abbreviation update := (AnalogSensor.update board).
Local Abbreviation value := (AnalogSensor.value board).
Local Abbreviation sensor_events := (sensor_events board).
Local Abbreviation sensor_run := (sensor_run board).
Local Abbreviation measured := (measured board).

(** *** What a poll leaves alone *)

Lemma same_config_refl (s : AnalogSensor) : same_config s s.
Proof. unfold same_config. repeat split. Qed.

Lemma same_config_trans (s1 s2 s3 : AnalogSensor) :
  same_config s1 s2 -> same_config s2 s3 -> same_config s1 s3.
Proof. unfold same_config. intuition congruence. Qed.

Lemma accumulate_config (rawValue : Z) (s : AnalogSensor) :
  same_config s (accumulate rawValue s)
  /\ currentReportedValue (accumulate rawValue s) = currentReportedValue s
  /\ currentValue (accumulate rawValue s) = currentValue s
  /\ hasInitialRead (accumulate rawValue s) = hasInitialRead s
  /\ previousZoneID (accumulate rawValue s) = previousZoneID s.
Proof.
  unfold accumulate, average, same_config.
  destruct (1 <? avgSamples s); simpl; repeat split.
Qed.

Lemma commit_config (s : AnalogSensor) :
  same_config s (fst (commit s))
  /\ hasInitialRead (fst (commit s)) = hasInitialRead s
  /\ hiResValue (fst (commit s)) = hiResValue s.
Proof.
  unfold commit, same_config. destruct (stabilize s) as [v []]; simpl.
  - destruct (hasChangeFunc s); simpl; repeat split.
  - repeat split.
Qed.

Lemma classify_config (s : AnalogSensor) :
  same_config s (fst (classify s))
  /\ hasInitialRead (fst (classify s)) = hasInitialRead s
  /\ currentReportedValue (fst (classify s)) = currentReportedValue s
  /\ currentValue (fst (classify s)) = currentValue s.
Proof.
  unfold classify, same_config. destruct (0 <? zone_count s); simpl; [|repeat split].
  destruct (findZoneForValue s (currentReportedValue s) =? previousZoneID s); simpl.
  - repeat split.
  - destruct (hasZoneChangeFunc s); simpl; repeat split.
Qed.

Lemma performInitialRead_config (rawValue : Z) (s : AnalogSensor) :
  same_config s (performInitialRead rawValue s)
  /\ hasInitialRead (performInitialRead rawValue s) = true
  /\ avgCount (performInitialRead rawValue s) = 0
  /\ accumulatedSum (performInitialRead rawValue s) = 0
  /\ currentValue (performInitialRead rawValue s)
     = currentReportedValue (performInitialRead rawValue s).
Proof.
  unfold performInitialRead, same_config, zone_count.
  destruct (1 <? avgSamples s); simpl;
    destruct (0 <? quantizeStep s); simpl;
    destruct (0 <? Z.of_nat (length (defined_zones s))); simpl; repeat split.
Qed.


(** *** The two kinds of poll *)

Lemma update_measured (rawValue : Z) (s : AnalogSensor) :
  hasInitialRead s = true -> completes_window rawValue s = true ->
  update rawValue s =
    (set_avgCount 0
       (set_accumulatedSum 0 (fst (classify (fst (commit (measured rawValue s)))))),
     snd (commit (measured rawValue s))
     ++ snd (classify (fst (commit (measured rawValue s))))).
Proof.
  intros Hi Hw. unfold update, completes_window, measured in *.
  rewrite Hi, Hw. simpl.
  destruct (commit _) as [s3 ev1]. simpl. destruct (classify s3) as [s4 ev2].
  reflexivity.
Qed.

Lemma measured_config (rawValue : Z) (s : AnalogSensor) :
  same_config s (measured rawValue s)
  /\ currentReportedValue (measured rawValue s) = currentReportedValue s
  /\ currentValue (measured rawValue s) = currentValue s
  /\ hasInitialRead (measured rawValue s) = hasInitialRead s
  /\ previousZoneID (measured rawValue s) = previousZoneID s
  /\ hiResValue (measured rawValue s)
     = computeHiRes (accumulatedSum (accumulate rawValue s)
                     / avgSamples (accumulate rawValue s)) (accumulate rawValue s).
Proof.
  destruct (accumulate_config rawValue s) as (Hc & Hr & Hv & Hi & Hz).
  unfold measured, same_config in *. simpl. intuition.
Qed.

Lemma update_config (rawValue : Z) (s : AnalogSensor) :
  same_config s (fst (update rawValue s))
  /\ hasInitialRead (fst (update rawValue s)) = true.
Proof.
  destruct (hasInitialRead s) eqn:Hi.
  - destruct (completes_window rawValue s) eqn:Hw.
    + rewrite (update_measured rawValue s Hi Hw). simpl.
      destruct (measured_config rawValue s) as (H1 & _ & _ & Hi1 & _).
      destruct (commit_config (measured rawValue s)) as (H2 & Hi2 & _).
      destruct (classify_config (fst (commit (measured rawValue s)))) as (H3 & Hi3 & _).
      split.
      * apply (same_config_trans _ _ _ H1). apply (same_config_trans _ _ _ H2).
        unfold same_config in *. simpl. exact H3.
      * congruence.
    + rewrite (update_not_completing board rawValue s Hi Hw). simpl.
      destruct (accumulate_config rawValue s) as (Hc & _ & _ & Hi' & _).
      split; [exact Hc | congruence].
  - unfold update. rewrite Hi. simpl.
    destruct (performInitialRead_config rawValue s) as (Hc & Hi' & _).
    split; assumption.
Qed.

(** *** The output range *)

Lemma clamp_range (lo hi v : Z) : lo <= hi -> lo <= clamp lo hi v <= hi.
Proof.
  intros H. unfold clamp.
  destruct (Z.ltb_spec v lo); [destruct (Z.ltb_spec hi lo) | destruct (Z.ltb_spec hi v)];
    lia.
Qed.

Lemma computeHiRes_range (avgValue : Z) (s : AnalogSensor) :
  outputMin s <= outputMax s -> in_output_range s (computeHiRes avgValue s).
Proof.
  intros H. unfold in_output_range, AnalogSensor.computeHiRes.
  set (mapped := to_signed _ (arduino_map _ _ _ _ _)).
  pose proof (clamp_range (outputMin s) (outputMax s) mapped H).
  destruct (inverted s); lia.
Qed.

Lemma stabilize_value (s : AnalogSensor) :
  fst (stabilize s) = V_potential s \/ fst (stabilize s) = hiResValue s.
Proof.
  unfold stabilize.
  repeat match goal with
  | |- context [if ?b then _ else _] => destruct b; simpl
  end; auto.
Qed.

(** What the commit phase does with the outcome of the mode selection. *)
Lemma commit_cases (s : AnalogSensor) :
  currentReportedValue (fst (commit s))
  = (if snd (stabilize s) then fst (stabilize s) else currentReportedValue s)
  /\ currentValue (fst (commit s))
     = (if snd (stabilize s) then fst (stabilize s) else currentValue s)
  /\ changes (snd (commit s))
     = (if snd (stabilize s) && hasChangeFunc s then [fst (stabilize s)] else []).
Proof.
  unfold commit. destruct (stabilize s) as [v []]; simpl.
  - destruct (hasChangeFunc s); simpl; auto.
  - auto.
Qed.

(** The reported value and the events of a poll that completes a window, in
    terms of the mode selection. *)
Lemma update_reported (rawValue : Z) (s : AnalogSensor) :
  hasInitialRead s = true -> completes_window rawValue s = true ->
  let m := measured rawValue s in
  currentReportedValue (fst (update rawValue s))
  = (if snd (stabilize m) then fst (stabilize m) else currentReportedValue s)
  /\ currentValue (fst (update rawValue s))
     = (if snd (stabilize m) then fst (stabilize m) else currentValue s)
  /\ changes (snd (update rawValue s))
     = (if snd (stabilize m) && hasChangeFunc s then [fst (stabilize m)] else [])
  /\ hiResValue (fst (update rawValue s)) = hiResValue m.
Proof.
  intros Hi Hw m. rewrite (update_measured rawValue s Hi Hw). simpl. fold m.
  destruct (measured_config rawValue s) as (Hcfg & Hr & Hv & _ & _ & _).
  fold m in Hcfg, Hr, Hv.
  destruct (commit_cases m) as (Hr' & Hv' & Hev).
  destruct (classify_config (fst (commit m))) as (_ & _ & Hr'' & Hv'').
  destruct (classify_frame (fst (commit m))) as (Hh & _ & _ & _ & Hch).
  destruct (commit_config m) as (_ & _ & Hh').
  rewrite Hr'', Hv'', Hr', Hv', Hr, Hv, Hh, Hh'.
  unfold changes in *. rewrite flat_map_app, Hch, app_nil_r, Hev.
  destruct Hcfg as (_ & _ & _ & _ & _ & _ & _ & _ & _ & _ & -> & _).
  auto.
Qed.

(** X9. With an output range that is not empty, the value a sensor reports
    is within the range from its first poll on, in each of the three modes:
    after the poll that makes the initial read and after every later poll
    the reported value and the value that [value()] returns are the same
    and lie between [outputMin] and [outputMax], and so does every value
    handed to the change callback. *)
Theorem reported_value_stays_in_range
  (s : AnalogSensor) (rawValue : Z) (raws : list Z) :
  hasInitialRead s = false ->
  outputMin s <= outputMax s ->
  let s1 := fst (update rawValue s) in
  let s' := sensor_run raws s1 in
  in_output_range s (currentReportedValue s')
  /\ currentValue s' = currentReportedValue s'
  /\ Forall (in_output_range s) (changes (sensor_events raws s1)).
Proof.
  intros Hi Hrange s1 s'.
  assert (Hinv : forall raws (x : AnalogSensor),
             same_config s x -> hasInitialRead x = true ->
             in_output_range s (currentReportedValue x) ->
             currentValue x = currentReportedValue x ->
             in_output_range s (currentReportedValue (sensor_run raws x))
             /\ currentValue (sensor_run raws x) = currentReportedValue (sensor_run raws x)
             /\ Forall (in_output_range s) (changes (sensor_events raws x))).
  { clear raws s1 s'. induction raws as [|r raws IH]; intros x Hcfg Hix Hin Hval; simpl.
    - split; [exact Hin|]. split; [exact Hval | constructor].
    - destruct (update_config r x) as [Hcfg' Hix'].
      assert (Hstep : in_output_range s (currentReportedValue (fst (update r x)))
                /\ currentValue (fst (update r x)) = currentReportedValue (fst (update r x))
                /\ Forall (in_output_range s) (changes (snd (update r x)))).
      { destruct (completes_window r x) eqn:Hw.
        - destruct (update_reported r x Hix Hw) as (Hr & Hv & Hev & _).
          rewrite Hr, Hv, Hev.
          assert (Hnew : in_output_range s (fst (stabilize (measured r x)))).
          { destruct (measured_config r x) as (Hm & _ & _ & _ & _ & Hh).
            assert (Hmin : outputMin (measured r x) = outputMin s)
              by (unfold same_config in *; intuition congruence).
            assert (Hmax : outputMax (measured r x) = outputMax s)
              by (unfold same_config in *; intuition congruence).
            unfold in_output_range.
            destruct (stabilize_value (measured r x)) as [-> | ->].
            - unfold V_potential. rewrite Hmin, Hmax. apply clamp_range. exact Hrange.
            - rewrite Hh.
              pose proof (computeHiRes_range
                (accumulatedSum (accumulate r x) / avgSamples (accumulate r x))
                (accumulate r x)) as Hc.
              destruct (accumulate_config r x) as (Ha & _).
              unfold in_output_range, same_config in *.
              replace (outputMin (accumulate r x)) with (outputMin s) in Hc
                by intuition congruence.
              replace (outputMax (accumulate r x)) with (outputMax s) in Hc
                by intuition congruence.
              apply Hc. exact Hrange. }
          destruct (snd (stabilize (measured r x))); simpl.
          + split; [exact Hnew|]. split; [reflexivity|].
            destruct (hasChangeFunc x); [constructor; [exact Hnew | constructor] | constructor].
          + split; [exact Hin|]. split; [exact Hval | constructor].
        - rewrite (update_not_completing board r x Hix Hw). simpl.
          destruct (accumulate_config r x) as (_ & -> & -> & _).
          split; [exact Hin|]. split; [exact Hval | constructor]. }
      destruct Hstep as (Hin' & Hval' & Hev).
      destruct (IH (fst (update r x))) as (H1 & H2 & H3); auto.
      { apply (same_config_trans _ _ _ Hcfg Hcfg'). }
      split; [exact H1|]. split; [exact H2|].
      unfold changes in *. rewrite flat_map_app. apply Forall_app. split; assumption. }
  assert (Hfirst : fst (update rawValue s) = performInitialRead rawValue s)
    by (unfold update; rewrite Hi; reflexivity).
  subst s' s1. rewrite Hfirst.
  destruct (performInitialRead_config rawValue s) as (Hcfg & Hi' & _ & _ & Hval).
  apply Hinv; auto.
  unfold in_output_range.
  assert (Hrep : currentReportedValue (performInitialRead rawValue s)
                 = V_potential (performInitialRead rawValue s)
                 \/ currentReportedValue (performInitialRead rawValue s)
                    = hiResValue (performInitialRead rawValue s)).
  { unfold performInitialRead, zone_count, V_potential.
    destruct (1 <? avgSamples s); simpl;
      destruct (0 <? quantizeStep s); simpl;
      destruct (0 <? Z.of_nat (length (defined_zones s))); simpl; auto. }
  assert (Hhi : hiResValue (performInitialRead rawValue s)
                = computeHiRes
                    ((if 1 <? avgSamples s then to_ulong (rawValue * avgSamples s)
                      else to_ulong rawValue) / avgSamples s) s).
  { unfold performInitialRead, zone_count, computeHiRes.
    destruct (1 <? avgSamples s); simpl;
      destruct (0 <? quantizeStep s); simpl;
      destruct (0 <? Z.of_nat (length (defined_zones s))); simpl; reflexivity. }
  destruct Hrep as [-> | ->].
  - unfold V_potential.
    destruct Hcfg as (_ & _ & -> & -> & _). apply clamp_range. exact Hrange.
  - rewrite Hhi. apply computeHiRes_range. exact Hrange.
Qed.


(** X10. [value()] reads the pin at most once. On a sensor that has not been
    read it makes the initial read, the one the first poll would make, and
    returns its value; on every later call, of [value()] or after polls, it
    returns the stored value and leaves the sensor as it is, whatever the
    pin reads. *)
Theorem value_reads_at_most_once (rawValue rawValue' : Z) (s : AnalogSensor) :
  let r := value rawValue s in
  hasInitialRead (snd r) = true
  /\ fst r = currentValue (snd r)
  /\ snd r = (if hasInitialRead s then s else fst (update rawValue s))
  /\ value rawValue' (snd r) = r.
Proof.
  intros r. subst r. unfold value, update.
  destruct (hasInitialRead s) eqn:Hi; cbn [negb fst snd].
  - rewrite Hi. cbn [negb]. auto.
  - destruct (performInitialRead_config rawValue s) as (_ & Hi' & _).
    rewrite Hi'. cbn [negb]. auto.
Qed.

(** *** The modes without quantization *)

(** X11. Without quantization, a poll that completes a window reports the
    measured value when it is at least the change threshold away from the
    value reported so far (any difference with a threshold of 1 or less),
    and keeps the reported value otherwise. So the reported value lags the
    measured one by less than the threshold, it moves by at least the
    threshold when it moves, and the change callback gets the measured value
    exactly when the reported value moves. *)
Theorem threshold_mode_tracks_measured_value (s : AnalogSensor) (rawValue : Z) :
  hasInitialRead s = true -> completes_window rawValue s = true ->
  quantizeStep s <= 0 ->
  let s' := fst (update rawValue s) in
  let hi := hiResValue s' in
  let cur := currentReportedValue s in
  let threshold := Z.max 1 (delta s) in
  let moved := threshold <=? Z.abs (hi - cur) in
  currentReportedValue s' = (if moved then hi else cur)
  /\ Z.abs (hi - currentReportedValue s') < threshold
  /\ (currentReportedValue s' <> cur ->
      threshold <= Z.abs (currentReportedValue s' - cur))
  /\ changes (snd (update rawValue s))
     = (if moved && hasChangeFunc s then [hi] else []).
Proof.
  intros Hi Hw Hq s' hi cur threshold moved.
  destruct (update_reported rawValue s Hi Hw) as (Hr & _ & Hev & Hh).
  destruct (measured_config rawValue s) as (Hcfg & Hcur & _).
  fold s' in Hr, Hh. fold hi in Hh.
  assert (Hst : stabilize (measured rawValue s) = (hi, moved)).
  { unfold stabilize.
    destruct Hcfg as (_ & _ & _ & _ & _ & -> & _ & -> & _).
    rewrite Hcur, <- Hh. fold cur.
    destruct (Z.ltb_spec 0 (quantizeStep s)); [lia|].
    subst moved threshold.
    destruct (Z.ltb_spec 1 (delta s)).
    - rewrite Z.max_r by lia. destruct (delta s <=? Z.abs (hi - cur)); reflexivity.
    - rewrite Z.max_l by lia.
      destruct (Z.eqb_spec hi cur); simpl;
        destruct (Z.leb_spec 1 (Z.abs (hi - cur))); try reflexivity; lia. }
  rewrite Hst in Hr, Hev. simpl in Hr, Hev. fold cur in Hr.
  rewrite Hr, Hev. split; [reflexivity|].
  subst moved. destruct (Z.leb_spec threshold (Z.abs (hi - cur))).
  - replace (hi - hi) with 0 by lia.
    split; [subst threshold; simpl; lia|]. split; [intros _; assumption | reflexivity].
  - split; [assumption|]. split; [intros Hne; now destruct Hne | reflexivity].
Qed.


(** *** Smoothing *)

Lemma accumulate_counts (r : Z) (x : AnalogSensor) :
  1 <= avgSamples x <= 255 -> 0 <= avgCount x < avgSamples x ->
  0 <= accumulatedSum x <= avgCount x * (2 ^ 24 - 1) -> reading_fits r ->
  avgCount (accumulate r x) = avgCount x + 1
  /\ accumulatedSum (accumulate r x) = accumulatedSum x + r.
Proof.
  intros Hn Hc Hs Hr. unfold reading_fits in Hr. unfold accumulate.
  destruct (Z.ltb_spec 1 (avgSamples x)).
  - unfold average. simpl. unfold to_byte, to_ulong.
    rewrite !wrap_small; [auto | | ]; change (2 ^ 32) with 4294967296 in *;
      change (2 ^ 8) with 256; change (2 ^ 24) with 16777216 in *; nia.
  - simpl. unfold to_ulong. rewrite wrap_small
      by (change (2 ^ 32) with 4294967296; change (2 ^ 24) with 16777216 in *; lia).
    split; nia.
Qed.

Lemma completes_window_count (r : Z) (x : AnalogSensor) :
  1 <= avgSamples x <= 255 -> 0 <= avgCount x < avgSamples x ->
  0 <= accumulatedSum x <= avgCount x * (2 ^ 24 - 1) -> reading_fits r ->
  completes_window r x = (avgSamples x <=? avgCount x + 1).
Proof.
  intros Hn Hc Hs Hr. unfold completes_window.
  destruct (accumulate_counts r x Hn Hc Hs Hr) as [-> _].
  destruct (accumulate_config r x) as ((_ & _ & _ & _ & _ & _ & _ & _ & -> & _) & _).
  reflexivity.
Qed.

(** The polls before the one that completes the window. *)
Lemma window_fills (raws : list Z) : forall (x : AnalogSensor),
  hasInitialRead x = true ->
  1 <= avgSamples x <= 255 -> 0 <= avgCount x ->
  avgCount x + Z.of_nat (length raws) < avgSamples x ->
  0 <= accumulatedSum x <= avgCount x * (2 ^ 24 - 1) ->
  Forall reading_fits raws ->
  sensor_run raws x
  = set_avgCount (avgCount x + Z.of_nat (length raws))
      (set_accumulatedSum (accumulatedSum x + sum_of raws) x)
  /\ sensor_events raws x = [].
Proof.
  induction raws as [|r raws IH]; intros x Hi Hn Hc Hlen Hs Hf.
  - simpl. rewrite Z.add_0_r, Z.add_0_r. split; [|reflexivity].
    destruct x; reflexivity.
  - inversion Hf as [|? ? Hr Hf']; subst.
    change (length (r :: raws)) with (S (length raws)) in Hlen.
    assert (Hc' : 0 <= avgCount x < avgSamples x) by lia.
    assert (Hw : completes_window r x = false).
    { rewrite (completes_window_count r x Hn Hc' Hs Hr). apply Z.leb_gt. lia. }
    destruct (accumulate_counts r x Hn Hc' Hs Hr) as [Hcount Hsum].
    destruct (accumulate_config r x) as (Hcfg & _ & _ & Hi' & _).
    assert (Hsamples : avgSamples (accumulate r x) = avgSamples x)
      by (unfold same_config in Hcfg; intuition).
    simpl. rewrite (update_not_completing board r x Hi Hw). simpl.
    destruct (IH (accumulate r x)) as [Hrun Hev].
    + congruence.
    + rewrite Hsamples. exact Hn.
    + lia.
    + rewrite Hsamples, Hcount. lia.
    + rewrite Hcount, Hsum. unfold reading_fits in Hr. lia.
    + exact Hf'.
    + split; [|exact Hev].
      rewrite Hrun, Hcount, Hsum.
      replace (avgCount x + 1 + Z.of_nat (length raws))
        with (avgCount x + Z.of_nat (S (length raws))) by lia.
      replace (accumulatedSum x + r + sum_of raws)
        with (accumulatedSum x + (r + sum_of raws)) by lia.
      unfold accumulate, average.
      destruct (1 <? avgSamples x); destruct x; reflexivity.
Qed.

Lemma sum_of_bound (raws : list Z) :
  Forall reading_fits raws ->
  0 <= sum_of raws <= Z.of_nat (length raws) * (2 ^ 24 - 1).
Proof.
  induction 1 as [|r raws Hr _ IH]; simpl sum_of.
  - simpl. lia.
  - change (length (r :: raws)) with (S (length raws)).
    unfold reading_fits in Hr. lia.
Qed.

Lemma computeHiRes_config (a : Z) (s x : AnalogSensor) :
  same_config s x -> computeHiRes a x = computeHiRes a s.
Proof.
  intros (H1 & H2 & H3 & H4 & H5 & _). unfold computeHiRes.
  rewrite H1, H2, H3, H4, H5. reflexivity.
Qed.

(** X12. Smoothing over [n] samples reports once per window of [n] polls.
    From the start of a window, the first [n - 1] polls fire no callback and
    change nothing but the running sum and the sample count; the [n]-th poll
    measures the integer mean of the [n] readings (their sum divided by [n],
    truncated), mapped to the output range, and clears the sum and the count
    for the next window. *)
Theorem smoothing_reports_window_mean
  (s : AnalogSensor) (raws : list Z) (rawValue : Z) :
  hasInitialRead s = true ->
  avgCount s = 0 -> accumulatedSum s = 0 ->
  1 <= avgSamples s <= 255 ->
  Z.of_nat (length raws) + 1 = avgSamples s ->
  Forall reading_fits raws -> reading_fits rawValue ->
  let s1 := sensor_run raws s in
  let s2 := fst (update rawValue s1) in
  sensor_events raws s = []
  /\ s1 = set_avgCount (Z.of_nat (length raws))
            (set_accumulatedSum (sum_of raws) s)
  /\ completes_window rawValue s1 = true
  /\ hiResValue s2
     = computeHiRes ((sum_of raws + rawValue) / avgSamples s) s
  /\ avgCount s2 = 0 /\ accumulatedSum s2 = 0.
Proof.
  intros Hi Hc Hs Hn Hlen Hf Hr s1 s2.
  destruct (window_fills raws s) as [Hrun Hev]; try assumption; try lia.
  rewrite Hc, Hs in Hrun. simpl in Hrun.
  assert (Hs1 : s1 = set_avgCount (Z.of_nat (length raws))
                       (set_accumulatedSum (sum_of raws) s)) by exact Hrun.
  pose proof (sum_of_bound raws Hf) as Hbound.
  assert (Hi1 : hasInitialRead s1 = true) by (rewrite Hs1; exact Hi).
  assert (Hn1 : avgSamples s1 = avgSamples s) by (rewrite Hs1; reflexivity).
  assert (Hc1 : avgCount s1 = Z.of_nat (length raws)) by (rewrite Hs1; reflexivity).
  assert (Hsum1 : accumulatedSum s1 = sum_of raws) by (rewrite Hs1; reflexivity).
  assert (Hw : completes_window rawValue s1 = true).
  { rewrite completes_window_count; rewrite ?Hn1, ?Hc1, ?Hsum1;
      [apply Z.leb_le; lia | lia | lia | lia | assumption]. }
  split; [exact Hev|]. split; [exact Hs1|]. split; [exact Hw|].
  destruct (update_reported rawValue s1 Hi1 Hw) as (_ & _ & _ & Hh).
  fold s2 in Hh. rewrite Hh.
  destruct (measured_config rawValue s1) as (_ & _ & _ & _ & _ & ->).
  destruct (accumulate_counts rawValue s1) as [_ Hsum];
    rewrite ?Hn1, ?Hc1, ?Hsum1; try lia; try assumption.
  destruct (accumulate_config rawValue s1) as (Hcfg & _).
  rewrite Hsum, Hsum1.
  assert (Hcfg' : same_config s (accumulate rawValue s1)).
  { apply (same_config_trans s s1); [|exact Hcfg].
    rewrite Hs1. unfold same_config. simpl. intuition. }
  rewrite (computeHiRes_config _ s _ Hcfg').
  destruct Hcfg' as (_ & _ & _ & _ & _ & _ & _ & _ & -> & _).
  split; [reflexivity|].
  subst s2. rewrite (update_measured rawValue s1 Hi1 Hw). simpl. split; reflexivity.
Qed.


(** *** A constant input *)

Lemma performInitialRead_fields (rawValue : Z) (s : AnalogSensor) :
  let s1 := performInitialRead rawValue s in
  let mean := (if 1 <? avgSamples s then to_ulong (rawValue * avgSamples s)
               else to_ulong rawValue) / avgSamples s in
  avgCount s1 = 0 /\ accumulatedSum s1 = 0
  /\ hiResValue s1 = computeHiRes mean s
  /\ currentReportedValue s1
     = (if 0 <? quantizeStep s
        then clamp (outputMin s) (outputMax s)
               (quantized board (computeHiRes mean s) (quantizeStep s))
        else computeHiRes mean s)
  /\ (defined_zones s <> [] ->
      previousZoneID s1 = findZoneForValue s (currentReportedValue s1)).
Proof.
  unfold AnalogSensor.performInitialRead, zone_count, AnalogSensor.V_potential,
    AnalogSensor.computeHiRes, findZoneForValue.
  destruct (defined_zones s) as [|z zs] eqn:Hz.
  - destruct (1 <? avgSamples s); simpl;
      destruct (0 <? quantizeStep s); simpl; rewrite ?Hz; simpl;
      repeat split; try reflexivity; intros; congruence.
  - change (0 <? Z.of_nat (length (z :: zs))) with true.
    destruct (1 <? avgSamples s); simpl;
      destruct (0 <? quantizeStep s); simpl; rewrite ?Hz; simpl;
      repeat split; reflexivity.
Qed.

Lemma classify_same_zone (s : AnalogSensor) :
  (defined_zones s <> [] ->
   findZoneForValue s (currentReportedValue s) = previousZoneID s) ->
  snd (classify s) = [] /\ previousZoneID (fst (classify s)) = previousZoneID s.
Proof.
  intros H. unfold classify, zone_count.
  destruct (defined_zones s) as [|z zs] eqn:Ez; [split; reflexivity|].
  change (0 <? Z.of_nat (length (z :: zs))) with true. simpl.
  rewrite H by congruence. rewrite Z.eqb_refl. simpl. split; reflexivity.
Qed.

(** X13. A constant input fires no callback. When every reading is the
    same, the poll that makes the initial read and all later polls fire
    neither the change callback nor the zone callback, and the reported
    value stays the one of the initial read: the initial read fills the
    window with its reading and records the zone of its value without an
    event. *)
Theorem constant_input_fires_nothing (s : AnalogSensor) (rawValue : Z) (n : nat) :
  hasInitialRead s = false ->
  1 <= avgSamples s <= 255 ->
  reading_fits rawValue ->
  let s1 := fst (update rawValue s) in
  snd (update rawValue s) = []
  /\ sensor_events (repeat rawValue n) s1 = []
  /\ currentReportedValue (sensor_run (repeat rawValue n) s1)
     = currentReportedValue s1.
Proof.
  intros Hi Hn Hr s1.
  assert (Hfirst : update rawValue s = (performInitialRead rawValue s, []))
    by (unfold update; rewrite Hi; reflexivity).
  subst s1. rewrite Hfirst. simpl fst. simpl snd. split; [reflexivity|].
  set (H := computeHiRes rawValue s).
  set (R := if 0 <? quantizeStep s
            then clamp (outputMin s) (outputMax s)
                   (quantized board H (quantizeStep s))
            else H).
  assert (Hstep : forall x,
    same_config s x -> hasInitialRead x = true ->
    0 <= avgCount x < avgSamples x -> accumulatedSum x = avgCount x * rawValue ->
    currentReportedValue x = R ->
    (defined_zones s <> [] -> previousZoneID x = findZoneForValue s R) ->
    let x' := fst (update rawValue x) in
    snd (update rawValue x) = []
    /\ same_config s x' /\ hasInitialRead x' = true
    /\ 0 <= avgCount x' < avgSamples x' /\ accumulatedSum x' = avgCount x' * rawValue
    /\ currentReportedValue x' = R
    /\ (defined_zones s <> [] -> previousZoneID x' = findZoneForValue s R)).
  { intros x Hcfg Hix Hc Hs HR Hz x'.
    assert (Hnx : avgSamples x = avgSamples s) by (unfold same_config in Hcfg; intuition).
    assert (Hfit : 0 <= accumulatedSum x <= avgCount x * (2 ^ 24 - 1))
      by (unfold reading_fits in Hr; rewrite Hs; nia).
    assert (Hnx' : 1 <= avgSamples x <= 255) by lia.
    destruct (accumulate_counts rawValue x Hnx' Hc Hfit Hr) as [Hcount Hsum].
    destruct (accumulate_config rawValue x) as (Hacfg & Har & _ & Hai & Hap).
    destruct (update_config rawValue x) as [Hcfg' Hix'].
    pose proof (completes_window_count rawValue x Hnx' Hc Hfit Hr) as Hw.
    destruct (Z.leb_spec (avgSamples x) (avgCount x + 1)) as [Hfull | Hpart].
    - assert (Hmean : accumulatedSum (accumulate rawValue x)
                      / avgSamples (accumulate rawValue x) = rawValue).
      { destruct Hacfg as (_ & _ & _ & _ & _ & _ & _ & _ & -> & _).
        rewrite Hsum, Hs.
        replace (avgCount x * rawValue + rawValue) with (rawValue * avgSamples x)
          by (replace (avgSamples x) with (avgCount x + 1) by lia; ring).
        apply Z.div_mul. lia. }
      destruct (measured_config rawValue x) as (Hmcfg & Hmr & _ & Hmi & Hmp & Hmh).
      rewrite Hmean in Hmh.
      rewrite (computeHiRes_config rawValue s)
        in Hmh by (apply (same_config_trans s x); assumption).
      fold H in Hmh.
      assert (Hscfg : same_config s (measured rawValue x))
        by (apply (same_config_trans s x); assumption).
      assert (Hst : snd (stabilize (measured rawValue x)) = false).
      { unfold AnalogSensor.stabilize, AnalogSensor.V_potential.
        rewrite Hmh, Hmr, HR.
        destruct Hscfg as (_ & _ & -> & -> & _ & -> & _ & _).
        subst R. destruct (0 <? quantizeStep s).
        - rewrite Z.eqb_refl. reflexivity.
        - destruct (1 <? delta (measured rawValue x)) eqn:Hd.
          + apply Z.ltb_lt in Hd. rewrite Z.sub_diag. change (Z.abs 0) with 0.
            destruct (Z.leb_spec (delta (measured rawValue x)) 0); [lia | reflexivity].
          + rewrite Z.eqb_refl. reflexivity. }
      assert (Hcommit : commit (measured rawValue x) = (measured rawValue x, [])).
      { unfold AnalogSensor.commit.
        destruct (stabilize (measured rawValue x)) as [v b].
        simpl in Hst. subst b. reflexivity. }
      subst x'. rewrite (update_measured rawValue x Hix Hw). rewrite Hcommit. simpl.
      assert (Hcl : snd (classify (measured rawValue x)) = []
                    /\ previousZoneID (fst (classify (measured rawValue x)))
                       = previousZoneID (measured rawValue x)).
      { apply classify_same_zone. intros Hne.
        assert (Hdz : defined_zones (measured rawValue x) = defined_zones s)
          by (unfold same_config in Hscfg; intuition).
        unfold findZoneForValue in *. rewrite Hdz in *.
        rewrite Hmr, HR, Hmp. symmetry. apply Hz. exact Hne. }
      destruct Hcl as [Hcl1 Hcl2].
      destruct (classify_config (measured rawValue x)) as (Hccfg & Hci & Hcr & _).
      split; [exact Hcl1|].
      split.
      { apply (same_config_trans s (measured rawValue x)); [exact Hscfg|].
        unfold same_config in *. simpl. exact Hccfg. }
      split; [congruence|].
      assert (Hsamples : avgSamples (fst (classify (measured rawValue x))) = avgSamples x).
      { destruct Hccfg as (_ & _ & _ & _ & _ & _ & _ & _ & -> & _).
        destruct Hmcfg as (_ & _ & _ & _ & _ & _ & _ & _ & -> & _). reflexivity. }
      rewrite Hsamples. split; [lia|]. split; [lia|].
      split; [congruence|]. intros Hne. rewrite Hcl2, Hmp. apply Hz. exact Hne.
    - subst x'. rewrite (update_not_completing board rawValue x Hix Hw). simpl.
      split; [reflexivity|].
      split; [apply (same_config_trans s x); assumption|].
      split; [congruence|].
      assert (Hsamples : avgSamples (accumulate rawValue x) = avgSamples x)
        by (unfold same_config in Hacfg; intuition).
      rewrite Hsamples, Hcount, Hsum. split; [lia|]. split; [lia|].
      split; [congruence|]. intros Hne. rewrite Hap. apply Hz. exact Hne. }
  destruct (performInitialRead_fields rawValue s) as (Hc0 & Hs0 & Hh0 & Hr0 & Hz0).
  destruct (performInitialRead_config rawValue s) as (Hcfg0 & Hi0 & _).
  assert (Hmean0 : (if 1 <? avgSamples s then to_ulong (rawValue * avgSamples s)
                    else to_ulong rawValue) / avgSamples s = rawValue).
  { unfold reading_fits in Hr. unfold to_ulong.
    destruct (Z.ltb_spec 1 (avgSamples s)).
    - rewrite wrap_small
        by (change (2 ^ 32) with 4294967296; change (2 ^ 24) with 16777216 in *; nia).
      apply Z.div_mul. lia.
    - rewrite wrap_small
        by (change (2 ^ 32) with 4294967296; change (2 ^ 24) with 16777216 in *; lia).
      replace (avgSamples s) with 1 by lia. apply Z.div_1_r. }
  rewrite Hmean0 in Hr0. fold H in Hr0. fold R in Hr0.
  assert (Hrun : forall n x,
    same_config s x -> hasInitialRead x = true ->
    0 <= avgCount x < avgSamples x -> accumulatedSum x = avgCount x * rawValue ->
    currentReportedValue x = R ->
    (defined_zones s <> [] -> previousZoneID x = findZoneForValue s R) ->
    sensor_events (repeat rawValue n) x = []
    /\ currentReportedValue (sensor_run (repeat rawValue n) x) = R).
  { clear n. induction n as [|n IH]; intros x Hcfg Hix Hc Hs HR Hz; simpl.
    - split; [reflexivity | exact HR].
    - destruct (Hstep x Hcfg Hix Hc Hs HR Hz) as (Hev & H1 & H2 & H3 & H4 & H5 & H6).
      rewrite Hev. simpl. apply IH; assumption. }
  rewrite Hr0. apply Hrun.
  - exact Hcfg0.
  - exact Hi0.
  - destruct Hcfg0 as (_ & _ & _ & _ & _ & _ & _ & _ & -> & _). lia.
  - rewrite Hc0, Hs0. reflexivity.
  - exact Hr0.
  - intros Hne. rewrite (Hz0 Hne), Hr0. reflexivity.
Qed.


(** *** The mapping *)

Lemma clamp_mono (lo hi a b : Z) : a <= b -> clamp lo hi a <= clamp lo hi b.
Proof.
  intros H. unfold clamp.
  destruct (Z.ltb_spec a lo); destruct (Z.ltb_spec b lo); try lia;
    repeat match goal with
    | |- context [?x <? ?y] => destruct (Z.ltb_spec x y)
    end; lia.
Qed.

Lemma clamp_id (lo hi v : Z) : lo <= v <= hi -> clamp lo hi v = v.
Proof.
  intros H. unfold clamp.
  destruct (Z.ltb_spec v lo); [lia|]. destruct (Z.ltb_spec hi v); lia.
Qed.

Lemma arduino_map_range (x in_min in_max out_min out_max : Z) :
  in_min < in_max -> out_min <= out_max -> in_min <= x <= in_max ->
  in_max - in_min < 2 ^ 31 -> out_max - out_min < 2 ^ 31 ->
  (in_max - in_min) * (out_max - out_min) < 2 ^ 31 ->
  - 2 ^ 31 <= out_min -> out_max < 2 ^ 31 ->
  arduino_map x in_min in_max out_min out_max
  = (x - in_min) * (out_max - out_min) / (in_max - in_min) + out_min
  /\ out_min <= arduino_map x in_min in_max out_min out_max <= out_max.
Proof.
  intros Hin Hout Hx Hsi Hso Hp Hlo Hhi. unfold arduino_map.
  change (2 ^ 31) with 2147483648 in *.
  assert (Hpx : 0 <= (x - in_min) * (out_max - out_min)
                <= (in_max - in_min) * (out_max - out_min)) by nia.
  rewrite (to_long_fits (x - in_min)) by (change (2 ^ 31) with 2147483648; lia).
  rewrite (to_long_fits (out_max - out_min)) by (change (2 ^ 31) with 2147483648; lia).
  rewrite (to_long_fits (in_max - in_min)) by (change (2 ^ 31) with 2147483648; lia).
  rewrite (to_long_fits ((x - in_min) * (out_max - out_min)))
    by (change (2 ^ 31) with 2147483648; lia).
  rewrite Z.quot_div_nonneg by lia.
  assert (0 <= (x - in_min) * (out_max - out_min) / (in_max - in_min))
    by (apply Z.div_pos; lia).
  assert ((x - in_min) * (out_max - out_min) / (in_max - in_min) <= out_max - out_min).
  { apply Z.div_le_upper_bound; nia. }
  rewrite (to_long_fits (_ / _)) by (change (2 ^ 31) with 2147483648; lia).
  rewrite to_long_fits by (change (2 ^ 31) with 2147483648; lia).
  split; [reflexivity | lia].
Qed.

(** X14. With a proper input range and an output range that is not empty,
    on ranges and means that are values of [int] and within the [long]
    arithmetic of [map] (the input span, the output span and their product
    below [2^31]), the mapping from the window mean to the measured value is
    monotone and reaches both ends: means at or below [inputMin] give
    [outputMin], means at or above [inputMax] give [outputMax], and a larger
    mean never gives a smaller value. With [invert()] the ends are exchanged
    and the order is reversed. *)
Theorem mapping_is_monotone_between_the_ends (s : AnalogSensor) (a b : Z) :
  1 <= INT_BITS board <= 32 ->
  ranges_fit board s -> fits_int board a -> fits_int board b ->
  inputMin s < inputMax s -> outputMin s <= outputMax s -> a <= b ->
  let lo := if inverted s then outputMax s else outputMin s in
  let hi := if inverted s then outputMin s else outputMax s in
  (a <= inputMin s -> computeHiRes a s = lo)
  /\ (inputMax s <= b -> computeHiRes b s = hi)
  /\ (if inverted s then computeHiRes b s <= computeHiRes a s
      else computeHiRes a s <= computeHiRes b s).
Proof.
  intros Hbits (Fim & FiM & Fom & FoM & Hsi & Hso & Hp) Fa Fb Hin Hout Hab lo hi.
  assert (Hca := clamp_range (inputMin s) (inputMax s) a ltac:(lia)).
  assert (Hcb := clamp_range (inputMin s) (inputMax s) b ltac:(lia)).
  assert (Hcab := clamp_mono (inputMin s) (inputMax s) a b Hab).
  pose proof (fits_int_long board _ Hbits Fom) as Lom.
  pose proof (fits_int_long board _ Hbits FoM) as LoM.
  destruct (arduino_map_range (clamp (inputMin s) (inputMax s) a)
              (inputMin s) (inputMax s) (outputMin s) (outputMax s)
              Hin Hout Hca Hsi Hso Hp ltac:(lia) ltac:(lia))
    as [Hma Hra].
  destruct (arduino_map_range (clamp (inputMin s) (inputMax s) b)
              (inputMin s) (inputMax s) (outputMin s) (outputMax s)
              Hin Hout Hcb Hsi Hso Hp ltac:(lia) ltac:(lia))
    as [Hmb Hrb].
  assert (Hmono :
    arduino_map (clamp (inputMin s) (inputMax s) a)
      (inputMin s) (inputMax s) (outputMin s) (outputMax s)
    <= arduino_map (clamp (inputMin s) (inputMax s) b)
         (inputMin s) (inputMax s) (outputMin s) (outputMax s)).
  { rewrite Hma, Hmb. apply Z.add_le_mono_r. apply Z.div_le_mono; [lia | nia]. }
  unfold AnalogSensor.computeHiRes.
  rewrite (to_signed_fits _ a), (to_signed_fits _ b) by (unfold fits_int in *; lia).
  rewrite (to_signed_fits _ (arduino_map (clamp _ _ a) _ _ _ _))
    by (unfold fits_int in *; lia).
  rewrite (to_signed_fits _ (arduino_map (clamp _ _ b) _ _ _ _))
    by (unfold fits_int in *; lia).
  rewrite (clamp_id _ _ _ Hra), (clamp_id _ _ _ Hrb).
  split; [|split].
  - intros Ha.
    assert (Hc : clamp (inputMin s) (inputMax s) a = inputMin s).
    { unfold clamp. destruct (Z.ltb_spec a (inputMin s)).
      - destruct (Z.ltb_spec (inputMax s) (inputMin s)); lia.
      - destruct (Z.ltb_spec (inputMax s) a); lia. }
    rewrite Hma, Hc, Z.sub_diag, Z.mul_0_l, Z.div_0_l by lia.
    subst lo. destruct (inverted s); lia.
  - intros Hb.
    assert (Hc : clamp (inputMin s) (inputMax s) b = inputMax s).
    { unfold clamp. destruct (Z.ltb_spec b (inputMin s)); [lia|].
      destruct (Z.ltb_spec (inputMax s) b); lia. }
    rewrite Hmb, Hc.
    rewrite (Z.mul_comm (inputMax s - inputMin s)), Z.div_mul by lia.
    subst hi. destruct (inverted s); lia.
  - destruct (inverted s); lia.
Qed.

(** X15. An output range given the wrong way round ([outputMin] above
    [outputMax]) makes the measured value constant: the clamp to the output
    range, which tests the lower bound first and the upper bound second,
    always ends on [outputMax] (on [outputMin] with [invert()]), whatever
    the reading. *)
Theorem reversed_output_range_is_constant (s : AnalogSensor) (avgValue : Z) :
  outputMax s < outputMin s ->
  computeHiRes avgValue s = (if inverted s then outputMin s else outputMax s).
Proof.
  intros H. unfold AnalogSensor.computeHiRes.
  set (m := to_signed _ (arduino_map _ _ _ _ _)).
  assert (Hc : clamp (outputMin s) (outputMax s) m = outputMax s).
  { unfold clamp. destruct (Z.ltb_spec m (outputMin s)).
    - destruct (Z.ltb_spec (outputMax s) (outputMin s)); lia.
    - destruct (Z.ltb_spec (outputMax s) m); lia. }
  rewrite Hc. destruct (inverted s); lia.
Qed.

(** *** Zones *)

(** X16. With a table of at most 255 zones (the counter is a byte), a
    sequence of [addZone] calls stores, in call order, the requests whose
    lower bound is not above the upper one, up to the capacity of the
    sensor; requests with bounds the wrong way round and requests made when
    the table is full are dropped without any other effect. Every stored
    zone so has its lower bound at or below its upper bound. *)
Theorem add_zones_keeps_the_first_valid_requests
  (MAX_ZONES_PER_SENSOR : Z) (reqs : list zone_request) (s : AnalogSensor) :
  MAX_ZONES_PER_SENSOR <= 255 ->
  Z.of_nat (length (defined_zones s)) <= MAX_ZONES_PER_SENSOR ->
  let s' := add_zones MAX_ZONES_PER_SENSOR reqs s in
  defined_zones s'
  = take (Z.to_nat MAX_ZONES_PER_SENSOR)
      (defined_zones s ++ well_formed_requests reqs)
  /\ Z.of_nat (length (defined_zones s')) <= MAX_ZONES_PER_SENSOR
  /\ (Forall (fun z => min_val z <= max_val z) (defined_zones s) ->
      Forall (fun z => min_val z <= max_val z) (defined_zones s')).
Proof.
  intros Hmax. revert s.
  induction reqs as [|[[zid lo] hi] reqs IH]; intros s Hlen s'.
  - subst s'. simpl. rewrite app_nil_r.
    rewrite take_ge by lia. auto.
  - subst s'. unfold add_zones, well_formed_requests in *. simpl fold_left.
    simpl flat_map.
    unfold addZone at 2 4 6. unfold zone_count.
    destruct (Z.leb_spec MAX_ZONES_PER_SENSOR (Z.of_nat (length (defined_zones s))))
      as [Hfull | Hfree].
    + destruct (IH s Hlen) as (H1 & H2 & H3).
      split; [|split; assumption].
      rewrite H1. rewrite !take_app_le by lia. reflexivity.
    + destruct (Z.ltb_spec hi lo) as [Hbad | Hok].
      * simpl. apply IH. exact Hlen.
      * cbv zeta.
        assert (Hall : take (Z.to_nat (to_byte (Z.of_nat (length (defined_zones s)) + 1)))
                         (defined_zones s ++ [Build_Zone zid lo hi])
                       = defined_zones s ++ [Build_Zone zid lo hi]).
        { apply take_ge. unfold to_byte. rewrite wrap_small
            by (change (2 ^ 8) with 256; lia).
          rewrite length_app. simpl. lia. }
        rewrite Hall.
        set (s1 := set_defined_zones (defined_zones s ++ [Build_Zone zid lo hi]) s).
        assert (Hz1 : defined_zones s1 = defined_zones s ++ [Build_Zone zid lo hi])
          by reflexivity.
        assert (Hlen1 : Z.of_nat (length (defined_zones s1)) <= MAX_ZONES_PER_SENSOR).
        { rewrite Hz1, length_app. simpl. lia. }
        destruct (IH s1 Hlen1) as (H1 & H2 & H3).
        split; [|split; [assumption|]].
        -- rewrite H1, Hz1, <- app_assoc. reflexivity.
        -- intros Hallz. apply H3. rewrite Hz1. apply Forall_app. split; [exact Hallz|].
           constructor; [simpl; lia | constructor].
Qed.

End AnalogMore.

(** ** Button and rotary encoder *)

Section ButtonMore.
Import Button.
Variable DEBOUNCE_DELAY : Z.

Local Abbreviation update := (Button.update DEBOUNCE_DELAY).
Local Abbreviation poll := (Button.poll DEBOUNCE_DELAY).

(** One poll: what is kept, and the event of a commit. *)
Lemma poll_event (p : sample) (b : Button) :
  hasPressFunc b = true -> hasReleaseFunc b = true ->
  pressMode (poll p b) = pressMode b
  /\ hasPressFunc (poll p b) = true /\ hasReleaseFunc (poll p b) = true
  /\ ((oldState (poll p b) = oldState b
       /\ snd (update (raw p) (t_check p) (t_stamp p) b) = [])
      \/ (oldState (poll p b) = raw p /\ raw p <> oldState b
          /\ snd (update (raw p) (t_check p) (t_stamp p) b)
             = [if raw p =? pressed_level b then Pressed else Released])).
Proof.
  intros Hp Hr. unfold Button.poll, Button.update, checkForPress, pressed_level.
  simpl.
  destruct (Z.eqb_spec (raw p) (oldState b)) as [Heq | Hne]; simpl.
  - auto 10.
  - destruct (DEBOUNCE_DELAY <=? elapsed (t_check p) (lastDebounceTime b)); simpl.
    + rewrite Hp, Hr.
      destruct (pressMode b =? BUTTON_PRESS_HIGH);
        [destruct (raw p =? HIGH) | destruct (raw p =? LOW)]; simpl; auto 10.
    + auto 10.
Qed.

(** X17. With both callbacks registered and levels as [digitalRead] returns
    them, presses and releases alternate over any sequence of polls: the
    first event is a release when the committed level is the pressed level
    and a press otherwise, and no press follows a press, no release a
    release, whatever the bounce and the timing. *)
Theorem presses_and_releases_alternate (ps : list sample) (b : Button) :
  hasPressFunc b = true -> hasReleaseFunc b = true ->
  is_level (oldState b) -> Forall (fun p => is_level (raw p)) ps ->
  alternates (if oldState b =? pressed_level b then Released else Pressed)
    (button_events DEBOUNCE_DELAY ps b).
Proof.
  revert b. induction ps as [|p ps IH]; intros b Hp Hr Hlevel Hraws; simpl.
  - exact I.
  - inversion Hraws as [|? ? Hraw Hraws']; subst.
    destruct (poll_event p b Hp Hr) as (Hmode & Hp' & Hr' & Hcase).
    assert (Hpl : pressed_level (poll p b) = pressed_level b)
      by (unfold pressed_level; rewrite Hmode; reflexivity).
    assert (Hpl_level : is_level (pressed_level b)).
    { unfold pressed_level, is_level. destruct (pressMode b =? BUTTON_PRESS_HIGH); auto. }
    destruct Hcase as [[Hold Hev] | (Hold & Hne & Hev)]; rewrite Hev; simpl.
    + specialize (IH (poll p b) Hp' Hr').
      rewrite Hold, Hpl in IH. apply IH; assumption.
    + specialize (IH (poll p b) Hp' Hr').
      rewrite Hold, Hpl in IH.
      assert (Hflip : (raw p =? pressed_level b) = negb (oldState b =? pressed_level b)).
      { unfold is_level, LOW, HIGH in *.
        destruct (Z.eqb_spec (raw p) (pressed_level b));
          destruct (Z.eqb_spec (oldState b) (pressed_level b)); simpl; try reflexivity; lia. }
      rewrite Hflip in *.
      destruct (oldState b =? pressed_level b); simpl in *;
        (split; [reflexivity|]); apply IH; assumption.
Qed.

End ButtonMore.

Section EncoderMore.
Import RotaryEncoder.
Variable DEBOUNCE_DELAY : Z.
Variable ENCODER_DEBOUNCE_DELAY : Z.

Local Abbreviation rotate := (RotaryEncoder.rotate ENCODER_DEBOUNCE_DELAY).
Local Abbreviation update := (RotaryEncoder.update DEBOUNCE_DELAY ENCODER_DEBOUNCE_DELAY).
Local Abbreviation run := (RotaryEncoder.run DEBOUNCE_DELAY ENCODER_DEBOUNCE_DELAY).

Lemma rotations_app (evs evs' : list event) :
  rotations (evs ++ evs') = rotations evs ++ rotations evs'.
Proof. unfold rotations. apply List.filter_app. Qed.

Lemma rotations_switch (evs : list Button.event) : rotations (map Switch evs) = [].
Proof. induction evs; simpl; auto. Qed.

Lemma switch_events_app (evs evs' : list event) :
  switch_events (evs ++ evs') = switch_events evs ++ switch_events evs'.
Proof. unfold switch_events. apply flat_map_app. Qed.

Lemma switch_events_switch (evs : list Button.event) :
  switch_events (map Switch evs) = evs.
Proof. induction evs as [|e evs IH]; simpl; [|rewrite IH]; reflexivity. Qed.

(** The rotation part: the members it leaves alone and its events. *)
Lemma rotate_frame (p : reading) (e : RotaryEncoder) :
  base (fst (rotate p e)) = base e
  /\ currentStateCLK (fst (rotate p e)) = currentStateCLK e
  /\ hasCWFunc (fst (rotate p e)) = hasCWFunc e
  /\ hasCCWFunc (fst (rotate p e)) = hasCCWFunc e
  /\ switch_events (snd (rotate p e)) = []
  /\ rotations (snd (rotate p e)) = snd (rotate p e).
Proof.
  unfold RotaryEncoder.rotate.
  destruct (negb (currentStateCLK e =? lastStateCLK e) && (currentStateCLK e =? 1));
    [|simpl; auto 10].
  destruct (ENCODER_DEBOUNCE_DELAY <=? elapsed (rot_check p) (lastRotationTime e));
    [|simpl; auto 10].
  simpl. destruct (negb (dt p =? currentStateCLK e)); simpl;
    [destruct (hasCCWFunc e) | destruct (hasCWFunc e)]; simpl; auto 10.
Qed.

Lemma update_unfold (p : reading) (e : RotaryEncoder) :
  let b := Button.checkForPress DEBOUNCE_DELAY
             (Button.raw (sw p)) (Button.t_check (sw p)) (Button.t_stamp (sw p)) (base e) in
  let e1 := set_currentStateCLK (clk p) (set_base (fst b) e) in
  update p e
  = (set_lastStateCLK (currentStateCLK (fst (rotate p e1))) (fst (rotate p e1)),
     map Switch (snd b) ++ snd (rotate p e1)).
Proof.
  intros b e1. unfold RotaryEncoder.update. fold b. destruct b as [b0 ev1]. simpl.
  subst e1. simpl. destruct (rotate p _) as [e2 ev2]. reflexivity.
Qed.

(** X18. One poll of an encoder invokes at most one rotation callback, and
    only at a rising edge of [CLK] (a reading of 1 after another level) that
    comes at least the rotation debounce delay after the last accepted one:
    the clockwise callback when [DT] reads 1 as well, the counter-clockwise
    one otherwise. Every poll records the level of [CLK], so a rising edge
    that is refused by the debounce is used up: with both callbacks
    registered, the events of the poll are exactly these. *)
Theorem rotation_fires_on_debounced_rising_edge (p : reading) (e : RotaryEncoder) :
  hasCWFunc e = true -> hasCCWFunc e = true ->
  let e' := fst (update p e) in
  let rising := negb (clk p =? lastStateCLK e) && (clk p =? 1) in
  let spaced := ENCODER_DEBOUNCE_DELAY <=? elapsed (rot_check p) (lastRotationTime e) in
  rotations (snd (update p e))
  = (if rising && spaced
     then [if dt p =? 1 then Clockwise else CounterClockwise] else [])
  /\ lastStateCLK e' = clk p
  /\ lastRotationTime e'
     = (if rising && spaced then rot_stamp p else lastRotationTime e)
  /\ hasCWFunc e' = true /\ hasCCWFunc e' = true.
Proof.
  intros Hcw Hccw e' rising spaced. subst e'.
  rewrite (update_unfold p e). simpl fst. simpl snd.
  rewrite rotations_app, rotations_switch. simpl app.
  set (b := Button.checkForPress _ _ _ _ _).
  unfold RotaryEncoder.rotate. simpl.
  fold rising. fold spaced.
  destruct rising eqn:Hrise; simpl; [|auto 10].
  destruct spaced; simpl; [|auto 10].
  assert (Hone : clk p = 1).
  { subst rising. apply andb_prop in Hrise. destruct Hrise as [_ H1].
    apply Z.eqb_eq. exact H1. }
  rewrite Hone, Hcw, Hccw.
  destruct (Z.eqb_spec (dt p) 1); simpl; auto 10.
Qed.

(** X19. Over any sequence of polls an encoder invokes no more rotation
    callbacks than [CLK] shows rising edges, so none while [CLK] keeps its
    level; and its push button is a [Button] of its own: the press and
    release callbacks, and the button part of the object, are those of a
    [Button] polled with the same samples, whatever the rotation does. *)
Theorem encoder_rotations_and_switch (ps : list reading) (e : RotaryEncoder) :
  let r := run ps e in
  (length (rotations (snd r)) <= rising_edges (lastStateCLK e) (map clk ps))%nat
  /\ switch_events (snd r) = button_events DEBOUNCE_DELAY (map sw ps) (base e)
  /\ base (fst r) = Button.run DEBOUNCE_DELAY (map sw ps) (base e).
Proof.
  revert e. induction ps as [|p ps IH]; intros e; simpl.
  - auto.
  - pose proof (update_unfold p e) as Hu. cbv zeta in Hu.
    set (b := Button.checkForPress DEBOUNCE_DELAY
                (Button.raw (sw p)) (Button.t_check (sw p)) (Button.t_stamp (sw p))
                (base e)) in *.
    set (e1 := set_currentStateCLK (clk p) (set_base (fst b) e)) in *.
    destruct (rotate_frame p e1) as (Hb & Hc & _ & _ & Hsw & Hrot).
    rewrite Hu.
    set (e2 := set_lastStateCLK _ _).
    specialize (IH e2). cbv zeta in IH.
    destruct (run ps e2) as [e3 ev3]. cbn [fst snd] in IH |- *.
    destruct IH as (Hlen & Hswitch & Hbase).
    assert (Hlast : lastStateCLK e2 = clk p) by (subst e2; simpl; rewrite Hc; reflexivity).
    assert (Hbase2 : base e2 = fst b) by (subst e2; simpl; rewrite Hb; reflexivity).
    rewrite Hlast in Hlen. rewrite Hbase2 in Hswitch, Hbase.
    split; [|split].
    + rewrite !rotations_app, rotations_switch, length_app. simpl app.
      assert (Hone : (length (rotations (snd (rotate p e1)))
                      <= if negb (Z.eqb (clk p) (lastStateCLK e)) && Z.eqb (clk p) 1
                         then 1 else 0)%nat).
      { unfold RotaryEncoder.rotate. subst e1. simpl.
        destruct (negb (clk p =? lastStateCLK e) && (clk p =? 1)); [|simpl; lia].
        destruct (ENCODER_DEBOUNCE_DELAY <=? _); [|simpl; lia].
        simpl. destruct (negb (dt p =? clk p)); simpl;
          [destruct (hasCCWFunc e) | destruct (hasCWFunc e)]; simpl; lia. }
      destruct (negb (clk p =? lastStateCLK e) && (clk p =? 1)); simpl; lia.
    + rewrite !switch_events_app, switch_events_switch, Hsw, Hswitch, app_nil_r.
      reflexivity.
    + exact Hbase.
Qed.

(** X20. A second [init] is ignored. After [init], of an LED (plain or
    RGB) or of a rotary encoder, any further [init] on the object prints the
    warning and leaves the object as it is, pins included. The first [init]
    of an LED switches the output off. *)
Theorem second_init_is_ignored
  (l : LED.LED) (e : RotaryEncoder)
  (pin pin' pinR pinG pinB swPin dtPin clkPin rsw rclk swPin' dtPin' clkPin' rsw' rclk' : Z) :
  (exists l1 serial,
     LED.init pin l = Continue l1 serial
     /\ LED.init pin' l1
        = Continue l1 ["WARNING: LED already initialized. Ignoring."%string]
     /\ LED.init_rgb pinR pinG pinB l1
        = Continue l1 ["WARNING: LED already initialized. Ignoring."%string]
     /\ (LED.initialized l = false ->
         serial = [] /\ LED.pin l1 = pin /\ LED.state l1 = LOW
         /\ LED.writes l1 = LED.writes l ++ off_writes l1))
  /\ (exists l1 serial,
        LED.init_rgb pinR pinG pinB l = Continue l1 serial
        /\ LED.init pin' l1
           = Continue l1 ["WARNING: LED already initialized. Ignoring."%string]
        /\ (LED.initialized l = false ->
            serial = [] /\ LED.isRGB l1 = true /\ LED.state l1 = LOW
            /\ LED.writes l1
               = LED.writes l
                 ++ (let off := if LED.commonAnode l then 255 else 0 in
                     [LED.AnalogWrite pinR off; LED.AnalogWrite pinG off;
                      LED.AnalogWrite pinB off])))
  /\ (exists e1 serial,
        init swPin dtPin clkPin rsw rclk e = Continue e1 serial
        /\ init swPin' dtPin' clkPin' rsw' rclk' e1
           = Continue e1 ["WARNING: RotaryEncoder already initialized. Ignoring."%string]
        /\ (Button.initialized (base e) = false ->
            serial = [] /\ Button.oldState (base e1) = rsw
            /\ lastStateCLK e1 = rclk
            /\ Button.pressMode (base e1) = Button.pressMode (base e))).
Proof.
  split; [|split].
  - unfold LED.init. destruct (LED.initialized l) eqn:Hi.
    + exists l, ["WARNING: LED already initialized. Ignoring."%string].
      unfold LED.init_rgb. rewrite Hi.
      split; [reflexivity|]. split; [reflexivity|]. split; [reflexivity|].
      intros; discriminate.
    + eexists. eexists. split; [reflexivity|].
      unfold LED.init_rgb. simpl. split; [reflexivity|]. split; [reflexivity|].
      intros _. split; [reflexivity|].
      rewrite setState_LOW. simpl. split; [reflexivity|]. split; [reflexivity|].
      reflexivity.
  - unfold LED.init_rgb. destruct (LED.initialized l) eqn:Hi.
    + exists l, ["WARNING: LED already initialized. Ignoring."%string].
      unfold LED.init. rewrite Hi.
      split; [reflexivity|]. split; [reflexivity|]. intros; discriminate.
    + eexists. eexists. split; [reflexivity|].
      unfold LED.init. simpl. split; [reflexivity|].
      intros _. split; [reflexivity|].
      split; [reflexivity|]. split; reflexivity.
  - unfold init. destruct (Button.initialized (base e)) eqn:Hi.
    + exists e, ["WARNING: RotaryEncoder already initialized. Ignoring."%string].
      rewrite Hi. split; [reflexivity|]. split; [reflexivity|]. intros; discriminate.
    + eexists. eexists. split; [reflexivity|]. simpl. auto 10.
Qed.

End EncoderMore.

(** ** LED *)

Section LEDMore.
Import LED.
Variable UINT_BITS : Z.

Local Abbreviation update := (LED.update UINT_BITS).
Local Abbreviation run := (LED.run UINT_BITS).
Local Abbreviation toggles := (LED.toggles UINT_BITS).
Local Abbreviation runPulse := (LED.runPulse UINT_BITS).
Local Abbreviation runBlink := (LED.runBlink UINT_BITS).

(** *** What the output primitive leaves alone *)

Lemma setState_shape (v : Z) (l : LED) :
  exists ws, setState v l = set_writes (writes l ++ ws) (set_state v l).
Proof.
  unfold setState, emit. simpl.
  destruct (isRGB l); [destruct (v =? LOW) | destruct (isDimmable l)];
    eexists; reflexivity.
Qed.

Lemma blinking_clearPulse (l : LED) : blinking (clearPulse l) = blinking l.
Proof. reflexivity. Qed.

Lemma pulsing_set_blinking (v : bool) (l : LED) : pulsing (set_blinking v l) = pulsing l.
Proof. reflexivity. Qed.

Lemma setState_flags (v : Z) (l : LED) :
  blinking (setState v l) = blinking l /\ pulsing (setState v l) = pulsing l.
Proof.
  destruct (setState_shape v l) as [ws ->]. split; reflexivity.
Qed.

Lemma flip_flags (l : LED) :
  blinking (flip l) = blinking l /\ pulsing (flip l) = pulsing l.
Proof. unfold flip. destruct (state l =? HIGH); apply setState_flags. Qed.

Lemma setLevel_flags (n : Z) (l : LED) :
  blinking (setLevel n l) = blinking l /\ pulsing (setLevel n l) = pulsing l.
Proof.
  unfold setLevel. simpl. destruct (state l =? HIGH); [|split; reflexivity].
  destruct (setState_flags HIGH (set_level n (set_isDimmable true l))) as [-> ->].
  split; reflexivity.
Qed.

Lemma setColor_flags (r g b : Z) (l : LED) :
  blinking (setColor r g b l) = blinking l /\ pulsing (setColor r g b l) = pulsing l.
Proof.
  unfold setColor.
  destruct (commonAnode l); simpl; destruct (state l =? HIGH);
    try (split; reflexivity);
    match goal with
    | |- context [setState HIGH ?x] =>
        destruct (setState_flags HIGH x) as [-> ->]; split; reflexivity
    end.
Qed.

Lemma initFade_fields (duration start end_ now : Z) (l0 : LED) :
  let l1 := initFade duration start end_ now l0 in
  blinking l1 = false /\ pulsing l1 = true /\ pulseMax l1 = 0
  /\ pulseLow l1 = start /\ pulseHigh l1 = end_
  /\ pulseDuration l1 = (if duration <? 1 then 1 else duration)
  /\ pulseUp l1 = (start <? end_) /\ lastPulseTime l1 = now
  /\ state l1 = HIGH /\ level l1 = start /\ isDimmable l1 = true
  /\ pulseCount l1 = 0.
Proof.
  intros l1. subst l1. unfold initFade. rewrite setState_HIGH.
  unfold setLevel. simpl.
  destruct (state l0 =? HIGH); [rewrite setState_HIGH|]; simpl; auto 20.
Qed.

Lemma initBlink_fields (bDelay count now : Z) (l0 : LED) :
  let l1 := initBlink UINT_BITS bDelay count now l0 in
  blinking l1 = true /\ pulsing l1 = false
  /\ blinkDelay l1 = (if bDelay <? 1 then 1 else bDelay) / 2
  /\ lastBlinkTime l1 = now /\ blinkCount l1 = 0
  /\ state l1 = state l0 /\ writes l1 = writes l0 /\ level l1 = level l0
  /\ (count <= 0 -> blinkMax l1 = 0).
Proof.
  intros l1. subst l1. unfold initBlink. simpl.
  destruct (Z.ltb_spec 0 count); simpl; repeat split; try reflexivity; intros; lia.
Qed.

Lemma runPulse_blinking (t_start t_stamp : Z) (l : LED) :
  blinking (runPulse t_start t_stamp l) = blinking l.
Proof.
  assert (Hpe : forall x, blinking (pulsedEnough x) = blinking x).
  { intros x. unfold pulsedEnough.
    destruct ((pulseMax x <=? pulseCount x) && (0 <? pulseMax x)); [|reflexivity].
    destruct (setState_flags LOW (clearPulse x)) as [-> _]. reflexivity. }
  assert (Hhigh : forall x, blinking (setState HIGH x) = blinking x)
    by (intros x; apply setState_flags).
  assert (Hlow : forall x, blinking (setState LOW x) = blinking x)
    by (intros x; apply setState_flags).
  unfold LED.runPulse.
  destruct (pulsing l); [|reflexivity].
  destruct (pulseUp l).
  - destruct (pulseDuration l <=? elapsed t_start (lastPulseTime l)).
    + cbv zeta.
      destruct (pulseMax (setState HIGH (set_level (pulseHigh l) l)) =? 0).
      * rewrite blinking_clearPulse, Hhigh. reflexivity.
      * rewrite Hpe. simpl. rewrite Hhigh. reflexivity.
    + cbv zeta. rewrite Hpe.
      destruct (negb (level l =? _)); [rewrite Hhigh|]; reflexivity.
  - destruct (pulseDuration l <=? elapsed t_start (lastPulseTime l)).
    + destruct (pulseMax l =? 0).
      * rewrite Hlow, blinking_clearPulse, Hhigh. reflexivity.
      * rewrite Hpe. reflexivity.
    + cbv zeta. rewrite Hpe.
      destruct (negb (level l =? _)); [rewrite Hhigh|]; reflexivity.
Qed.

Lemma turnOff_flags (l : LED) :
  blinking (turnOff l) = false /\ pulsing (turnOff l) = false.
Proof.
  unfold turnOff.
  destruct (setState_flags LOW (clearPulse (clearBlink l))) as [-> ->].
  split; reflexivity.
Qed.

Lemma blinkedEnough_pulsing (x : LED) :
  pulsing x = false ->
  pulsing (if (blinkMax x <=? blinkCount x) && (0 <? blinkMax x)
           then set_blinking false (turnOff x) else x) = false.
Proof.
  intros Hx. destruct ((blinkMax x <=? blinkCount x) && (0 <? blinkMax x)); [|exact Hx].
  rewrite pulsing_set_blinking. apply turnOff_flags.
Qed.

Lemma runBlink_pulsing (t_check t_stamp : Z) (l : LED) :
  pulsing l = false -> pulsing (runBlink t_check t_stamp l) = false.
Proof.
  intros Hp. unfold LED.runBlink.
  destruct (blinking l); [|exact Hp].
  destruct (blinkDelay l <=? elapsed t_check (lastBlinkTime l)); [|exact Hp].
  cbv zeta. apply blinkedEnough_pulsing.
  match goal with
  | |- pulsing (flip ?y) = false => destruct (flip_flags y) as [_ ->]
  end.
  exact Hp.
Qed.

(** X21. At most one animation runs at a time. Whatever public member
    functions are called on an LED and in whatever order, polls included,
    the blink and the pulse (or fade) are never both active: starting a
    pulse or a fade ends a blink, starting a blink ends a pulse or a fade. *)
Theorem animations_exclude_each_other (cs : list command) (l : LED) :
  one_animation l -> one_animation (perform_all UINT_BITS cs l).
Proof.
  revert l. induction cs as [|c cs IH]; intros l Hone; [exact Hone|].
  change (perform_all UINT_BITS (c :: cs) l)
    with (perform_all UINT_BITS cs (perform UINT_BITS c l)).
  apply IH. unfold one_animation in *.
  destruct c; cbn [perform].
  - unfold turnOn. destruct (setState_flags HIGH l) as [-> ->]. exact Hone.
  - unfold turnOff. destruct (setState_flags LOW (clearPulse (clearBlink l))) as [-> _].
    reflexivity.
  - destruct (flip_flags l) as [-> ->]. exact Hone.
  - destruct (setLevel_flags newLevel l) as [-> ->]. exact Hone.
  - destruct (setColor_flags newR newG newB l) as [-> ->]. exact Hone.
  - unfold setCommonAnode. exact Hone.
  - unfold pulse.
    destruct (initPulse_fields pDelay count low high now l) as (-> & _). reflexivity.
  - unfold fadeIn.
    destruct (initFade_fields duration 0 targetLevel now l) as (-> & _). reflexivity.
  - unfold fadeOut. destruct (state l =? LOW); [exact Hone|].
    match goal with
    | |- context [initFade ?d ?s ?e ?n ?x] =>
        destruct (initFade_fields d s e n x) as (-> & _)
    end. reflexivity.
  - unfold blink.
    destruct (initBlink_fields delay count now l) as (_ & -> & _).
    apply andb_false_r.
  - unfold LED.update. rewrite runPulse_blinking.
    destruct (blinking l) eqn:Hb.
    + simpl in Hone.
      rewrite runPulse_idle by (apply runBlink_pulsing; exact Hone).
      rewrite (runBlink_pulsing _ _ _ Hone). apply andb_false_r.
    + unfold LED.runBlink. rewrite Hb. rewrite Hb. reflexivity.
Qed.

(** X22. [turnOff] ends every animation for good: the output is switched
    off, and no later poll writes to the pins or changes the object, until
    another member function is called. *)
Theorem turnOff_stops_every_animation (l : LED) (ks : list ticks) :
  let l' := turnOff l in
  blinking l' = false /\ pulsing l' = false
  /\ state l' = LOW
  /\ writes l' = writes l ++ off_writes l
  /\ run ks l' = l'
  /\ toggles ks l' = 0%nat.
Proof.
  intros l'. subst l'. unfold turnOff. rewrite setState_LOW. simpl.
  split; [reflexivity|]. split; [reflexivity|]. split; [reflexivity|].
  split; [reflexivity|].
  apply (run_stopped UINT_BITS); reflexivity.
Qed.


(** *** One-way fades *)

Lemma pulsedEnough_fade (x : LED) : pulseMax x = 0 -> pulsedEnough x = x.
Proof.
  intros H. unfold pulsedEnough. rewrite H.
  change (0 <? 0) with false. rewrite andb_false_r. reflexivity.
Qed.

(** One poll of a running fade. *)
Lemma fade_poll (up : bool) (low high D now : Z) (l : LED) (k : ticks) :
  fading up low high D now l ->
  let e := elapsed (pulse_start k) now in
  if D <=? e then
    update k l
    = (if up then clearPulse (setState HIGH (set_level high l))
       else setState LOW (clearPulse (setState HIGH (set_level low l))))
  else
    fading up low high D now (update k l)
    /\ level (update k l)
       = to_byte (if up
                  then low + to_ulong (to_uint UINT_BITS (high - low) * e) / D
                  else high - to_ulong (to_uint UINT_BITS (high - low) * e) / D).
Proof.
  intros (Hb & Hp & Hu & Hm & Hlo & Hhi & Hd & Hn & Hs & Hdim) e.
  rewrite (update_pulse UINT_BITS k l Hb). unfold LED.runPulse.
  rewrite Hp, Hu, Hd, Hn. fold e.
  destruct (D <=? e).
  - destruct up.
    + cbv zeta. rewrite Hhi, !setState_HIGH. simpl. rewrite Hm. reflexivity.
    + rewrite Hm, Hlo. reflexivity.
  - cbv zeta. rewrite Hlo, Hhi.
    assert (Hramp : forall d,
      let x := if negb (level l =? d) then setState HIGH (set_level d l) else l in
      pulsedEnough x = x /\ fading up low high D now x /\ level x = d).
    { intros d x. subst x.
      destruct (Z.eqb_spec (level l) d) as [Heq | Hne]; simpl negb; cbv iota.
      - split; [apply pulsedEnough_fade; exact Hm|].
        split; [|exact Heq]. unfold fading. auto 10.
      - rewrite setState_HIGH. simpl.
        split; [apply pulsedEnough_fade; simpl; exact Hm|].
        split; [|reflexivity]. unfold fading. simpl. auto 10. }
    destruct up.
    + match goal with
      | |- context [negb (level l =? ?d)] => destruct (Hramp d) as (-> & Hf & Hl)
      end. split; assumption.
    + match goal with
      | |- context [negb (level l =? ?d)] => destruct (Hramp d) as (-> & Hf & Hl)
      end. split; assumption.
Qed.

Lemma fade_early_run (up : bool) (low high D now : Z) (ks : list ticks) :
  forall l, fading up low high D now l -> early pulse_start D now ks ->
  fading up low high D now (run ks l).
Proof.
  induction ks as [|k ks IH]; intros l Hf He; [exact Hf|].
  inversion He as [|? ? Hk He']; subst.
  change (run (k :: ks) l) with (run ks (update k l)).
  apply IH; [|exact He'].
  pose proof (fade_poll up low high D now l k Hf) as Hpoll. cbv zeta in Hpoll.
  destruct (Z.leb_spec D (elapsed (pulse_start k) now)); [lia|].
  apply Hpoll.
Qed.

Lemma run_app (ks ks' : list ticks) (l : LED) : run (ks ++ ks') l = run ks' (run ks l).
Proof. unfold LED.run. apply fold_left_app. Qed.

(** X23. [fadeIn] ramps the level linearly from 0 and stops at the target.
    With a target above 0 and a duration short enough for the product with
    the target to fit 32 bits, a poll taken [e] milliseconds after the start
    leaves the output on at the level [e / duration] of the target (truncated)
    while [e] is below the duration; the first poll at or after the duration
    sets the level to the target, leaves the output on and ends the fade, and
    later polls change nothing. A duration of 0 counts as 1. *)
Theorem fadeIn_ramps_to_target
  (duration targetLevel now : Z) (l0 : LED) (ks : list ticks) (k : ticks) :
  0 < targetLevel <= 255 -> 8 <= UINT_BITS ->
  let D := Z.max 1 duration in
  targetLevel * D < 2 ^ 32 ->
  early pulse_start D now ks ->
  let l := run (ks ++ [k]) (fadeIn duration targetLevel now l0) in
  let e := elapsed (pulse_start k) now in
  state l = HIGH
  /\ if D <=? e
     then pulsing l = false /\ level l = targetLevel
          /\ (exists ws, writes l = ws ++ on_writes l)
          /\ forall more, run more l = l
     else pulsing l = true /\ level l = targetLevel * e / D.
Proof.
  intros Ht Hbits D Hfit Hearly l e.
  assert (HD : (if duration <? 1 then 1 else duration) = D).
  { subst D. destruct (Z.ltb_spec duration 1); lia. }
  assert (Hstart : fading true 0 targetLevel D now (fadeIn duration targetLevel now l0)).
  { unfold fadeIn.
    destruct (initFade_fields duration 0 targetLevel now l0)
      as (H1 & H2 & H3 & H4 & H5 & H6 & H7 & H8 & H9 & _ & H11 & _).
    rewrite HD in H6.
    assert (H7' : (0 <? targetLevel) = true) by (apply Z.ltb_lt; lia).
    rewrite H7' in H7. unfold fading. auto 10. }
  pose proof (fade_early_run true 0 targetLevel D now ks _ Hstart Hearly) as Hf.
  subst l. rewrite run_app.
  change (run [k] ?x) with (update k x).
  set (l := run ks (fadeIn duration targetLevel now l0)) in *.
  pose proof (fade_poll true 0 targetLevel D now l k Hf) as Hpoll. cbv zeta in Hpoll.
  fold e in Hpoll.
  destruct Hf as (Hb & Hp & Hu & Hm & Hlo & Hhi & Hd & Hn & Hs & Hdim).
  destruct (Z.leb_spec D e) as [Hdone | Hramp].
  - rewrite Hpoll. rewrite setState_HIGH. simpl.
    split; [reflexivity|]. split; [reflexivity|]. split; [reflexivity|].
    split.
    + exists (writes l). unfold on_writes. simpl. reflexivity.
    + intros more. apply (pulse_stopped UINT_BITS); simpl; [exact Hb | reflexivity].
  - destruct Hpoll as [Hf' Hlevel].
    destruct Hf' as (_ & Hp' & _ & _ & _ & _ & _ & _ & Hs' & _).
    split; [exact Hs'|]. split; [exact Hp'|].
    rewrite Hlevel. rewrite Z.sub_0_r, Z.add_0_l.
    assert (He : 0 <= e) by (subst e; apply elapsed_nonneg).
    assert (Hpow : 2 ^ 8 <= 2 ^ UINT_BITS) by (apply Z.pow_le_mono_r; lia).
    change (2 ^ 8) with 256 in Hpow.
    assert (HDpos : 0 < D) by (subst D; lia).
    unfold to_uint, to_ulong, to_byte.
    rewrite (wrap_small UINT_BITS targetLevel) by lia.
    rewrite (wrap_small 32 (targetLevel * e)) by nia.
    apply wrap_small. change (2 ^ 8) with 256.
    split; [apply Z.div_pos; nia|].
    assert (targetLevel * e / D < targetLevel); [|lia].
    apply Z.div_lt_upper_bound; nia.
Qed.

(** X24. [fadeOut] on an LED that is on ends with the LED off and its level
    as it was when the fade was started (255 for an LED that was not dimmed
    or was at level 0): the output stays on while the polls come before the
    duration is over; the first poll at or after it restores that level,
    switches the output off and ends the fade, and later polls change
    nothing. *)
Theorem fadeOut_ends_off_at_the_level_before
  (duration now : Z) (l0 : LED) (ks : list ticks) (k : ticks) :
  state l0 <> LOW ->
  let startLevel := if isDimmable l0 && (0 <? level l0) then level l0 else 255 in
  let D := Z.max 1 duration in
  early pulse_start D now ks ->
  D <= elapsed (pulse_start k) now ->
  let l1 := fadeOut duration now l0 in
  let l := run (ks ++ [k]) l1 in
  (state (run ks l1) = HIGH /\ pulsing (run ks l1) = true)
  /\ state l = LOW /\ pulsing l = false /\ blinking l = false
  /\ level l = startLevel /\ isDimmable l = true
  /\ (exists ws, writes l = ws ++ off_writes l)
  /\ forall more, run more l = l.
Proof.
  intros Hon startLevel D Hearly Hlate l1 l.
  assert (HD : (if duration <? 1 then 1 else duration) = D).
  { subst D. destruct (Z.ltb_spec duration 1); lia. }
  assert (Hpos : 0 < startLevel).
  { subst startLevel. destruct (isDimmable l0); simpl; [|lia].
    destruct (Z.ltb_spec 0 (level l0)); lia. }
  assert (Hstart : fading false startLevel 0 D now l1).
  { subst l1. unfold fadeOut.
    destruct (Z.eqb_spec (state l0) LOW) as [E | _]; [contradiction|].
    fold startLevel.
    destruct (initFade_fields duration startLevel 0 now l0)
      as (H1 & H2 & H3 & H4 & H5 & H6 & H7 & H8 & H9 & _ & H11 & _).
    rewrite HD in H6.
    assert (H7' : (startLevel <? 0) = false) by (apply Z.ltb_ge; lia).
    rewrite H7' in H7. unfold fading. auto 10. }
  pose proof (fade_early_run false startLevel 0 D now ks _ Hstart Hearly) as Hf.
  subst l. rewrite run_app.
  change (run [k] ?x) with (update k x).
  set (l := run ks l1) in *.
  pose proof (fade_poll false startLevel 0 D now l k Hf) as Hpoll. cbv zeta in Hpoll.
  destruct Hf as (Hb & Hp & Hu & Hm & Hlo & Hhi & Hd & Hn & Hs & Hdim).
  split; [split; assumption|].
  destruct (Z.leb_spec D (elapsed (pulse_start k) now)) as [_ | Hno]; [|lia].
  rewrite Hpoll. rewrite setState_LOW, setState_HIGH. simpl.
  split; [reflexivity|]. split; [reflexivity|]. split; [exact Hb|].
  split; [reflexivity|]. split; [exact Hdim|]. split.
  - eexists. unfold off_writes. simpl. reflexivity.
  - intros more. apply (pulse_stopped UINT_BITS); simpl; [exact Hb | reflexivity].
Qed.


(** *** The level of a pulse *)

Section Band.
Variables low high D : Z.

Lemma band_setState (v : Z) (x : LED) :
  in_band low high D x -> in_band low high D (setState v x).
Proof.
  intros H. destruct (setState_shape v x) as [ws ->]. exact H.
Qed.

Lemma band_set_level (d : Z) (x : LED) :
  low <= d <= high -> in_band low high D x -> in_band low high D (set_level d x).
Proof.
  intros Hd (Hb & _ & Hp). unfold in_band. simpl. auto.
Qed.

Lemma band_clearPulse (x : LED) :
  in_band low high D x -> in_band low high D (clearPulse x).
Proof.
  intros (Hb & Hl & _). unfold in_band. simpl.
  split; [exact Hb|]. split; [exact Hl|]. discriminate.
Qed.

Lemma band_pulsedEnough (x : LED) :
  in_band low high D x -> in_band low high D (pulsedEnough x).
Proof.
  intros H. unfold pulsedEnough.
  destruct ((pulseMax x <=? pulseCount x) && (0 <? pulseMax x)); [|exact H].
  apply band_setState, band_clearPulse, H.
Qed.

Lemma band_poll (k : ticks) (l : LED) :
  0 <= low -> low <= high -> high <= 255 -> 8 <= UINT_BITS -> 0 < D ->
  (high - low) * D < 2 ^ 32 ->
  in_band low high D l -> in_band low high D (update k l).
Proof.
  intros Hlow Hle Hhigh Hbits HD Hfit Hband.
  pose proof Hband as (Hb & Hl & Hp).
  rewrite (update_pulse UINT_BITS k l Hb).
  destruct (pulsing l) eqn:Hpl; [|rewrite runPulse_idle by exact Hpl; exact Hband].
  destruct (Hp eq_refl) as (Hlo & Hhi & Hd).
  assert (Hpow : 2 ^ 8 <= 2 ^ UINT_BITS) by (apply Z.pow_le_mono_r; lia).
  change (2 ^ 8) with 256 in Hpow.
  unfold LED.runPulse. rewrite Hpl, Hd, Hlo, Hhi.
  set (e := elapsed (pulse_start k) (lastPulseTime l)).
  assert (He : 0 <= e) by (subst e; apply elapsed_nonneg).
  assert (Hq : e < D ->
               to_ulong (to_uint UINT_BITS (high - low) * e) / D
               = (high - low) * e / D
               /\ 0 <= (high - low) * e / D <= high - low).
  { intros Hlt. unfold to_uint, to_ulong.
    rewrite (wrap_small UINT_BITS (high - low)) by lia.
    rewrite (wrap_small 32 ((high - low) * e)) by nia.
    split; [reflexivity|]. split; [apply Z.div_pos; nia|].
    apply Z.div_le_upper_bound; nia. }
  assert (Hramp : forall d, low <= d <= high ->
            in_band low high D
              (pulsedEnough
                 (if negb (level l =? d) then setState HIGH (set_level d l) else l))).
  { intros d Hd'. apply band_pulsedEnough.
    destruct (negb (level l =? d)); [|exact Hband].
    apply band_setState, band_set_level; assumption. }
  destruct (pulseUp l).
  - destruct (Z.leb_spec D e) as [Hdone | Hlt].
    + cbv zeta.
      assert (Hx : in_band low high D (setState HIGH (set_level high l))).
      { apply band_setState, band_set_level; [lia | exact Hband]. }
      destruct (pulseMax (setState HIGH (set_level high l)) =? 0).
      * apply band_clearPulse, Hx.
      * apply band_pulsedEnough.
        destruct Hx as (Hxb & Hxl & Hxp). unfold in_band. simpl. auto.
    + cbv zeta. destruct (Hq Hlt) as [-> Hrange].
      unfold to_byte. rewrite wrap_small by (change (2 ^ 8) with 256; lia).
      apply Hramp. lia.
  - destruct (Z.leb_spec D e) as [Hdone | Hlt].
    + destruct (pulseMax l =? 0).
      * apply band_setState, band_clearPulse, band_setState, band_set_level;
          [lia | exact Hband].
      * apply band_pulsedEnough. unfold in_band. simpl. auto.
    + cbv zeta. destruct (Hq Hlt) as [-> Hrange].
      unfold to_byte. rewrite wrap_small by (change (2 ^ 8) with 256; lia).
      apply Hramp. lia.
Qed.

End Band.

(** X25. The level of a pulse stays between its two ends. After
    [pulse(pDelay, count, low, high)] with [low <= high], and a half-period
    short enough for its product with [high - low] to fit 32 bits, the level
    starts at [low] and is between [low] and [high] after every poll, on the
    rising ramps, on the falling ramps and after the pulse has ended. *)
Theorem pulse_level_stays_between_its_ends
  (pDelay count low high now : Z) (l0 : LED) (ks : list ticks) :
  0 <= low -> low <= high -> high <= 255 -> 8 <= UINT_BITS ->
  (high - low) * (Z.max 2 pDelay / 2) < 2 ^ 32 ->
  let l1 := pulse pDelay count low high now l0 in
  level l1 = low
  /\ pulseDuration l1 = Z.max 2 pDelay / 2
  /\ low <= level (run ks l1) <= high.
Proof.
  intros Hlow Hle Hhigh Hbits Hfit l1.
  set (D := Z.max 2 pDelay / 2) in *.
  assert (HD : (if pDelay <? 2 then 2 else pDelay) / 2 = D).
  { subst D. destruct (Z.ltb_spec pDelay 2); [rewrite Z.max_l | rewrite Z.max_r];
      try lia; reflexivity. }
  assert (HDpos : 0 < D).
  { subst D. apply Z.div_str_pos. lia. }
  assert (Hfields : level l1 = low /\ pulseDuration l1 = D /\ in_band low high D l1).
  { subst l1. unfold pulse, initPulse. rewrite setState_HIGH.
    unfold setLevel. simpl.
    destruct (state l0 =? HIGH); [rewrite setState_HIGH|]; simpl;
      rewrite HD; unfold in_band; simpl;
      (split; [reflexivity|]); (split; [reflexivity|]);
      (split; [reflexivity|]); (split; [lia|]); auto. }
  destruct Hfields as (Hlevel & Hdur & Hband).
  split; [exact Hlevel|]. split; [exact Hdur|].
  assert (Hrun : forall ks l, in_band low high D l -> in_band low high D (run ks l)).
  { intros ks'. induction ks' as [|k ks' IH]; intros l Hl; [exact Hl|].
    change (run (k :: ks') l) with (run ks' (update k l)). apply IH.
    apply band_poll; assumption. }
  destruct (Hrun ks l1 Hband) as (_ & Hl & _). exact Hl.
Qed.


(** *** An endless blink *)

(** The members a running endless blink keeps. *)
Lemma endless_blink_poll (k : ticks) (l : LED) :
  pulsing l = false -> blinking l = true -> blinkMax l = 0 ->
  let due := blinkDelay l <=? elapsed (blink_check k) (lastBlinkTime l) in
  pulsing (update k l) = false /\ blinking (update k l) = true
  /\ blinkMax (update k l) = 0 /\ blinkDelay (update k l) = blinkDelay l
  /\ lastBlinkTime (update k l) = (if due then blink_stamp k else lastBlinkTime l)
  /\ (state (update k l) =? state l) = negb due
  /\ (due = false -> update k l = l).
Proof.
  intros Hp Hb Hm due.
  destruct (Z.leb_spec (blinkDelay l) (elapsed (blink_check k) (lastBlinkTime l)))
    as [Hdue | Hidle]; subst due.
  - pose proof (update_blink_due UINT_BITS k l Hp Hb Hdue) as H. cbv zeta in H.
    rewrite Hm in H. change (0 <? 0) with false in H. rewrite andb_false_r in H.
    destruct H as (Hp' & Hb' & Hm' & _ & Hd' & Hl' & Hs').
    split; [exact Hp'|]. split; [exact Hb'|]. split; [congruence|].
    split; [exact Hd'|]. split; [exact Hl'|]. split; [|discriminate].
    rewrite Hs'.
    destruct (Z.eqb_spec (state l) HIGH) as [-> | Hne]; [reflexivity|].
    change (negb true) with false. apply Z.eqb_neq. congruence.
  - assert (Hsame : update k l = l).
    { apply (update_blink_idle UINT_BITS); [exact Hp|].
      rewrite Hb. simpl. apply Z.leb_gt. exact Hidle. }
    rewrite Hsame, Z.eqb_refl. auto 10.
Qed.

(** X26. [blink] with count 0 never stops and toggles the output exactly at
    the polls that are due. The call itself writes nothing to the pin and
    keeps the output state; every poll taken a half-period or more (in
    wrap-around arithmetic) after the last toggle, or after the call,
    toggles the output, every other poll changes nothing, and the blink is
    still running after any number of polls. *)
Theorem endless_blink_toggles_when_due
  (delay now : Z) (l0 : LED) (ks : list ticks) :
  let l1 := blink UINT_BITS delay 0 now l0 in
  writes l1 = writes l0 /\ state l1 = state l0
  /\ blinkDelay l1 = Z.max 1 delay / 2
  /\ blinking (run ks l1) = true
  /\ (toggles ks l1 <= length ks)%nat
  /\ (early blink_check (blinkDelay l1) now ks -> run ks l1 = l1)
  /\ (paced blink_check blink_stamp (blinkDelay l1) now ks ->
      toggles ks l1 = length ks).
Proof.
  intros l1.
  pose proof (initBlink_fields delay 0 now l0) as Hfields. cbv zeta in Hfields.
  change (initBlink UINT_BITS delay 0 now l0) with l1 in Hfields.
  destruct Hfields as (Hb & Hp & Hd & Hl & _ & Hs & Hw & _ & Hm).
  specialize (Hm ltac:(lia)).
  split; [exact Hw|]. split; [exact Hs|]. split.
  { rewrite Hd. destruct (Z.ltb_spec delay 1);
      [rewrite Z.max_l | rewrite Z.max_r]; try lia; reflexivity. }
  assert (Hgen : forall ks l,
    pulsing l = false -> blinking l = true -> blinkMax l = 0 ->
    blinking (run ks l) = true
    /\ (toggles ks l <= length ks)%nat
    /\ (early blink_check (blinkDelay l) (lastBlinkTime l) ks -> run ks l = l)
    /\ (paced blink_check blink_stamp (blinkDelay l) (lastBlinkTime l) ks ->
        toggles ks l = length ks)).
  { clear. intros ks. induction ks as [|k ks IH]; intros l Hp Hb Hm.
    - simpl. auto.
    - destruct (endless_blink_poll k l Hp Hb Hm)
        as (Hp' & Hb' & Hm' & Hd' & Hl' & Hs' & Hidle).
      destruct (IH (update k l) Hp' Hb' Hm') as (H1 & H2 & H3 & H4).
      change (run (k :: ks) l) with (run ks (update k l)).
      change (toggles (k :: ks) l)
        with (if state (update k l) =? state l then toggles ks (update k l)
              else S (toggles ks (update k l))).
      rewrite Hs'.
      split; [exact H1|]. split; [|split].
      + destruct (negb _); simpl; lia.
      + intros Hearly. inversion Hearly as [|? ? Hk Hrest]; subst.
        assert (Hnot : (blinkDelay l <=? elapsed (blink_check k) (lastBlinkTime l)) = false)
          by (apply Z.leb_gt; exact Hk).
        rewrite (Hidle Hnot) in *. apply H3. exact Hrest.
      + intros [Hdue Hrest].
        assert (Hyes : (blinkDelay l <=? elapsed (blink_check k) (lastBlinkTime l)) = true)
          by (apply Z.leb_le; exact Hdue).
        rewrite Hyes in *. simpl. f_equal. apply H4.
        rewrite Hd', Hl'. exact Hrest. }
  destruct (Hgen ks l1 Hp Hb Hm) as (H1 & H2 & H3 & H4).
  rewrite Hl in H3, H4. auto.
Qed.

(** *** Colour *)

(** X27. The colour of an RGB LED reaches the pins when the LED is on.
    [setColor] on an LED that is on writes the three values at once, each
    complemented to 255 for a common-anode LED; on an LED that is off it
    writes nothing, and the values are written by the next [turnOn]. *)
Theorem color_is_written_when_on (newR newG newB : Z) (l : LED) :
  isRGB l = true ->
  0 <= newR <= 255 -> 0 <= newG <= 255 -> 0 <= newB <= 255 ->
  let shown := fun c => if commonAnode l then 255 - c else c in
  let w := [AnalogWrite (pin l) (shown newR); AnalogWrite (pinG l) (shown newG);
            AnalogWrite (pinB l) (shown newB)] in
  let l' := setColor newR newG newB l in
  state l' = state l
  /\ writes l' = (if state l =? HIGH then writes l ++ w else writes l)
  /\ writes (turnOn l') = writes l' ++ w.
Proof.
  intros Hrgb HR HG HB shown w l'.
  assert (Hbyte : forall c, 0 <= c <= 255 -> to_byte (255 - c) = 255 - c).
  { intros c Hc. unfold to_byte. apply wrap_small. change (2 ^ 8) with 256. lia. }
  subst l' w shown. unfold setColor, turnOn.
  set (x := if commonAnode l then _ else _).
  assert (Hx : state x = state l /\ writes x = writes l
               /\ on_writes x
                  = [AnalogWrite (pin l) (if commonAnode l then 255 - newR else newR);
                     AnalogWrite (pinG l) (if commonAnode l then 255 - newG else newG);
                     AnalogWrite (pinB l) (if commonAnode l then 255 - newB else newB)]).
  { subst x. unfold on_writes.
    destruct (commonAnode l); simpl; rewrite Hrgb, ?Hbyte by assumption; auto. }
  destruct Hx as (Hxs & Hxw & Hon).
  assert (Hon' : on_writes (set_writes (writes x ++ on_writes x) (set_state HIGH x))
                 = on_writes x) by reflexivity.
  rewrite Hxs.
  destruct (state l =? HIGH) eqn:Hs.
  - apply Z.eqb_eq in Hs. rewrite !setState_HIGH, Hon', Hon, Hxw. simpl.
    split; [symmetry; exact Hs|]. split; reflexivity.
  - rewrite setState_HIGH, Hon, Hxw. simpl.
    split; [exact Hxs|]. split; reflexivity.
Qed.

End LEDMore.

(** ** Device *)

Section RegistryMore.
Import Device.
Context {A : Type}.

(** X28. The handles of a kind of peripheral are issued in order. With the
    counter within the array (at most 255 elements) and an [init] that
    returns, the function that sets up a peripheral halts with its message
    exactly when the array is full; otherwise it initialises the element at
    the counter, returns the counter as the handle, which is never
    [INVALID_HANDLE], and advances the counter by one. The accessor refuses
    that handle before the call and returns the new element after it, and
    the handles issued before keep their elements. *)
Theorem handles_are_issued_in_order
  (fatal fatal' : string) (initialise : A -> outcome A) (r : registry A) :
  0 <= totalSetup r <= Z.of_nat (length (items r)) ->
  (length (items r) <= 255)%nat ->
  (forall x, exists x' serial, initialise x = Continue x' serial) ->
  (totalSetup r = Z.of_nat (length (items r))
   /\ new_item fatal initialise r = Halted [fatal])
  \/ (totalSetup r < Z.of_nat (length (items r))
      /\ exists x x' serial r',
           items r !! Z.to_nat (totalSetup r) = Some x
           /\ initialise x = Continue x' serial
           /\ new_item fatal initialise r = Continue (totalSetup r, r') serial
           /\ totalSetup r <> INVALID_HANDLE
           /\ totalSetup r' = totalSetup r + 1
           /\ items r' = <[Z.to_nat (totalSetup r) := x']> (items r)
           /\ item fatal' (totalSetup r) r = Halted [fatal']
           /\ item fatal' (totalSetup r) r' = Continue x' []
           /\ forall h, 0 <= h < totalSetup r -> item fatal' h r' = item fatal' h r).
Proof.
  intros Hts Hlen Hinit.
  destruct (Z.eq_dec (totalSetup r) (Z.of_nat (length (items r)))) as [Hfull | Hfree].
  - left. split; [exact Hfull|]. unfold new_item.
    destruct (Z.leb_spec (Z.of_nat (length (items r))) (totalSetup r)); [reflexivity | lia].
  - right. split; [lia|].
    assert (Hlt : (Z.to_nat (totalSetup r) < length (items r))%nat) by lia.
    destruct (lookup_lt_is_Some_2 _ _ Hlt) as [x Hx].
    destruct (Hinit x) as (x' & serial & Hx').
    exists x, x', serial.
    eexists (Build_registry _ _).
    split; [exact Hx|]. split; [exact Hx'|].
    split.
    { unfold new_item.
      destruct (Z.leb_spec (Z.of_nat (length (items r))) (totalSetup r)); [lia|].
      rewrite Hx, Hx'. reflexivity. }
    assert (Hbyte : to_byte (totalSetup r + 1) = totalSetup r + 1).
    { unfold to_byte. apply wrap_small. change (2 ^ 8) with 256. lia. }
    split; [unfold INVALID_HANDLE; lia|]. simpl.
    split; [exact Hbyte|]. split; [reflexivity|].
    split.
    { unfold item. rewrite Z.leb_refl. reflexivity. }
    split.
    { unfold item. simpl. rewrite Hbyte.
      destruct (Z.leb_spec (totalSetup r + 1) (totalSetup r)); [lia|].
      destruct (Z.eqb_spec (totalSetup r) INVALID_HANDLE) as [E|_];
        [unfold INVALID_HANDLE in E; lia|].
      simpl. rewrite list_lookup_insert_eq by exact Hlt. reflexivity. }
    intros h Hh. unfold item. simpl. rewrite Hbyte.
    destruct (Z.leb_spec (totalSetup r + 1) h); [lia|].
    destruct (Z.leb_spec (totalSetup r) h); [lia|]. simpl.
    rewrite list_lookup_insert_ne by lia. reflexivity.
Qed.

End RegistryMore.

(** ** The further properties at concrete inputs *)

(** *** The scheduler *)

Section IntervalWitnesses.
Import Interval.
Local Abbreviation run := quiet_run.
Local Abbreviation update := (Interval.update quiet_run).
Local Abbreviation updates := (Interval.updates quiet_run).

(** A timer of two runs in the free slot of a table, polled four times. *)
Lemma finite_timer_witness :
  let t := sparse_table in
  let f := Beep in
  let wait := 100 in
  let n := 2 in
  let msg := 5 in
  let now := 1000 in
  let k := 1%nat in
  let t1 := <[1%nat := Build_slot (Some Beep) 2 100 1000 5 false]> sparse_table in
  let cs : list clock := [at_time 1100; at_time 1150; at_time 1250; at_time 1400] in
  let st := updates cs t1 in
  let runs := Z.of_nat (length (calls_of k (snd st))) in
  ((length t <= 255)%nat
   /\ (forall g m t', run g m t' = t')
   /\ 0 < n
   /\ add (Some f) wait n msg now t = Continue (k, t1) [])
  /\ (runs <= n
  /\ Forall (fun c => c = (k, f, msg)) (calls_of k (snd st))
  /\ (exists s, fst st !! k = Some s
        /\ counts s = (if runs =? n then -1 else n - runs))
  /\ (clock_paced k wait now cs -> runs = Z.min n (Z.of_nat (length cs)))).
Proof.
  intros.
  assert (W1 : (length t <= 255)%nat) by (by_evaluation).
  assert (W2 : (forall g m t', run g m t' = t')) by (by_evaluation).
  assert (W3 : 0 < n) by (by_evaluation).
  assert (W4 : add (Some f) wait n msg now t = Continue (k, t1) []) by (by_evaluation).
  split; [exact (conj W1 (conj W2 (conj W3 (W4))))|].
  exact (finite_timer_runs_count_times quiet_run t f wait n msg now k t1 cs W1 W2 W3 W4).
Defined.

(** An endless timer in the free slot of a table, polled a period apart. *)
Lemma endless_timer_witness :
  let t := sparse_table in
  let f := Beep in
  let wait := 100 in
  let msg := 5 in
  let now := 1000 in
  let k := 1%nat in
  let t1 := <[1%nat := Build_slot (Some Beep) 0 100 1000 5 false]> sparse_table in
  let cs : list clock := [at_time 1100; at_time 1200; at_time 1300] in
  let st := updates cs t1 in
  ((length t <= 255)%nat
   /\ (forall g m t', run g m t' = t')
   /\ add (Some f) wait 0 msg now t = Continue (k, t1) [])
  /\ ((exists s, fst st !! k = Some s /\ counts s = 0 /\ paused s = false)
  /\ Forall (fun c => c = (k, f, msg)) (calls_of k (snd st))
  /\ (length (calls_of k (snd st)) <= length cs)%nat
  /\ (clock_paced k wait now cs -> length (calls_of k (snd st)) = length cs)).
Proof.
  intros.
  assert (W1 : (length t <= 255)%nat) by (by_evaluation).
  assert (W2 : (forall g m t', run g m t' = t')) by (by_evaluation).
  assert (W3 : add (Some f) wait 0 msg now t = Continue (k, t1) []) by (by_evaluation).
  split; [exact (conj W1 (conj W2 (W3)))|].
  exact (endless_timer_keeps_running quiet_run t f wait msg now k t1 cs W1 W2 W3).
Defined.

(** The third timer of the table, paused over two polls and resumed at 5000 ms. *)
Lemma paused_timer_witness :
  let t := demo_table in
  let k := 2%nat in
  let s := Build_slot (Some Beep) 2 10 0 9 false in
  let now := 5000 in
  let cs : list clock := [at_time 100; at_time 200] in
  let cs' : list clock := [at_time 5001; at_time 5009] in
  let st := updates cs (pause k t) in
  let tr := resume k now (fst st) in
  ((forall g m t', run g m t' = t')
   /\ t !! k = Some s
   /\ 0 <= counts s)
  /\ (calls_of k (snd st) = []
  /\ fst st !! k = Some (set_paused true s)
  /\ tr !! k = Some (set_lastRuns now (set_paused false s))
  /\ (Forall (fun c : clock => elapsed (fst (c k)) now < waits s) cs' ->
      calls_of k (snd (updates cs' tr)) = [])).
Proof.
  intros.
  assert (W1 : (forall g m t', run g m t' = t')) by (by_evaluation).
  assert (W2 : t !! k = Some s) by (by_evaluation).
  assert (W3 : 0 <= counts s) by (by_evaluation).
  split; [exact (conj W1 (conj W2 (W3)))|].
  exact (paused_timer_waits_for_resume quiet_run t k s now cs cs' W1 W2 W3).
Defined.

(** The endless timer of the table, cleared. *)
Lemma cleared_timer_witness :
  let t := demo_table in
  let k := 0%nat in
  let cs : list clock := [at_time 100; at_time 200] in
  let g := Some Beep in
  let wait := 10 in
  let count := 1 in
  let msg := 0 in
  let now := 300 in
  ((length t <= 255)%nat
   /\ (forall g m t', run g m t' = t')
   /\ (k < length t)%nat)
  /\ ((forall j, j <> k -> clear k t !! j = t !! j)
  /\ calls_of k (snd (updates cs (clear k t))) = []
  /\ fst (updates cs (clear k t)) !! k = Some cleared
  /\ (exists j, (j <= k)%nat
        /\ add g wait count msg now (clear k t)
           = Continue (j, <[j := Build_slot g count wait now msg false]> (clear k t)) [])
  /\ (forall k', (length t <= k')%nat -> clear k' t = t)).
Proof.
  intros.
  assert (W1 : (length t <= 255)%nat) by (by_evaluation).
  assert (W2 : (forall g m t', run g m t' = t')) by (by_evaluation).
  assert (W3 : (k < length t)%nat) by (by_evaluation).
  split; [exact (conj W1 (conj W2 (W3)))|].
  exact (cleared_timer_is_gone quiet_run t k cs g wait count msg now W1 W2 W3).
Defined.

(** [add] on a table with one free slot. *)
Lemma add_witness :
  let t := sparse_table in
  let g := Some Beep in
  let wait := 10 in
  let count := 1 in
  let msg := 0 in
  let now := 300 in
  ((length t <= 255)%nat)
  /\ (((forall j s, t !! j = Some s -> counts s <> -1) <->
   add g wait count msg now t
   = Halted ["FATAL ERROR: All interval slots used. Increase TOTAL_INTERVALS. Halting."%string])
  /\ (forall k t', add g wait count msg now t = Continue (k, t') [] ->
        length t' = length t
        /\ t' !! k = Some (Build_slot g count wait now msg false)
        /\ forall j, j <> k -> t' !! j = t !! j)).
Proof.
  intros.
  assert (W1 : (length t <= 255)%nat) by (by_evaluation).
  split; [exact (W1)|].
  exact (add_halts_when_full t g wait count msg now W1).
Defined.

(** A timer stamped 96 ms before the roll-over, polled 54 ms after it. *)
Lemma rollover_witness :
  let t := [Build_slot (Some Beep) 0 100 4294967200 7 false] in
  let k := 0%nat in
  let s := Build_slot (Some Beep) 0 100 4294967200 7 false in
  let f := Beep in
  let c := at_time 54 in
  let d := 150 in
  ((forall g m t', run g m t' = t')
   /\ t !! k = Some s
   /\ 0 <= counts s
   /\ paused s = false
   /\ callbacks s = Some f
   /\ 0 <= d < 2 ^ 32
   /\ fst (c k) = to_ulong (lastRuns s + d))
  /\ (calls_of k (snd (update c t)) = if waits s <=? d then [(k, f, msgs s)] else []).
Proof.
  intros.
  assert (W1 : (forall g m t', run g m t' = t')) by (by_evaluation).
  assert (W2 : t !! k = Some s) by (by_evaluation).
  assert (W3 : 0 <= counts s) by (by_evaluation).
  assert (W4 : paused s = false) by (by_evaluation).
  assert (W5 : callbacks s = Some f) by (by_evaluation).
  assert (W6 : 0 <= d < 2 ^ 32) by (by_evaluation).
  assert (W7 : fst (c k) = to_ulong (lastRuns s + d)) by (by_evaluation).
  split; [exact (conj W1 (conj W2 (conj W3 (conj W4 (conj W5 (conj W6 (W7)))))))|].
  exact (timer_due_across_rollover quiet_run t k s f c d W1 W2 W3 W4 W5 W6 W7).
Defined.

(** [after(100, Beep).withMessage(42)], polled twice. *)
Lemma one_shot_message_witness :
  let t := sparse_table in
  let f := Beep in
  let delayMs := 100 in
  let msg := 42 in
  let now := 1000 in
  let k := 1%nat in
  let t1 := <[1%nat := Build_slot (Some Beep) 1 100 1000 0 false]> sparse_table in
  let cs : list clock := [at_time 1100; at_time 1300] in
  let t2 := Device.withMessage k msg t1 in
  let log := calls_of k (snd (updates cs t2)) in
  ((length t <= 255)%nat
   /\ (forall g m t', run g m t' = t')
   /\ Device.after delayMs (Some f) now t = Continue (k, t1) [])
  /\ ((t2 !! k = Some (Build_slot (Some f) 1 delayMs now msg false)
   /\ forall j, j <> k -> t2 !! j = t !! j)
  /\ (log = [] \/ log = [(k, f, msg)])
  /\ (clock_paced k delayMs now cs -> cs <> [] -> log = [(k, f, msg)])
  /\ (forall j m (t' : list (slot demo_callback)), is_active j t' = false -> Device.withMessage j m t' = t')).
Proof.
  intros.
  assert (W1 : (length t <= 255)%nat) by (by_evaluation).
  assert (W2 : (forall g m t', run g m t' = t')) by (by_evaluation).
  assert (W3 : Device.after delayMs (Some f) now t = Continue (k, t1) [])
    by (by_evaluation).
  split; [exact (conj W1 (conj W2 (W3)))|].
  exact (one_shot_carries_its_message quiet_run t f delayMs msg now k t1 cs W1 W2 W3).
Defined.

(** [repeat(100, 65535, Beep)] where [unsigned int] has 16 bits. *)
Lemma repeat_witness :
  let UINT_BITS := 16 in
  let t := sparse_table in
  let f := Some Beep in
  let delayMs := 100 in
  let count := 65535 in
  let now := 1000 in
  let k := 1%nat in
  let t1 := <[1%nat := Build_slot (Some Beep) (-1) 100 1000 0 false]> sparse_table in
  let cs : list clock := [at_time 1100; at_time 1300] in
  ((length t <= 255)%nat
   /\ (forall g m t', run g m t' = t')
   /\ 2 ^ (UINT_BITS - 1) <= count < 2 ^ UINT_BITS
   /\ Device.repeat UINT_BITS delayMs count f now t = Continue (k, t1) [])
  /\ (calls_of k (snd (updates cs t1)) = []
  /\ fst (updates cs t1) !! k
     = Some (Build_slot f (count - 2 ^ UINT_BITS) delayMs now 0 false)
  /\ (count = 2 ^ UINT_BITS - 1 ->
      forall g wait' count' msg' now',
      exists t2, add g wait' count' msg' now' t1 = Continue (k, t2) [])
  /\ (count < 2 ^ UINT_BITS - 1 ->
      forall g wait' count' msg' now' j t2,
      add g wait' count' msg' now' t1 = Continue (j, t2) [] -> j <> k)).
Proof.
  intros.
  assert (W1 : (length t <= 255)%nat) by (by_evaluation).
  assert (W2 : (forall g m t', run g m t' = t')) by (by_evaluation).
  assert (W3 : 2 ^ (UINT_BITS - 1) <= count < 2 ^ UINT_BITS) by (by_evaluation).
  assert (W4 : Device.repeat UINT_BITS delayMs count f now t = Continue (k, t1) [])
    by (by_evaluation).
  split; [exact (conj W1 (conj W2 (conj W3 (W4))))|].
  exact (repeat_count_beyond_int_never_runs quiet_run UINT_BITS t f delayMs count now k t1 cs W1 W2 W3 W4).
Defined.

End IntervalWitnesses.

(** *** The analog sensor *)

Section AnalogWitnesses.
Import AnalogSensor.
Local Abbreviation board := avr.
Local Abbreviation computeHiRes := (AnalogSensor.computeHiRes avr).
Local Abbreviation update := (AnalogSensor.update avr).
Local Abbreviation sensor_events := (sensor_events avr).
Local Abbreviation sensor_run := (sensor_run avr).

(** A quantized sensor over its first nine polls. *)
Lemma range_witness :
  let s := unread_sensor in
  let rawValue := 512 in
  let raws := [600; 700; 1023; 0; 0; 0; 0; 5] in
  let s1 := fst (update rawValue s) in
  let s' := sensor_run raws s1 in
  (hasInitialRead s = false
   /\ outputMin s <= outputMax s)
  /\ (in_output_range s (currentReportedValue s')
  /\ currentValue s' = currentReportedValue s'
  /\ Forall (in_output_range s) (changes (sensor_events raws s1))).
Proof.
  intros.
  assert (W1 : hasInitialRead s = false) by (by_evaluation).
  assert (W2 : outputMin s <= outputMax s) by (by_evaluation).
  split; [exact (conj W1 (W2))|].
  exact (reported_value_stays_in_range avr s rawValue raws W1 W2).
Defined.

(** A reading of 600 after a reported value of 127, with a threshold of 5. *)
Lemma threshold_witness :
  let s := threshold_sensor in
  let rawValue := 600 in
  let s' := fst (update rawValue s) in
  let hi := hiResValue s' in
  let cur := currentReportedValue s in
  let threshold := Z.max 1 (delta s) in
  let moved := threshold <=? Z.abs (hi - cur) in
  (hasInitialRead s = true
   /\ completes_window rawValue s = true
   /\ quantizeStep s <= 0)
  /\ (currentReportedValue s' = (if moved then hi else cur)
  /\ Z.abs (hi - currentReportedValue s') < threshold
  /\ (currentReportedValue s' <> cur ->
      threshold <= Z.abs (currentReportedValue s' - cur))
  /\ changes (snd (update rawValue s))
     = (if moved && hasChangeFunc s then [hi] else [])).
Proof.
  intros.
  assert (W1 : hasInitialRead s = true) by (by_evaluation).
  assert (W2 : completes_window rawValue s = true) by (by_evaluation).
  assert (W3 : quantizeStep s <= 0) by (by_evaluation).
  split; [exact (conj W1 (conj W2 (W3)))|].
  exact (threshold_mode_tracks_measured_value avr s rawValue W1 W2 W3).
Defined.

(** A window of four readings. *)
Lemma smoothing_witness :
  let s := smoothed_sensor in
  let raws := [100; 104; 108] in
  let rawValue := 113 in
  let s1 := sensor_run raws s in
  let s2 := fst (update rawValue s1) in
  (hasInitialRead s = true
   /\ avgCount s = 0
   /\ accumulatedSum s = 0
   /\ 1 <= avgSamples s <= 255
   /\ Z.of_nat (length raws) + 1 = avgSamples s
   /\ Forall reading_fits raws
   /\ reading_fits rawValue)
  /\ (sensor_events raws s = []
  /\ s1 = set_avgCount (Z.of_nat (length raws))
            (set_accumulatedSum (sum_of raws) s)
  /\ completes_window rawValue s1 = true
  /\ hiResValue s2
     = computeHiRes ((sum_of raws + rawValue) / avgSamples s) s
  /\ avgCount s2 = 0 /\ accumulatedSum s2 = 0).
Proof.
  intros.
  assert (W1 : hasInitialRead s = true) by (by_evaluation).
  assert (W2 : avgCount s = 0) by (by_evaluation).
  assert (W3 : accumulatedSum s = 0) by (by_evaluation).
  assert (W4 : 1 <= avgSamples s <= 255) by (by_evaluation).
  assert (W5 : Z.of_nat (length raws) + 1 = avgSamples s) by (by_evaluation).
  assert (W6 : Forall reading_fits raws)
    by (repeat (constructor; [by_evaluation|]); constructor).
  assert (W7 : reading_fits rawValue) by (by_evaluation).
  split; [exact (conj W1 (conj W2 (conj W3 (conj W4 (conj W5 (conj W6 (W7)))))))|].
  exact (smoothing_reports_window_mean avr s raws rawValue W1 W2 W3 W4 W5 W6 W7).
Defined.

(** A sensor that reads 512 ten times. *)
Lemma constant_input_witness :
  let s := unread_sensor in
  let rawValue := 512 in
  let n := 9%nat in
  let s1 := fst (update rawValue s) in
  (hasInitialRead s = false
   /\ 1 <= avgSamples s <= 255
   /\ reading_fits rawValue)
  /\ (snd (update rawValue s) = []
  /\ sensor_events (repeat rawValue n) s1 = []
  /\ currentReportedValue (sensor_run (repeat rawValue n) s1)
     = currentReportedValue s1).
Proof.
  intros.
  assert (W1 : hasInitialRead s = false) by (by_evaluation).
  assert (W2 : 1 <= avgSamples s <= 255) by (by_evaluation).
  assert (W3 : reading_fits rawValue) by (by_evaluation).
  split; [exact (conj W1 (conj W2 (W3)))|].
  exact (constant_input_fires_nothing avr s rawValue n W1 W2 W3).
Defined.

(** The two ends of the input range of an inverted sensor. *)
Lemma mapping_witness :
  let s := invert (outputRange 0 100 fresh) in
  let a := 0 in
  let b := 1023 in
  let lo := if inverted s then outputMax s else outputMin s in
  let hi := if inverted s then outputMin s else outputMax s in
  (1 <= INT_BITS board <= 32
   /\ ranges_fit board s
   /\ fits_int board a
   /\ fits_int board b
   /\ inputMin s < inputMax s
   /\ outputMin s <= outputMax s
   /\ a <= b)
  /\ ((a <= inputMin s -> computeHiRes a s = lo)
  /\ (inputMax s <= b -> computeHiRes b s = hi)
  /\ (if inverted s then computeHiRes b s <= computeHiRes a s
      else computeHiRes a s <= computeHiRes b s)).
Proof.
  intros.
  assert (W1 : 1 <= INT_BITS board <= 32) by (by_evaluation).
  assert (W2 : ranges_fit board s) by (by_evaluation).
  assert (W3 : fits_int board a) by (by_evaluation).
  assert (W4 : fits_int board b) by (by_evaluation).
  assert (W5 : inputMin s < inputMax s) by (by_evaluation).
  assert (W6 : outputMin s <= outputMax s) by (by_evaluation).
  assert (W7 : a <= b) by (by_evaluation).
  split; [exact (conj W1 (conj W2 (conj W3 (conj W4 (conj W5 (conj W6 (W7)))))))|].
  exact (mapping_is_monotone_between_the_ends avr s a b W1 W2 W3 W4 W5 W6 W7).
Defined.

(** [outputRange(255, 0)]. *)
Lemma reversed_range_witness :
  let s := outputRange 255 0 fresh in
  let avgValue := 300 in
  (outputMax s < outputMin s)
  /\ (computeHiRes avgValue s = (if inverted s then outputMin s else outputMax s)).
Proof.
  intros.
  assert (W1 : outputMax s < outputMin s) by (by_evaluation).
  split; [exact (W1)|].
  exact (reversed_output_range_is_constant avr s avgValue W1).
Defined.

(** Four [addZone] calls on a sensor with room for two zones: the second has its bounds the wrong way round, the fourth finds the table full. *)
Lemma add_zones_witness :
  let MAX_ZONES_PER_SENSOR := 2 in
  let reqs : list zone_request := [(1, 0, 50); (2, 60, 40); (3, 51, 100); (4, 0, 10)] in
  let s := fresh in
  let s' := add_zones MAX_ZONES_PER_SENSOR reqs s in
  (MAX_ZONES_PER_SENSOR <= 255
   /\ Z.of_nat (length (defined_zones s)) <= MAX_ZONES_PER_SENSOR)
  /\ (defined_zones s'
  = take (Z.to_nat MAX_ZONES_PER_SENSOR)
      (defined_zones s ++ well_formed_requests reqs)
  /\ Z.of_nat (length (defined_zones s')) <= MAX_ZONES_PER_SENSOR
  /\ (Forall (fun z => min_val z <= max_val z) (defined_zones s) ->
      Forall (fun z => min_val z <= max_val z) (defined_zones s'))).
Proof.
  intros.
  assert (W1 : MAX_ZONES_PER_SENSOR <= 255) by (by_evaluation).
  assert (W2 : Z.of_nat (length (defined_zones s)) <= MAX_ZONES_PER_SENSOR)
    by (by_evaluation).
  split; [exact (conj W1 (W2))|].
  exact (add_zones_keeps_the_first_valid_requests MAX_ZONES_PER_SENSOR reqs s W1 W2).
Defined.

End AnalogWitnesses.

(** *** The button *)

Section ButtonWitnesses.
Import Button.
Local Abbreviation DEBOUNCE_DELAY := 50.

(** A press, a bounce inside the window and the release. *)
Lemma alternation_witness :
  let ps := [Build_sample LOW 1000 1000; Build_sample HIGH 1005 1005; Build_sample HIGH 1100 1100] in
  let b := listening_button in
  (hasPressFunc b = true
   /\ hasReleaseFunc b = true
   /\ is_level (oldState b)
   /\ Forall (fun p => is_level (raw p)) ps)
  /\ (alternates (if oldState b =? pressed_level b then Released else Pressed)
    (button_events DEBOUNCE_DELAY ps b)).
Proof.
  intros.
  assert (W1 : hasPressFunc b = true) by (by_evaluation).
  assert (W2 : hasReleaseFunc b = true) by (by_evaluation).
  assert (W3 : is_level (oldState b)) by (first [left; reflexivity | right; reflexivity]).
  assert (W4 : Forall (fun p => is_level (raw p)) ps)
    by (repeat (constructor; [first [left; reflexivity | right; reflexivity]|]); constructor).
  split; [exact (conj W1 (conj W2 (conj W3 (W4))))|].
  exact (presses_and_releases_alternate 50 ps b W1 W2 W3 W4).
Defined.

End ButtonWitnesses.

(** *** The rotary encoder *)

Section EncoderWitnesses.
Import RotaryEncoder.
Local Abbreviation ENCODER_DEBOUNCE_DELAY := 5.
Local Abbreviation update := (RotaryEncoder.update 50 5).

(** A rising edge of [CLK] with [DT] high, one second after start. *)
Lemma rotation_witness :
  let p := Build_reading (Button.Build_sample HIGH 0 0) 1 1 1000 1000 in
  let e := listening_encoder in
  let e' := fst (update p e) in
  let rising := negb (clk p =? lastStateCLK e) && (clk p =? 1) in
  let spaced := ENCODER_DEBOUNCE_DELAY <=? elapsed (rot_check p) (lastRotationTime e) in
  (hasCWFunc e = true
   /\ hasCCWFunc e = true)
  /\ (rotations (snd (update p e))
  = (if rising && spaced
     then [if dt p =? 1 then Clockwise else CounterClockwise] else [])
  /\ lastStateCLK e' = clk p
  /\ lastRotationTime e'
     = (if rising && spaced then rot_stamp p else lastRotationTime e)
  /\ hasCWFunc e' = true /\ hasCCWFunc e' = true).
Proof.
  intros.
  assert (W1 : hasCWFunc e = true) by (by_evaluation).
  assert (W2 : hasCCWFunc e = true) by (by_evaluation).
  split; [exact (conj W1 (W2))|].
  exact (rotation_fires_on_debounced_rising_edge 50 5 p e W1 W2).
Defined.

End EncoderWitnesses.

(** *** The LED *)

Section LEDWitnesses.
Import LED.
Local Abbreviation UINT_BITS := 16.
Local Abbreviation update := (LED.update 16).
Local Abbreviation run := (LED.run 16).
Local Abbreviation toggles := (LED.toggles 16).

(** A blink, a pulse and a fade started one after the other. *)
Lemma one_animation_witness :
  let cs := [Blink 500 3 0; Update (tick_at 300); Pulse 1000 2 0 255 400; Update (tick_at 900); FadeOut 100 950; Blink 10 0 960; TurnOff] in
  let l := led_off in
  (one_animation l)
  /\ (one_animation (perform_all UINT_BITS cs l)).
Proof.
  intros.
  assert (W1 : one_animation l) by (by_evaluation).
  split; [exact (W1)|].
  exact (animations_exclude_each_other 16 cs l W1).
Defined.

(** A fade to level 200 over one second, polled at 250, 500 and 750 ms. *)
Lemma fadeIn_witness :
  let duration := 1000 in
  let targetLevel := 200 in
  let now := 0 in
  let l0 := led_off in
  let ks := [tick_at 250; tick_at 500] in
  let k := tick_at 750 in
  let D := Z.max 1 duration in
  let l := run (ks ++ [k]) (fadeIn duration targetLevel now l0) in
  let e := elapsed (pulse_start k) now in
  (0 < targetLevel <= 255
   /\ 8 <= UINT_BITS
   /\ targetLevel * D < 2 ^ 32
   /\ early pulse_start D now ks)
  /\ (state l = HIGH
  /\ if D <=? e
     then pulsing l = false /\ level l = targetLevel
          /\ (exists ws, writes l = ws ++ on_writes l)
          /\ forall more, run more l = l
     else pulsing l = true /\ level l = targetLevel * e / D).
Proof.
  intros.
  assert (W1 : 0 < targetLevel <= 255) by (by_evaluation).
  assert (W2 : 8 <= UINT_BITS) by (by_evaluation).
  assert (W3 : targetLevel * D < 2 ^ 32) by (by_evaluation).
  assert (W4 : early pulse_start D now ks)
    by (unfold early; repeat (constructor; [by_evaluation|]); constructor).
  split; [exact (conj W1 (conj W2 (conj W3 (W4))))|].
  exact (fadeIn_ramps_to_target 16 duration targetLevel now l0 ks k W1 W2 W3 W4).
Defined.

(** A fade-out over one second of an LED that is on, polled at 500 and 1000 ms. *)
Lemma fadeOut_witness :
  let duration := 1000 in
  let now := 0 in
  let l0 := led_on in
  let ks := [tick_at 500] in
  let k := tick_at 1000 in
  let startLevel := if isDimmable l0 && (0 <? level l0) then level l0 else 255 in
  let D := Z.max 1 duration in
  let l1 := fadeOut duration now l0 in
  let l := run (ks ++ [k]) l1 in
  (state l0 <> LOW
   /\ early pulse_start D now ks
   /\ D <= elapsed (pulse_start k) now)
  /\ ((state (run ks l1) = HIGH /\ pulsing (run ks l1) = true)
  /\ state l = LOW /\ pulsing l = false /\ blinking l = false
  /\ level l = startLevel /\ isDimmable l = true
  /\ (exists ws, writes l = ws ++ off_writes l)
  /\ forall more, run more l = l).
Proof.
  intros.
  assert (W1 : state l0 <> LOW) by (by_evaluation).
  assert (W2 : early pulse_start D now ks)
    by (unfold early; repeat (constructor; [by_evaluation|]); constructor).
  assert (W3 : D <= elapsed (pulse_start k) now) by (by_evaluation).
  split; [exact (conj W1 (conj W2 (W3)))|].
  exact (fadeOut_ends_off_at_the_level_before 16 duration now l0 ks k W1 W2 W3).
Defined.

(** A pulse between the levels 10 and 200. *)
Lemma pulse_band_witness :
  let pDelay := 1000 in
  let count := 2 in
  let low := 10 in
  let high := 200 in
  let now := 0 in
  let l0 := led_off in
  let ks := [tick_at 100; tick_at 500; tick_at 700; tick_at 1000] in
  let l1 := pulse pDelay count low high now l0 in
  (0 <= low
   /\ low <= high
   /\ high <= 255
   /\ 8 <= UINT_BITS
   /\ (high - low) * (Z.max 2 pDelay / 2) < 2 ^ 32)
  /\ (level l1 = low
  /\ pulseDuration l1 = Z.max 2 pDelay / 2
  /\ low <= level (run ks l1) <= high).
Proof.
  intros.
  assert (W1 : 0 <= low) by (by_evaluation).
  assert (W2 : low <= high) by (by_evaluation).
  assert (W3 : high <= 255) by (by_evaluation).
  assert (W4 : 8 <= UINT_BITS) by (by_evaluation).
  assert (W5 : (high - low) * (Z.max 2 pDelay / 2) < 2 ^ 32) by (by_evaluation).
  split; [exact (conj W1 (conj W2 (conj W3 (conj W4 (W5)))))|].
  exact (pulse_level_stays_between_its_ends 16 pDelay count low high now l0 ks W1 W2 W3 W4 W5).
Defined.

(** Orange on a common-anode RGB LED that is off. *)
Lemma color_witness :
  let newR := 255 in
  let newG := 128 in
  let newB := 0 in
  let l := rgb_led in
  let shown := fun c => if commonAnode l then 255 - c else c in
  let w := [AnalogWrite (pin l) (shown newR); AnalogWrite (pinG l) (shown newG); AnalogWrite (pinB l) (shown newB)] in
  let l' := setColor newR newG newB l in
  (isRGB l = true
   /\ 0 <= newR <= 255
   /\ 0 <= newG <= 255
   /\ 0 <= newB <= 255)
  /\ (state l' = state l
  /\ writes l' = (if state l =? HIGH then writes l ++ w else writes l)
  /\ writes (turnOn l') = writes l' ++ w).
Proof.
  intros.
  assert (W1 : isRGB l = true) by (by_evaluation).
  assert (W2 : 0 <= newR <= 255) by (by_evaluation).
  assert (W3 : 0 <= newG <= 255) by (by_evaluation).
  assert (W4 : 0 <= newB <= 255) by (by_evaluation).
  split; [exact (conj W1 (conj W2 (conj W3 (W4))))|].
  exact (color_is_written_when_on newR newG newB l W1 W2 W3 W4).
Defined.

End LEDWitnesses.

(** *** The device *)

Section DeviceWitnesses.
Import Device.

(** The second button of a device with room for two. *)
Lemma handles_witness :
  let fatal := "FATAL ERROR: Too many buttons. Increase TOTAL_BUTTONS. Halting."%string in
  let fatal' := "FATAL ERROR: Invalid button handle. Halting."%string in
  let initialise := Button.init 3 BUTTON_INPUT_PULLUP HIGH in
  let r := two_buttons in
  (0 <= totalSetup r <= Z.of_nat (length (items r))
   /\ (length (items r) <= 255)%nat
   /\ (forall x, exists x' serial, initialise x = Continue x' serial))
  /\ ((totalSetup r = Z.of_nat (length (items r))
   /\ new_item fatal initialise r = Halted [fatal])
  \/ (totalSetup r < Z.of_nat (length (items r))
      /\ exists x x' serial r',
           items r !! Z.to_nat (totalSetup r) = Some x
           /\ initialise x = Continue x' serial
           /\ new_item fatal initialise r = Continue (totalSetup r, r') serial
           /\ totalSetup r <> INVALID_HANDLE
           /\ totalSetup r' = totalSetup r + 1
           /\ items r' = <[Z.to_nat (totalSetup r) := x']> (items r)
           /\ item fatal' (totalSetup r) r = Halted [fatal']
           /\ item fatal' (totalSetup r) r' = Continue x' []
           /\ forall h, 0 <= h < totalSetup r -> item fatal' h r' = item fatal' h r)).
Proof.
  intros.
  assert (W1 : 0 <= totalSetup r <= Z.of_nat (length (items r))) by (by_evaluation).
  assert (W2 : (length (items r) <= 255)%nat) by (by_evaluation).
  assert (W3 : (forall x, exists x' serial, initialise x = Continue x' serial))
    by (intros x; destruct (Button.initialized x) eqn:E; eexists; eexists; unfold initialise, Button.init; rewrite E; reflexivity).
  split; [exact (conj W1 (conj W2 (W3)))|].
  exact (handles_are_issued_in_order fatal fatal' initialise r W1 W2 W3).
Defined.

End DeviceWitnesses.

(** ** The quantized value on the range of a 10-bit converter *)

(** For the values from -1023 to 1023 and the steps up to 16 the code's
    quantized value, computed through binary32, is the exact one, on the
    boards with a 16-bit [int] and on those with a 32-bit [int]. *)
Lemma quantized_exact_avr : quantized_exact avr (-1023) 1023 16 = true.
Proof. vm_compute. reflexivity. Qed.

Lemma quantized_exact_arm32 : quantized_exact arm32 (-1023) 1023 16 = true.
Proof. vm_compute. reflexivity. Qed.

Lemma quantized_exact_spec (board : Board) (lo hi : Z) (n : nat) (a q : Z) :
  quantized_exact board lo hi n = true ->
  lo <= a <= hi -> 1 <= q <= Z.of_nat n ->
  AnalogSensor.quantized board a q = round_half_away_div a q * q.
Proof.
  intros Hall Ha Hq. unfold quantized_exact in Hall.
  rewrite forallb_forall in Hall.
  assert (Hqin : In q (steps_to n)).
  { unfold steps_to. apply in_map_iff. exists (Z.to_nat (q - 1)).
    split; [lia|]. apply in_seq. lia. }
  specialize (Hall q Hqin). rewrite forallb_forall in Hall.
  assert (Hain : In a (integers lo hi)).
  { unfold integers. apply in_map_iff. exists (Z.to_nat (a - lo)).
    split; [lia|]. apply in_seq. lia. }
  specialize (Hall a Hain). apply Z.eqb_eq in Hall. exact Hall.
Qed.

Lemma quantized_on_adc_range (board : Board) (a q : Z) :
  board = avr \/ board = arm32 ->
  -1023 <= a <= 1023 -> 1 <= q <= 16 ->
  AnalogSensor.quantized board a q = round_half_away_div a q * q.
Proof.
  intros [-> | ->] Ha Hq.
  - apply (quantized_exact_spec avr (-1023) 1023 16); [apply quantized_exact_avr | lia | lia].
  - apply (quantized_exact_spec arm32 (-1023) 1023 16);
      [apply quantized_exact_arm32 | lia | lia].
Qed.

Section QuantizedOnAdcRange.
Import AnalogSensor.

Variable board : Board.

Local Abbreviation update := (AnalogSensor.update board).

Lemma clamp_nearest (lo hi m : Z) :
  lo <= hi -> nearest_in_range lo hi m (clamp lo hi m).
Proof.
  intros H. unfold nearest_in_range, clamp.
  destruct (Z.ltb_spec m lo).
  - destruct (Z.ltb_spec hi lo); [lia|]. split; [lia|]. intros w Hw. lia.
  - destruct (Z.ltb_spec hi m); (split; [lia|]); intros w Hw; lia.
Qed.

(** X29. Quantized hysteresis on the range of a 10-bit converter. On a
    board with a 16-bit [int] or with a 32-bit one, for an output range
    within -1023..1023 that is not empty and a step [Q] from 1 to 16, on a
    poll that completes a smoothing window: the candidate [cand] is the
    value of the output range nearest to [m], the multiple of [Q] nearest
    to the hi-res value, half away from zero; when the candidate is above
    the reported value [cur], the reported value becomes the candidate if
    and only if the hi-res value is at least [cur + Q/2 + H]; when it is
    below, if and only if the hi-res value is at most [cur - Q/2 - H];
    otherwise the reported value is unchanged; on a commit the change
    callback, when one is registered, is invoked once, with the new value,
    and it is not invoked without a commit. [Q/2] is the integer quotient
    of the code. *)
Theorem quantized_hysteresis_on_adc_range (s : AnalogSensor) (rawValue : Z) :
  board = avr \/ board = arm32 ->
  hasInitialRead s = true ->
  0 < quantizeStep s <= 16 ->
  -1023 <= outputMin s -> outputMin s <= outputMax s -> outputMax s <= 1023 ->
  completes_window rawValue s = true ->
  let s' := fst (update rawValue s) in
  let ev := snd (update rawValue s) in
  let Q := quantizeStep s in
  let H := hysteresis_amount s in
  let cur := currentReportedValue s in
  let hi := hiResValue s' in
  exists m cand,
    rounds_half_away Q hi m
    /\ nearest_in_range (outputMin s) (outputMax s) m cand
    /\ (cur < cand ->
        (currentReportedValue s' = cand <-> cur + Z.quot Q 2 + H <= hi))
    /\ (cand < cur ->
        (currentReportedValue s' = cand <-> hi <= cur - Z.quot Q 2 - H))
    /\ (currentReportedValue s' = cand \/ currentReportedValue s' = cur)
    /\ changes ev =
       (if currentReportedValue s' =? cur then []
        else if hasChangeFunc s then [currentReportedValue s'] else []).
Proof.
  intros Hboard Hi [HQ HQ16] Hlo Hrange Hup Hw s' ev Q H cur hi.
  pose proof (update_measured board rawValue s Hi Hw) as Hu.
  set (s2 := measured board rawValue s) in *.
  destruct (measured_config board rawValue s)
    as (Hcfg & Hcur & _ & _ & _ & Hmh).
  fold s2 in Hcfg, Hcur, Hmh.
  destruct Hcfg as (_ & _ & Hmin & Hmax & _ & Hq & Hh & _ & _ & _ & Hcf & _).
  assert (Hhi : hi = hiResValue s2).
  { subst hi s'. rewrite Hu. simpl.
    destruct (classify_frame (fst (commit board s2))) as (-> & _).
    destruct (commit_frame board s2) as (-> & _). reflexivity. }
  assert (Hrep : currentReportedValue s'
                 = currentReportedValue (fst (commit board s2))).
  { subst s'. rewrite Hu. simpl.
    destruct (classify_frame (fst (commit board s2))) as (_ & -> & _). reflexivity. }
  assert (Hev : changes ev = changes (snd (commit board s2))).
  { subst ev. rewrite Hu. simpl. unfold changes. rewrite flat_map_app.
    fold (changes (snd (classify (fst (commit board s2))))).
    destruct (classify_frame (fst (commit board s2))) as (_ & _ & _ & _ & ->).
    apply app_nil_r. }
  assert (Hbound : -1023 <= hi <= 1023).
  { destruct (accumulate_config rawValue s)
      as ((_ & _ & Hamin & Hamax & _) & _).
    pose proof (computeHiRes_range board
      (accumulatedSum (accumulate rawValue s) / avgSamples (accumulate rawValue s))
      (accumulate rawValue s) ltac:(lia)) as Hin.
    unfold in_output_range in Hin. rewrite <- Hmh, <- Hhi in Hin. lia. }
  assert (HQ2 : 0 < quantizeStep s2) by (rewrite Hq; exact HQ).
  destruct (commit_quantized board s2 HQ2) as [Hc He].
  rewrite Hrep, Hev, Hc, He. clear Hc He Hrep Hev Hu.
  exists (round_half_away_div hi Q * Q), (V_potential board s2).
  assert (HV : V_potential board s2 =
               clamp (outputMin s) (outputMax s) (round_half_away_div hi Q * Q)).
  { unfold V_potential. rewrite Hmin, Hmax, Hq, <- Hhi. fold Q.
    rewrite (quantized_on_adc_range board hi Q Hboard Hbound) by (subst Q; lia).
    reflexivity. }
  split; [apply round_half_away_div_half_away; exact HQ|].
  split; [rewrite HV; apply clamp_nearest; exact Hrange|].
  rewrite Hq, Hh, Hcur, Hcf, <- Hhi. fold Q H cur.
  set (V := V_potential board s2) in *. clearbody V.
  destruct (Z.ltb_spec cur V); destruct (Z.ltb_spec V cur); try lia; simpl;
    destruct (Z.leb_spec (cur + Z.quot Q 2 + H) hi);
    destruct (Z.leb_spec hi (cur - Z.quot Q 2 - H)); simpl;
    repeat split; try (intros; lia); try tauto;
    try (destruct (Z.eqb_spec V cur); [lia|reflexivity]);
    try (destruct (Z.eqb_spec cur cur); [reflexivity|lia]).
Qed.

End QuantizedOnAdcRange.

Lemma quantized_hysteresis_witness :
  let s := percent_sensor in
  let rawValue := 140 in
  let update := AnalogSensor.update avr in
  ((avr = avr \/ avr = arm32)
   /\ AnalogSensor.hasInitialRead s = true
   /\ 0 < AnalogSensor.quantizeStep s <= 16
   /\ -1023 <= AnalogSensor.outputMin s
   /\ AnalogSensor.outputMin s <= AnalogSensor.outputMax s
   /\ AnalogSensor.outputMax s <= 1023
   /\ AnalogSensor.completes_window rawValue s = true)
  /\ exists m cand,
       rounds_half_away (AnalogSensor.quantizeStep s)
         (AnalogSensor.hiResValue (fst (update rawValue s))) m
       /\ nearest_in_range (AnalogSensor.outputMin s) (AnalogSensor.outputMax s) m cand
       /\ (AnalogSensor.currentReportedValue s < cand ->
           (AnalogSensor.currentReportedValue (fst (update rawValue s)) = cand <->
            AnalogSensor.currentReportedValue s
            + Z.quot (AnalogSensor.quantizeStep s) 2
            + AnalogSensor.hysteresis_amount s
            <= AnalogSensor.hiResValue (fst (update rawValue s))))
       /\ (cand < AnalogSensor.currentReportedValue s ->
           (AnalogSensor.currentReportedValue (fst (update rawValue s)) = cand <->
            AnalogSensor.hiResValue (fst (update rawValue s))
            <= AnalogSensor.currentReportedValue s
               - Z.quot (AnalogSensor.quantizeStep s) 2
               - AnalogSensor.hysteresis_amount s))
       /\ (AnalogSensor.currentReportedValue (fst (update rawValue s)) = cand
           \/ AnalogSensor.currentReportedValue (fst (update rawValue s))
              = AnalogSensor.currentReportedValue s)
       /\ AnalogSensor.changes (snd (update rawValue s)) =
          (if AnalogSensor.currentReportedValue (fst (update rawValue s))
              =? AnalogSensor.currentReportedValue s
           then []
           else if AnalogSensor.hasChangeFunc s
                then [AnalogSensor.currentReportedValue (fst (update rawValue s))]
                else []).
Proof.
  intros s rawValue update.
  assert (W1 : avr = avr \/ avr = arm32) by (left; reflexivity).
  assert (W2 : AnalogSensor.hasInitialRead s = true) by (vm_compute; reflexivity).
  assert (W3 : 0 < AnalogSensor.quantizeStep s <= 16) by (vm_compute; split; discriminate || reflexivity).
  assert (W4 : -1023 <= AnalogSensor.outputMin s) by (vm_compute; discriminate).
  assert (W5 : AnalogSensor.outputMin s <= AnalogSensor.outputMax s)
    by (vm_compute; discriminate).
  assert (W6 : AnalogSensor.outputMax s <= 1023) by (vm_compute; discriminate).
  assert (W7 : AnalogSensor.completes_window rawValue s = true)
    by (vm_compute; reflexivity).
  split; [exact (conj W1 (conj W2 (conj W3 (conj W4 (conj W5 (conj W6 W7))))))|].
  exact (quantized_hysteresis_on_adc_range avr s rawValue W1 W2 W3 W4 W5 W6 W7).
Defined.
